(** * fspopulate: a shallow embedding of [fspopulate.c]

    The program creates a two-level tree [ROOT/dirNNNNNN/fileNNNNNN] whose
    file sizes add up to a requested total.  This development embeds
    [main], [init_buffer], [fspopulate] and [populate_file] together with a
    small model of the system calls they use ([mkdirp], [open], [fstat],
    [write], [close]), and proves the properties the specification states
    about them.

    Conventions of the embedding:
    - [off_t], [ssize_t] and [int] values are integers in [Z]; the
      conversions the program performs ([unsigned long long] to [off_t],
      [++bi] on an [int]) are written out with their wrap-around;
    - C strings are [string]s, [snprintf] truncates to the size of its
      destination;
    - the file system, the table of open descriptors and the history of
      system calls form an explicit [world] that every call transforms;
    - the outcome of each system call (failure, short write) that the
      program cannot determine is read from an oracle carried by the world;
    - the diagnostic lines written to [stderr] are not part of the world. *)

From Stdlib Require Import ZArith Lia Ascii String List.
From stdpp Require Import gmap strings list fin_maps list_numbers.

Local Open Scope Z_scope.

(** ** Integer types *)

Definition INT_MAX : Z := 2147483647.

(** Two's-complement wrap-around of a [bits]-wide signed integer. *)
Definition wrap_signed (bits : Z) (x : Z) : Z :=
  (x + 2 ^ (bits - 1)) mod 2 ^ bits - 2 ^ (bits - 1).

Definition to_int (x : Z) : Z := wrap_signed 32 x.
Definition to_off_t (x : Z) : Z := wrap_signed 64 x.

(** Arithmetic on [unsigned long long] is modulo [2 ^ 64]. *)
Definition ULLONG_MAX : Z := 2 ^ 64 - 1.
Definition to_ull (x : Z) : Z := x mod 2 ^ 64.

(** [#define MIN(a, b) ((a < b) ? (a) : (b))] *)
Definition MIN (a b : Z) : Z := if a <? b then a else b.

(** [sizeof (fsp_buf)], for [char fsp_buf[10 * 1024 * 1024]]. *)
Definition sizeof_fsp_buf : Z := 10 * 1024 * 1024.

(** ** Strings and [snprintf] *)

Definition slash : ascii := "/"%char.

(** The decimal digits of a non-negative number, least significant first. *)
Fixpoint digits_lsd (fuel : nat) (n : Z) : list Z :=
  match fuel with
  | O => []
  | S fuel => n mod 10 :: (if n <? 10 then [] else digits_lsd fuel (n / 10))
  end.

(** The number a list of digits, least significant first, stands for. *)
Fixpoint value_lsd (ds : list Z) : Z :=
  match ds with
  | [] => 0
  | d :: ds => d + 10 * value_lsd ds
  end.

Definition digit_char (d : Z) : ascii := ascii_of_nat (48 + Z.to_nat d).

(** Zero padding on the most significant side up to [width] digits. *)
Definition zero_pad (width : nat) (ds : list Z) : list Z :=
  ds ++ replicate (width - length ds)%nat 0.

Definition render (ds : list Z) : string :=
  string_of_list_ascii (digit_char <$> reverse ds).

(** The conversion [%06d] of [printf] applied to an [int]: at least six
    characters, padded with zeros, the sign counted in the width. *)
Definition fmt_06d (n : Z) : string :=
  if n <? 0
  then String "-"%char (render (zero_pad 5 (digits_lsd 10 (- n))))
  else render (zero_pad 6 (digits_lsd 10 n)).

(** [snprintf (dst, size, ...)] keeps at most [size - 1] characters. *)
Fixpoint string_take (n : nat) (s : string) : string :=
  match n, s with
  | S n, String c s => String c (string_take n s)
  | _, _ => EmptyString
  end.

Definition snprintf (size : Z) (s : string) : string :=
  string_take (Z.to_nat (size - 1)) s.

(** The part of a path before its last slash, if it has one. *)
Fixpoint dirname (s : string) : option string :=
  match s with
  | EmptyString => None
  | String c s =>
      match dirname s with
      | Some d => Some (String c d)
      | None => if Ascii.eqb c slash then Some EmptyString else None
      end
  end.

(** ** Functions of the C library that [main] applies to its arguments *)

Definition tolower (c : ascii) : ascii :=
  let n := nat_of_ascii c in
  if (65 <=? n)%nat && (n <=? 90)%nat then ascii_of_nat (n + 32) else c.

(** [strcasecmp (s1, s2)]: the difference of the first two bytes that
    differ once converted to lower case, 0 when there are none. *)
Fixpoint strcasecmp (s1 s2 : string) : Z :=
  match s1, s2 with
  | EmptyString, EmptyString => 0
  | EmptyString, String c2 _ => - Z.of_nat (nat_of_ascii (tolower c2))
  | String c1 _, EmptyString => Z.of_nat (nat_of_ascii (tolower c1))
  | String c1 s1, String c2 s2 =>
      let d := Z.of_nat (nat_of_ascii (tolower c1))
               - Z.of_nat (nat_of_ascii (tolower c2)) in
      if d =? 0 then strcasecmp s1 s2 else d
  end.

Definition isspace (c : ascii) : bool :=
  let n := nat_of_ascii c in
  (n =? 32)%nat || ((9 <=? n)%nat && (n <=? 13)%nat).

(** The value of a character as a digit, for bases up to 36. *)
Definition digit_value (c : ascii) : option Z :=
  let n := Z.of_nat (nat_of_ascii c) in
  if (48 <=? n) && (n <=? 57) then Some (n - 48)
  else if (97 <=? n) && (n <=? 122) then Some (n - 87)
  else if (65 <=? n) && (n <=? 90) then Some (n - 55)
  else None.

Fixpoint skip_space (s : string) : string :=
  match s with
  | String c s' => if isspace c then skip_space s' else s
  | EmptyString => s
  end.

(** [s] starts with a digit of [base]. *)
Definition is_digit_of (base : Z) (s : string) : bool :=
  match s with
  | String c _ =>
      match digit_value c with
      | Some d => d <? base
      | None => false
      end
  | EmptyString => false
  end.

(** The digits of [base] at the start of [s], accumulated on [acc], and
    what follows them. *)
Fixpoint scan_digits (base acc : Z) (s : string) : Z * string :=
  match s with
  | String c s' =>
      match digit_value c with
      | Some d =>
          if d <? base then scan_digits base (acc * base + d) s' else (acc, s)
      | None => (acc, s)
      end
  | EmptyString => (acc, s)
  end.

(** [strtoull (nptr, &endptr, 0)]: the value returned and the string
    [endptr] is left pointing to.  Base 0 takes a leading [0x] for
    hexadecimal and a leading [0] for octal; without any digit nothing is
    converted and [endptr] is [nptr]; a value that does not fit is
    [ULLONG_MAX]; a minus sign negates in [unsigned long long]. *)
Definition strtoull (nptr : string) : Z * string :=
  let s := skip_space nptr in
  let '(neg, s) :=
    match s with
    | String "-" s' => (true, s')
    | String "+" s' => (false, s')
    | _ => (false, s)
    end in
  let '(base, s) :=
    match s with
    | String "0" (String x s') =>
        if (Ascii.eqb x "x" || Ascii.eqb x "X") && is_digit_of 16 s'
        then (16, s') else (8, s)
    | String "0" _ => (8, s)
    | _ => (10, s)
    end in
  if is_digit_of base s then
    let '(v, rest) := scan_digits base 0 s in
    (if ULLONG_MAX <? v then ULLONG_MAX
     else if neg then to_ull (- v) else v, rest)
  else (0, nptr).

(** ** Configuration *)

Record fspopulate_t := {
  fsp_path : string;       (* root of tree to create *)
  fsp_totsize : Z;         (* total amount of bytes to write *)
  fsp_nbulk : Z;           (* number of "bulk" files to create *)
  fsp_bulksize : Z;        (* size of each "bulk" file *)
  fsp_nsubdirs : Z;        (* count of user directories *)
  fsp_dryrun : bool        (* don't actually do anything *)
}.

(** ** The world: file system, descriptors, history of system calls *)

Inductive node :=
| Dir
| Reg (data : list Z).

(** An open file description. *)
Record ofile := {
  of_path : string;
  of_append : bool;
  of_writable : bool;
  of_offset : Z
}.

(** What the environment decides about a system call: let it take its
    normal course, make it fail, or (for [write]) transfer only [k] bytes. *)
Inductive reply :=
| Normal
| Error
| Short (k : Z).

Global Instance reply_eq_dec : EqDecision reply.
Proof. solve_decision. Defined.

Inductive event :=
| EvMkdirp (path : string) (ret errno : Z)
| EvOpen (path : string) (oflag ret : Z)
| EvFstat (fd ret st_size : Z)
| EvWrite (fd nbyte ret : Z)
| EvClose (fd : Z).

(** [w_trace] lists the system calls made so far, the latest first; the
    oracle [w_os] is asked at the position of the call in that history. *)
Record world := {
  w_os : nat -> reply;
  w_fs : gmap string node;
  w_fdtab : gmap Z ofile;
  w_trace : list event
}.

Definition tick (w : world) : nat := length (w_trace w).

Definition record (e : event) (fs : gmap string node) (tab : gmap Z ofile)
    (w : world) : world :=
  {| w_os := w_os w; w_fs := fs; w_fdtab := tab; w_trace := e :: w_trace w |}.

(** [errno] values and [open] flags of <sys/errno.h> and <sys/fcntl.h>. *)
Definition EACCES : Z := 13.
Definition EEXIST : Z := 17.
Definition O_WRONLY : Z := 1.
Definition O_RDWR : Z := 2.
Definition O_APPEND : Z := 8.
Definition O_CREAT : Z := 256.
Definition O_TRUNC : Z := 512.

Definition has_flag (oflag f : Z) : bool := negb (Z.land oflag f =? 0).

(** [mkdirp (path, mode)]: returns 0 after creating the directory, and -1
    with [errno] set otherwise; an existing [path] gives [EEXIST].  The
    tree records the directory named by [path] only: the missing
    ancestors the library call creates on the way are directories that
    the tree does not track, and the call fails here only when the
    operating system says so. *)
Definition mkdirp (path : string) (w : world) : Z * Z * world :=
  match w_os w (tick w) with
  | Error =>
      (-1, EACCES, record (EvMkdirp path (-1) EACCES) (w_fs w) (w_fdtab w) w)
  | _ =>
      match w_fs w !! path with
      | Some _ =>
          (-1, EEXIST,
           record (EvMkdirp path (-1) EEXIST) (w_fs w) (w_fdtab w) w)
      | None =>
          (0, 0,
           record (EvMkdirp path 0 0) (<[path := Dir]> (w_fs w)) (w_fdtab w) w)
      end
  end.

(** A new file can be created only inside an existing directory; a path
    without a parent component is relative to the current directory. *)
Definition parent_is_dir (fs : gmap string node) (path : string) : bool :=
  match dirname path with
  | None | Some EmptyString => true
  | Some d => match fs !! d with Some Dir => true | _ => false end
  end.

Definition alloc_fd (tab : gmap Z ofile) : Z :=
  Z.of_nat (fresh (set_map Z.to_nat (dom tab) : gset nat)).

Definition open (path : string) (oflag : Z) (w : world) : Z * world :=
  let fail := (-1, record (EvOpen path oflag (-1)) (w_fs w) (w_fdtab w) w) in
  let fd := alloc_fd (w_fdtab w) in
  let entry := {| of_path := path;
                  of_append := has_flag oflag O_APPEND;
                  of_writable := has_flag oflag (Z.lor O_WRONLY O_RDWR);
                  of_offset := 0 |} in
  let ok fs :=
    (fd, record (EvOpen path oflag fd) fs (<[fd := entry]> (w_fdtab w)) w) in
  match w_os w (tick w) with
  | Error => fail
  | _ =>
      match w_fs w !! path with
      | Some Dir => fail
      | Some (Reg _) =>
          if has_flag oflag O_TRUNC
          then ok (<[path := Reg []]> (w_fs w))
          else ok (w_fs w)
      | None =>
          if has_flag oflag O_CREAT && parent_is_dir (w_fs w) path
          then ok (<[path := Reg []]> (w_fs w))
          else fail
      end
  end.

(** [fstat (fd, &st)]: the return value and [st.st_size]. *)
Definition fstat (fd : Z) (w : world) : Z * Z * world :=
  let fail := (-1, 0, record (EvFstat fd (-1) 0) (w_fs w) (w_fdtab w) w) in
  match w_os w (tick w) with
  | Error => fail
  | _ =>
      match w_fdtab w !! fd with
      | Some e =>
          match w_fs w !! of_path e with
          | Some (Reg data) =>
              let sz := Z.of_nat (length data) in
              (0, sz, record (EvFstat fd 0 sz) (w_fs w) (w_fdtab w) w)
          | _ => fail
          end
      | None => fail
      end
  end.

(** The number of bytes a [write] of [nbyte] bytes transfers. *)
Definition granted (r : reply) (nbyte : Z) : Z :=
  match r with
  | Short k => if (0 <=? k) && (k <? nbyte) then k else nbyte
  | _ => nbyte
  end.

(** File contents after [bytes] are stored at position [pos]. *)
Definition store_at (pos : nat) (bytes data : list Z) : list Z :=
  take pos data ++ replicate (pos - length data)%nat 0 ++ bytes
    ++ drop (pos + length bytes)%nat data.

(** [write (fd, buf, nbyte)]: with [O_APPEND] the bytes go to the end of
    the file, otherwise to the offset of the descriptor. *)
Definition write (fd : Z) (buf : Z -> Z) (nbyte : Z) (w : world) : Z * world :=
  let fail := (-1, record (EvWrite fd nbyte (-1)) (w_fs w) (w_fdtab w) w) in
  match w_os w (tick w) with
  | Error => fail
  | r =>
      match w_fdtab w !! fd with
      | Some e =>
          match w_fs w !! of_path e with
          | Some (Reg data) =>
              if of_writable e then
                let k := granted r nbyte in
                let bytes := buf <$> seqZ 0 k in
                let pos :=
                  if of_append e then Z.of_nat (length data) else of_offset e in
                let e' := {| of_path := of_path e; of_append := of_append e;
                             of_writable := of_writable e;
                             of_offset := pos + k |} in
                (k, record (EvWrite fd nbyte k)
                      (<[of_path e := Reg (store_at (Z.to_nat pos) bytes data)]>
                         (w_fs w))
                      (<[fd := e']> (w_fdtab w)) w)
              else fail
          | _ => fail
          end
      | None => fail
      end
  end.

Definition close (fd : Z) (w : world) : world :=
  record (EvClose fd) (w_fs w) (delete fd (w_fdtab w)) w.

(** ** The program *)

Inductive status :=
| Returned (rv : Z)      (* the function returned [rv] *)
| Aborted                (* [assert] failed: the process is gone *)
| Trapped                (* division by zero *)
| OutOfFuel.             (* the model stopped before the code did *)

(** The local variables of [fspopulate] that survive a loop iteration. *)
Record counters := {
  totwritten : Z;
  di : Z;
  bi : Z
}.

(** The generator behind [srand] and [rand] of <stdlib.h>: [srand] sets
    its state, [rand] returns the next number and the state after it. *)
Record generator := {
  prng : Type;
  srand : Z -> prng;
  rand : prng -> Z * prng
}.

Section Fspopulate.

(** [PATH_MAX] of <limits.h>. *)
Variable PATH_MAX : Z.

Definition to_char (r : Z) : Z := wrap_signed 8 r.

(** [bufp[i] = v] *)
Definition store (bufp : Z -> Z) (i v : Z) : Z -> Z :=
  fun j => if j =? i then v else bufp j.

(** [for (i = 0; i < bufsz; i++) bufp[i] = (char)rand();] with [n]
    iterations left. *)
Fixpoint init_buffer_loop (g : generator) (n : nat) (i : Z) (s : prng g)
    (bufp : Z -> Z) : Z -> Z :=
  match n with
  | O => bufp
  | S n =>
      let '(r, s) := rand g s in
      init_buffer_loop g n (i + 1) s (store bufp i (to_char r))
  end.

(** [init_buffer (bufp, bufsz)], with the generator of the C library. *)
Definition init_buffer (g : generator) (bufp : Z -> Z) (bufsz : Z) : Z -> Z :=
  init_buffer_loop g (Z.to_nat bufsz) 0 (srand g 1) bufp.

(** The [k]-th number [rand] returns after [srand (1)]. *)
Definition rand_nth (g : generator) (k : nat) : Z :=
  fst (rand g (Nat.iter k (fun s => snd (rand g s)) (srand g 1))).

(** The contents [init_buffer] leaves in a zeroed buffer, byte by byte. *)
Definition fill_pattern (g : generator) (bufsz : Z) : Z -> Z :=
  fun i =>
    if (0 <=? i) && (i <? bufsz) then to_char (rand_nth g (Z.to_nat i)) else 0.

(** [populate_file (fd, nbytes)], reading the global [fsp_buf]. *)
Fixpoint populate_file_loop (fuel : nat) (fsp_buf : Z -> Z)
    (fd nbytes nwritten : Z) (w : world) : status * world :=
  if nwritten <? nbytes then
    match fuel with
    | O => (OutOfFuel, w)
    | S fuel =>
        let ntowrite := MIN (nbytes - nwritten) sizeof_fsp_buf in
        let '(result, w) := write fd fsp_buf ntowrite w in
        if result =? 0 then (Aborted, w)
        else if result =? -1 then (Returned (-1), w)
        else populate_file_loop fuel fsp_buf fd nbytes (nwritten + result) w
    end
  else (Returned 0, w).

Definition populate_file (fsp_buf : Z -> Z) (fd nbytes : Z) (w : world)
    : status * world :=
  populate_file_loop (Z.to_nat nbytes) fsp_buf fd nbytes 0 w.

Definition subdir_path (fsp : fspopulate_t) (di : Z) : string :=
  snprintf PATH_MAX (fsp_path fsp +:+ "/dir" +:+ fmt_06d di).

Definition file_path (fsp : fspopulate_t) (di bi : Z) : string :=
  snprintf PATH_MAX
    (fsp_path fsp +:+ "/dir" +:+ fmt_06d di +:+ "/file" +:+ fmt_06d bi).

Definition nominal_size (fsp : fspopulate_t) (bi : Z) : Z :=
  if bi <? fsp_nbulk fsp then fsp_bulksize fsp else 10 * 1024 * 1024.

Definition expected_size (fsp : fspopulate_t) (c : counters) : Z :=
  MIN (nominal_size fsp (bi c)) (fsp_totsize fsp - totwritten c).

(** The counters at the end of an iteration that ran to completion. *)
Definition advance (fsp : fspopulate_t) (c : counters) : counters :=
  {| totwritten := totwritten c + expected_size fsp c;
     di := Z.rem (di c + 1) (fsp_nsubdirs fsp);
     bi := to_int (bi c + 1) |}.

(** One iteration of the [while] loop of [fspopulate]: [Some s] when the
    iteration leaves the function with status [s], [None] when it reaches
    the end of the loop body. *)
Definition fspopulate_body (fsp_buf : Z -> Z) (fsp : fspopulate_t)
    (c : counters) (w : world) : option status * world :=
  let '(mkdir_failed, w) :=
    if bi c <? fsp_nsubdirs fsp then
      let '(ret, errno, w) := mkdirp (subdir_path fsp (di c)) w in
      ((ret =? -1) && negb (errno =? EEXIST), w)
    else (false, w) in
  if mkdir_failed then (Some (Returned (-1)), w) else
  let pathname := file_path fsp (di c) (bi c) in
  if fsp_nsubdirs fsp =? 0 then (Some Trapped, w) else
  let '(fd, w) :=
    open pathname (Z.lor (Z.lor O_APPEND O_WRONLY) O_CREAT) w in
  if fd <? 0 then (Some (Returned (-1)), w) else
  let '(ret, st_size, w) := fstat fd w in
  if negb (ret =? 0) then (Some (Returned (-1)), close fd w) else
  let expectedsz := expected_size fsp c in
  let '(err, w) := populate_file fsp_buf fd (expectedsz - st_size) w in
  match err with
  | Returned 0 => (None, close fd w)
  | Returned _ => (Some (Returned (-1)), close fd w)
  | stopped => (Some stopped, w)
  end.

Fixpoint fspopulate_loop (fuel : nat) (fsp_buf : Z -> Z) (fsp : fspopulate_t)
    (c : counters) (w : world) : status * counters * world :=
  if totwritten c <? fsp_totsize fsp then
    match fuel with
    | O => (OutOfFuel, c, w)
    | S fuel =>
        match fspopulate_body fsp_buf fsp c w with
        | (Some s, w) => (s, c, w)
        | (None, w) => fspopulate_loop fuel fsp_buf fsp (advance fsp c) w
        end
    end
  else (Returned 0, c, w).

(** An upper bound on the number of files of a run. *)
Definition max_files (fsp : fspopulate_t) : Z :=
  Z.max 0 (fsp_nbulk fsp)
  + (Z.max 0 (fsp_totsize fsp) + sizeof_fsp_buf - 1) / sizeof_fsp_buf.

Definition start : counters := {| totwritten := 0; di := 0; bi := 0 |}.

Definition fspopulate (fsp_buf : Z -> Z) (fsp : fspopulate_t) (w : world)
    : status * world :=
  if fsp_dryrun fsp then (Returned 0, w) else
  let '(ret, errno, w) := mkdirp (fsp_path fsp) w in
  if negb (ret =? 0) && negb (errno =? EEXIST) then (Returned (-1), w) else
  let '(s, _, w) :=
    fspopulate_loop (Z.to_nat (max_files fsp)) fsp_buf fsp start w in
  (s, w).

(** The configuration [main] builds from the parsed size [totsz] (an
    [unsigned long long]) and the path argument. *)
Definition main_config (totsz : Z) (path : string) : fspopulate_t :=
  {| fsp_path := snprintf PATH_MAX path;
     fsp_totsize := to_off_t totsz;
     fsp_nbulk := 768;
     fsp_bulksize := to_off_t (totsz / 1024);
     fsp_nsubdirs := 256;
     fsp_dryrun := false |}.

Definition EXIT_SUCCESS : Z := 0.
Definition EXIT_FAILURE : Z := 1.

(** [main] after its arguments are parsed, with the generator of the C
    library; [Returned] carries the exit status of the process. *)
Definition main (g : generator) (totsz : Z) (path : string) (w : world)
    : status * world :=
  let fsp_buf := init_buffer g (fun _ => 0) sizeof_fsp_buf in
  let '(s, w) := fspopulate fsp_buf (main_config totsz path) w in
  match s with
  | Returned rv => (Returned (if rv =? 0 then EXIT_SUCCESS else EXIT_FAILURE), w)
  | stopped => (stopped, w)
  end.

(** [usage ()]: after its message to [stderr], [exit (2)]. *)
Definition usage (w : world) : status * world := (Returned 2, w).

(** [main (argc, argv)] from its first statement: the arguments are
    checked and converted, then the program goes on as [main] above. *)
Definition main_argv (g : generator) (argv : list string) (w : world)
    : status * world :=
  if Z.of_nat (length argv) <? 3 then usage w else
  let '(totsz, endptr) := strtoull (nth 1 argv "") in
  let size :=
    if strcasecmp endptr "t" =? 0
    then Some (to_ull (totsz * (1024 * 1024 * 1024 * 1024)))
    else if strcasecmp endptr "g" =? 0
    then Some (to_ull (totsz * (1024 * 1024 * 1024)))
    else if strcasecmp endptr "m" =? 0
    then Some (to_ull (totsz * (1024 * 1024)))
    else if strcasecmp endptr "k" =? 0
    then Some (to_ull (totsz * 1024))
    else
      match endptr with
      | String _ _ => None
      | EmptyString => Some totsz
      end in
  match size with
  | Some totsz => main g totsz (nth 2 argv "") w
  | None => usage w
  end.

(** ** Notions used to state the properties *)

(** Configurations the program is meant for: sizes are not negative, there
    is at least one subdirectory, the file counter stays within [int], and
    the longest path name fits its buffer. *)
Definition valid_config (fsp : fspopulate_t) : Prop :=
  0 <= fsp_totsize fsp /\ 0 <= fsp_bulksize fsp /\ 0 < fsp_nsubdirs fsp /\
  max_files fsp <= INT_MAX /\
  Z.of_nat (String.length (fsp_path fsp)) + 30 <= PATH_MAX.

(** The counters at the start of each iteration of the loop, in order:
    one entry per planned file. *)
Fixpoint plan_from (fuel : nat) (fsp : fspopulate_t) (c : counters)
    : list counters :=
  if totwritten c <? fsp_totsize fsp then
    match fuel with
    | O => []
    | S fuel => c :: plan_from fuel fsp (advance fsp c)
    end
  else [].

Definition plan (fsp : fspopulate_t) : list counters :=
  plan_from (Z.to_nat (max_files fsp)) fsp start.

Definition task_path (fsp : fspopulate_t) (c : counters) : string :=
  file_path fsp (di c) (bi c).

(** The flags [fspopulate] passes to [open]. *)
Definition open_flags : Z := Z.lor (Z.lor O_APPEND O_WRONLY) O_CREAT.

Definition total (rs : list Z) : Z := foldr Z.add 0 rs.

(** The bytes a sequence of [write] calls returning [rs] takes from the
    buffer: every call starts at the first byte of the buffer again. *)
Definition chunks (buf : Z -> Z) (rs : list Z) : list Z :=
  concat ((fun r => buf <$> seqZ 0 r) <$> rs).

(** The [write] calls of [populate_file (fd, nbytes)] when the calls
    return [rs], with [nwritten] bytes written before. *)
Fixpoint write_events (fd nbytes nwritten : Z) (rs : list Z) : list event :=
  match rs with
  | [] => []
  | r :: rs =>
      EvWrite fd (MIN (nbytes - nwritten) sizeof_fsp_buf) r
        :: write_events fd nbytes (nwritten + r) rs
  end.

(** [rs] are the results of successive successful calls from time [t] on. *)
Fixpoint writes_ok (os : nat -> reply) (t : nat) (nbytes nwritten : Z)
    (rs : list Z) : Prop :=
  match rs with
  | [] => True
  | r :: rs =>
      nwritten < nbytes /\ os t <> Error /\
      r = granted (os t) (MIN (nbytes - nwritten) sizeof_fsp_buf) /\ 0 < r /\
      writes_ok os (S t) nbytes (nwritten + r) rs
  end.

Definition size_at (fs : gmap string node) (p : string) : Z :=
  match fs !! p with
  | Some (Reg data) => Z.of_nat (length data)
  | _ => 0
  end.

Definition openable (fs : gmap string node) (p : string) : bool :=
  match fs !! p with
  | Some Dir => false
  | Some (Reg _) => true
  | None => parent_is_dir fs p
  end.

Definition touch (p : string) (fs : gmap string node) : gmap string node :=
  match fs !! p with
  | None => <[p := Reg []]> fs
  | Some _ => fs
  end.

Definition append_at (p : string) (extra : list Z) (fs : gmap string node)
    : gmap string node :=
  match fs !! p with
  | Some (Reg data) => <[p := Reg (data ++ extra)]> fs
  | _ => fs
  end.

Definition make_dir (p : string) (fs : gmap string node) : gmap string node :=
  match fs !! p with
  | None => <[p := Dir]> fs
  | Some _ => fs
  end.

Definition mkdirp_event (p : string) (fs : gmap string node) : event :=
  match fs !! p with
  | None => EvMkdirp p 0 0
  | Some _ => EvMkdirp p (-1) EEXIST
  end.

(** What the treatment of one file, from [open] to [close], can do at
    time [t] on the tree [fs]: how the iteration ends, the system calls
    made (oldest first) and the tree left behind. *)
Inductive file_task (os : nat -> reply) (buf : Z -> Z) (t : nat) (p : string)
    (expectedsz : Z) (fs : gmap string node)
    : option status -> list event -> gmap string node -> Prop :=
| FT_open_failed :
    os t = Error \/ openable fs p = false ->
    file_task os buf t p expectedsz fs
      (Some (Returned (-1))) [EvOpen p open_flags (-1)] fs
| FT_fstat_failed fd :
    os t <> Error -> openable fs p = true -> 0 <= fd ->
    os (S t) = Error ->
    file_task os buf t p expectedsz fs
      (Some (Returned (-1)))
      [EvOpen p open_flags fd; EvFstat fd (-1) 0; EvClose fd]
      (touch p fs)
| FT_filled fd rs :
    os t <> Error -> openable fs p = true -> 0 <= fd ->
    os (S t) <> Error ->
    writes_ok os (S (S t)) (expectedsz - size_at fs p) 0 rs ->
    total rs = Z.max 0 (expectedsz - size_at fs p) ->
    file_task os buf t p expectedsz fs
      None
      ([EvOpen p open_flags fd; EvFstat fd 0 (size_at fs p)]
         ++ write_events fd (expectedsz - size_at fs p) 0 rs
         ++ [EvClose fd])
      (append_at p (chunks buf rs) (touch p fs))
| FT_write_failed fd rs :
    os t <> Error -> openable fs p = true -> 0 <= fd ->
    os (S t) <> Error ->
    writes_ok os (S (S t)) (expectedsz - size_at fs p) 0 rs ->
    total rs < expectedsz - size_at fs p ->
    os (S (S t) + length rs)%nat = Error ->
    file_task os buf t p expectedsz fs
      (Some (Returned (-1)))
      ([EvOpen p open_flags fd; EvFstat fd 0 (size_at fs p)]
         ++ write_events fd (expectedsz - size_at fs p) 0 (rs ++ [-1])
         ++ [EvClose fd])
      (append_at p (chunks buf rs) (touch p fs))
| FT_write_zero fd rs :
    os t <> Error -> openable fs p = true -> 0 <= fd ->
    os (S t) <> Error ->
    writes_ok os (S (S t)) (expectedsz - size_at fs p) 0 rs ->
    total rs < expectedsz - size_at fs p ->
    os (S (S t) + length rs)%nat <> Error ->
    granted (os (S (S t) + length rs)%nat)
      (MIN (expectedsz - size_at fs p - total rs) sizeof_fsp_buf) = 0 ->
    file_task os buf t p expectedsz fs
      (Some Aborted)
      ([EvOpen p open_flags fd; EvFstat fd 0 (size_at fs p)]
         ++ write_events fd (expectedsz - size_at fs p) 0 (rs ++ [0]))
      (append_at p (chunks buf rs) (touch p fs)).

(** The directory step of an iteration. *)
Definition dir_events (fsp : fspopulate_t) (c : counters)
    (fs : gmap string node) : list event :=
  if bi c <? fsp_nsubdirs fsp
  then [mkdirp_event (subdir_path fsp (di c)) fs]
  else [].

Definition dir_step (fsp : fspopulate_t) (c : counters)
    (fs : gmap string node) : gmap string node :=
  if bi c <? fsp_nsubdirs fsp
  then make_dir (subdir_path fsp (di c)) fs
  else fs.

(** One iteration of the loop of [fspopulate] as a relation. *)
Inductive iteration (os : nat -> reply) (buf : Z -> Z) (fsp : fspopulate_t)
    (t : nat) (c : counters) (fs : gmap string node)
    : option status -> list event -> gmap string node -> Prop :=
| It_mkdir_failed :
    bi c < fsp_nsubdirs fsp -> os t = Error ->
    iteration os buf fsp t c fs
      (Some (Returned (-1)))
      [EvMkdirp (subdir_path fsp (di c)) (-1) EACCES] fs
| It_file o evs fs' :
    (bi c < fsp_nsubdirs fsp -> os t <> Error) ->
    file_task os buf (t + length (dir_events fsp c fs))%nat
      (task_path fsp c) (expected_size fsp c) (dir_step fsp c fs) o evs fs' ->
    iteration os buf fsp t c fs o (dir_events fsp c fs ++ evs) fs'.

(** The part of the loop body from [open] to the end, on its own. *)
Definition file_stage (fsp_buf : Z -> Z) (pathname : string) (expectedsz : Z)
    (w : world) : option status * world :=
  let '(fd, w) := open pathname open_flags w in
  if fd <? 0 then (Some (Returned (-1)), w) else
  let '(ret, st_size, w) := fstat fd w in
  if negb (ret =? 0) then (Some (Returned (-1)), close fd w) else
  let '(err, w) := populate_file fsp_buf fd (expectedsz - st_size) w in
  match err with
  | Returned 0 => (None, close fd w)
  | Returned _ => (Some (Returned (-1)), close fd w)
  | stopped => (Some stopped, w)
  end.

(** The loop of [fspopulate] as a relation: from time [t], counters [c]
    and tree [fs], with [fuel] iterations allowed, to the status, the
    system calls made, the final counters and the final tree. *)
Inductive run (os : nat -> reply) (buf : Z -> Z) (fsp : fspopulate_t)
    : nat -> nat -> counters -> gmap string node ->
      status -> list event -> counters -> gmap string node -> Prop :=
| Run_done fuel t c fs :
    fsp_totsize fsp <= totwritten c ->
    run os buf fsp fuel t c fs (Returned 0) [] c fs
| Run_out_of_fuel t c fs :
    totwritten c < fsp_totsize fsp ->
    run os buf fsp O t c fs OutOfFuel [] c fs
| Run_stop fuel t c fs s evs fs' :
    totwritten c < fsp_totsize fsp ->
    iteration os buf fsp t c fs (Some s) evs fs' ->
    run os buf fsp (S fuel) t c fs s evs c fs'
| Run_step fuel t c fs evs fs1 s evs' c' fs' :
    totwritten c < fsp_totsize fsp ->
    iteration os buf fsp t c fs None evs fs1 ->
    run os buf fsp fuel (t + length evs)%nat (advance fsp c) fs1 s evs' c' fs' ->
    run os buf fsp (S fuel) t c fs s (evs ++ evs') c' fs'.

(** An upper bound on the number of iterations left. *)
Definition remaining (fsp : fspopulate_t) (c : counters) : Z :=
  Z.max 0 (fsp_nbulk fsp - bi c)
  + (Z.max 0 (fsp_totsize fsp - totwritten c) + sizeof_fsp_buf - 1)
      / sizeof_fsp_buf.

(** Counters that the loop can reach from [start]. *)
Definition on_track (fsp : fspopulate_t) (c : counters) : Prop :=
  0 <= bi c /\ di c = bi c mod fsp_nsubdirs fsp /\
  0 <= totwritten c <= fsp_totsize fsp /\
  bi c + remaining fsp c <= max_files fsp.

(** Views of a history of system calls. *)
Definition mkdirs (evs : list event) : list string :=
  omap (fun e => match e with EvMkdirp p _ _ => Some p | _ => None end) evs.

Definition opens (evs : list event) : list string :=
  omap (fun e => match e with EvOpen p _ _ => Some p | _ => None end) evs.

Definition is_write (e : event) : bool :=
  match e with EvWrite _ _ _ => true | _ => false end.

Definition writes (evs : list event) : list event := filter is_write evs.

(** The bytes the [write] calls of a history transferred. *)
Definition bytes_written (evs : list event) : Z :=
  total ((fun e => match e with EvWrite _ _ r => Z.max 0 r | _ => 0 end) <$> evs).

(** A system call whose result the program treats as a failure. *)
Definition failed (e : event) : bool :=
  match e with
  | EvMkdirp _ ret errno => negb (ret =? 0) && negb (errno =? EEXIST)
  | EvOpen _ _ ret => ret <? 0
  | EvFstat _ ret _ => negb (ret =? 0)
  | EvWrite _ _ ret => ret =? -1
  | EvClose _ => false
  end.

Definition zero_write (e : event) : bool :=
  match e with EvWrite _ _ ret => ret =? 0 | _ => false end.

Definition sum_expected (fsp : fspopulate_t) (cs : list counters) : Z :=
  total (expected_size fsp <$> cs).

(** A system call after which the program carries on. *)
Definition clean (e : event) : bool := negb (failed e) && negb (zero_write e).

(** How the history of a run ends, for each way the run can end. *)
Inductive ending : status -> list event -> Prop :=
| End_ok : ending (Returned 0) []
| End_failed e : failed e = true -> ending (Returned (-1)) [e]
| End_failed_closed e fd :
    failed e = true -> ending (Returned (-1)) [e; EvClose fd]
| End_aborted fd n : ending Aborted [EvWrite fd n 0]
| End_out_of_fuel : ending OutOfFuel [].

(** [fs'] keeps everything [fs] has: directories stay, and the contents
    of a regular file are a prefix of its new contents. *)
Definition extends (fs fs' : gmap string node) : Prop :=
  forall p,
    match fs !! p with
    | Some Dir => fs' !! p = Some Dir
    | Some (Reg data) => exists extra, fs' !! p = Some (Reg (data ++ extra))
    | None => True
    end.

(** The bytes of the regular file at [p], none when there is no such file. *)
Definition content (fs : gmap string node) (p : string) : list Z :=
  match fs !! p with
  | Some (Reg data) => data
  | _ => []
  end.

(** What a run still has to add to the planned file [c] on the tree [fs]. *)
Definition shortfall (fsp : fspopulate_t) (fs : gmap string node)
    (c : counters) : Z :=
  Z.max 0 (expected_size fsp c - size_at fs (task_path fsp c)).

(** Every planned file is there with at least its expected size, and so
    are the root and the subdirectories the plan creates. *)
Definition settled (fsp : fspopulate_t) (fs : gmap string node) : Prop :=
  is_Some (fs !! fsp_path fsp) /\
  forall c, c ∈ plan fsp ->
    (bi c < fsp_nsubdirs fsp -> is_Some (fs !! subdir_path fsp (di c))) /\
    exists data,
      fs !! task_path fsp c = Some (Reg data) /\
      expected_size fsp c <= Z.of_nat (length data).

(** An environment in which no system call fails and no [write] returns 0. *)
Definition benign (os : nat -> reply) : Prop :=
  forall k, os k <> Error /\ os k <> Short 0.

(** No directory sits where a file of the tree goes, and no regular file
    where a subdirectory goes. *)
Definition tidy (fsp : fspopulate_t) (fs : gmap string node) : Prop :=
  (forall d b, 0 <= d -> 0 <= b -> fs !! file_path fsp d b <> Some Dir) /\
  (forall d data, 0 <= d -> fs !! subdir_path fsp d <> Some (Reg data)).

(** The first [k] subdirectories, as far as there are that many, exist. *)
Definition dirs_made (fsp : fspopulate_t) (k : Z) (fs : gmap string node)
    : Prop :=
  forall d, 0 <= d < Z.min k (fsp_nsubdirs fsp) ->
            fs !! subdir_path fsp d = Some Dir.

(** What a node looks like from outside: a directory, or a regular file
    of some length. *)
Definition node_shape (nd : node) : option nat :=
  match nd with
  | Dir => None
  | Reg data => Some (length data)
  end.

(** Two trees with the same paths, the same kinds of nodes and the same
    file sizes. *)
Definition same_shape (fs1 fs2 : gmap string node) : Prop :=
  forall q, node_shape <$> (fs1 !! q) = node_shape <$> (fs2 !! q).

(** Every [write] of the history transferred all it was asked for. *)
Definition full_writes (evs : list event) : Prop :=
  forall fd n r, EvWrite fd n r ∈ evs -> r = n.

(** A C string holds no NUL byte. *)
Fixpoint no_nul (s : string) : bool :=
  match s with
  | EmptyString => true
  | String c s => negb (Ascii.eqb c "000") && no_nul s
  end.

(** The endings [main] accepts after the number of its size argument,
    each with the power of 1024 it stands for. *)
Definition size_suffixes : list (Z * string) :=
  [(0, ""); (1, "k"); (1, "K"); (2, "m"); (2, "M");
   (3, "g"); (3, "G"); (4, "t"); (4, "T")].

(** A number in decimal, as written on the command line. *)
Definition decimal (n : Z) : string := render (digits_lsd 20 n).

(** [n] bytes read from the buffer round and round: what complete
    [write] calls put into a file. *)
Definition periodic (buf : Z -> Z) (n : Z) : list Z :=
  (fun k => buf (k mod sizeof_fsp_buf)) <$> seqZ 0 n.

(** No planned file is longer than planned. *)
Definition fits (fsp : fspopulate_t) (fs : gmap string node) : Prop :=
  forall c, c ∈ plan fsp ->
            size_at fs (task_path fsp c) <= expected_size fsp c.

(** [q] is the file of the iteration [c], a regular file in [fs], or the
    directory that iteration makes, a directory in [fs]. *)
Definition made (fsp : fspopulate_t) (c : counters) (fs : gmap string node)
    (q : string) : Prop :=
  (q = task_path fsp c /\ exists data, fs !! q = Some (Reg data)) \/
  (q = subdir_path fsp (di c) /\ bi c < fsp_nsubdirs fsp /\
   fs !! q = Some Dir).

(** The counters [main]'s policy leads to: file [i] of the bulk files
    when each has [b] bytes, and file [j] of the files that follow. *)
Definition bulk_entry (b i : Z) : counters :=
  {| totwritten := i * b; di := i mod 256; bi := i |}.

Definition standard_entry (b j : Z) : counters :=
  {| totwritten := 768 * b + j * 10485760; di := j mod 256; bi := 768 + j |}.

(** In the history [evs], which follows [mkdirp] calls on the paths
    [seen], every path given to [open] lies directly in a directory that
    was given to [mkdirp] before. *)
Fixpoint dirs_first (seen : list string) (evs : list event) : Prop :=
  match evs with
  | [] => True
  | EvMkdirp p _ _ :: evs => dirs_first (p :: seen) evs
  | EvOpen p _ _ :: evs =>
      (exists d, d ∈ seen /\ dirname p = Some d) /\ dirs_first seen evs
  | _ :: evs => dirs_first seen evs
  end.

(** ** Strings *)

Lemma string_app_nil (b : string) : "" +:+ b = b.
Proof. reflexivity. Qed.

Lemma string_app_cons (c : ascii) (a b : string) :
  String c a +:+ b = String c (a +:+ b).
Proof. reflexivity. Qed.

Lemma string_length_app (a b : string) :
  String.length (a +:+ b) = (String.length a + String.length b)%nat.
Proof.
  induction a as [|c a IH]; [done|].
  rewrite string_app_cons. simpl. by rewrite IH.
Qed.

Lemma string_app_empty_r (a : string) : a +:+ "" = a.
Proof.
  induction a as [|c a IH]; [done|]. by rewrite string_app_cons, IH.
Qed.

Lemma string_take_all (n : nat) (s : string) :
  (String.length s <= n)%nat -> string_take n s = s.
Proof.
  revert n; induction s as [|c s IH]; intros [|n] Hn; simpl in *; try done; try lia.
  rewrite IH; [done|lia].
Qed.

Lemma snprintf_fits (size : Z) (s : string) :
  Z.of_nat (String.length s) < size -> snprintf size s = s.
Proof. intros H. unfold snprintf. apply string_take_all. lia. Qed.

Lemma string_of_list_ascii_length (l : list ascii) :
  String.length (string_of_list_ascii l) = length l.
Proof. induction l as [|c l IH]; simpl; [done|]. by rewrite IH. Qed.

Lemma dirname_app (a b : string) :
  dirname (a +:+ b) =
    match dirname b with
    | Some d => Some (a +:+ d)
    | None => dirname a
    end.
Proof.
  induction a as [|c a IH].
  - rewrite string_app_nil. by destruct (dirname b).
  - rewrite string_app_cons. simpl. rewrite IH.
    destruct (dirname b); [done|]. by destruct (dirname a).
Qed.

(** ** Decimal formatting *)

Arguments digit_char : simpl never.

Lemma digits_lsd_length (fuel : nat) (n : Z) :
  (length (digits_lsd fuel n) <= fuel)%nat.
Proof.
  revert n; induction fuel as [|fuel IH]; intros n; simpl; [done|].
  destruct (n <? 10); simpl; [lia|]. specialize (IH (n / 10)). lia.
Qed.

Lemma digits_lsd_range (fuel : nat) (n : Z) :
  Forall (fun d => 0 <= d < 10) (digits_lsd fuel n).
Proof.
  revert n; induction fuel as [|fuel IH]; intros n; simpl; [done|].
  constructor; [apply Z.mod_pos_bound; lia|].
  destruct (n <? 10); [done|apply IH].
Qed.

Lemma digits_lsd_value (fuel : nat) (n : Z) :
  0 <= n < 10 ^ Z.of_nat fuel -> value_lsd (digits_lsd fuel n) = n.
Proof.
  revert n; induction fuel as [|fuel IH]; intros n Hn.
  - simpl in *. lia.
  - cbn [digits_lsd value_lsd]. destruct (Z.ltb_spec n 10) as [Hlt|Hge].
    + simpl. rewrite Z.mod_small by lia. lia.
    + rewrite IH; [pose proof (Z.div_mod n 10); lia|].
      rewrite Nat2Z.inj_succ, Z.pow_succ_r in Hn by lia.
      split; [apply Z.div_pos; lia|apply Z.div_lt_upper_bound; lia].
Qed.

Lemma value_lsd_app_zeros (ds : list Z) (k : nat) :
  value_lsd (ds ++ replicate k 0) = value_lsd ds.
Proof.
  induction ds as [|d ds IH]; simpl.
  - induction k as [|k IHk]; simpl; lia.
  - rewrite IH. done.
Qed.

Lemma zero_pad_range (width : nat) (ds : list Z) :
  Forall (fun d => 0 <= d < 10) ds ->
  Forall (fun d => 0 <= d < 10) (zero_pad width ds).
Proof.
  intros H. unfold zero_pad. apply Forall_app; split; [done|].
  apply Forall_replicate. lia.
Qed.

Lemma zero_pad_length (width : nat) (ds : list Z) :
  length (zero_pad width ds) = Nat.max width (length ds).
Proof. unfold zero_pad. rewrite length_app, length_replicate. lia. Qed.

Lemma digit_char_inj (d1 d2 : Z) :
  0 <= d1 < 10 -> 0 <= d2 < 10 -> digit_char d1 = digit_char d2 -> d1 = d2.
Proof.
  intros H1 H2 H. unfold digit_char in H.
  apply (f_equal nat_of_ascii) in H.
  rewrite !nat_ascii_embedding in H by lia. lia.
Qed.

Lemma digit_char_not_slash (d : Z) : 0 <= d < 10 -> digit_char d <> slash.
Proof.
  intros Hd H. unfold digit_char in H.
  apply (f_equal nat_of_ascii) in H.
  rewrite nat_ascii_embedding in H by lia.
  change (nat_of_ascii slash) with 47%nat in H. lia.
Qed.

Lemma render_inj (ds1 ds2 : list Z) :
  Forall (fun d => 0 <= d < 10) ds1 -> Forall (fun d => 0 <= d < 10) ds2 ->
  render ds1 = render ds2 -> ds1 = ds2.
Proof.
  unfold render. intros H1 H2 H.
  apply (f_equal list_ascii_of_string) in H.
  rewrite !list_ascii_of_string_of_list_ascii in H.
  apply (inj reverse).
  apply Forall_reverse in H1, H2.
  revert H1 H2 H. generalize (reverse ds1) (reverse ds2).
  induction l as [|d l IH]; intros [|d' l'] Hl Hl' Heq; simplify_eq/=; [done|].
  inversion Hl; inversion Hl'; subst.
  f_equal; [by apply digit_char_inj|by apply IH].
Qed.

Lemma render_length (ds : list Z) : String.length (render ds) = length ds.
Proof.
  unfold render.
  by rewrite string_of_list_ascii_length, length_fmap, length_reverse.
Qed.

Lemma render_no_slash (ds : list Z) :
  Forall (fun d => 0 <= d < 10) ds -> dirname (render ds) = None.
Proof.
  unfold render. intros H. apply Forall_reverse in H.
  revert H. generalize (reverse ds).
  induction l as [|d l IH]; intros Hl; [done|].
  inversion Hl; subst.
  change (dirname (String (digit_char d)
                     (string_of_list_ascii (digit_char <$> l))) = None).
  cbn [dirname]. rewrite IH by done.
  destruct (Ascii.eqb_spec (digit_char d) slash) as [E|]; [|done].
  by apply digit_char_not_slash in E.
Qed.

Lemma fmt_06d_nonneg (n : Z) :
  0 <= n -> fmt_06d n = render (zero_pad 6 (digits_lsd 10 n)).
Proof. intros H. unfold fmt_06d. by rewrite (proj2 (Z.ltb_ge n 0)). Qed.

Lemma fmt_06d_inj (n m : Z) :
  0 <= n < 10 ^ 10 -> 0 <= m < 10 ^ 10 -> fmt_06d n = fmt_06d m -> n = m.
Proof.
  intros Hn Hm H. rewrite !fmt_06d_nonneg in H by lia.
  apply render_inj in H; try (apply zero_pad_range, digits_lsd_range).
  apply (f_equal value_lsd) in H. unfold zero_pad in H.
  rewrite !value_lsd_app_zeros, !digits_lsd_value in H; done.
Qed.

Lemma fmt_06d_length (n : Z) :
  0 <= n -> (6 <= String.length (fmt_06d n) <= 10)%nat.
Proof.
  intros H. rewrite fmt_06d_nonneg by done.
  rewrite render_length, zero_pad_length.
  pose proof (digits_lsd_length 10 n). lia.
Qed.

Lemma fmt_06d_no_slash (n : Z) : 0 <= n -> dirname (fmt_06d n) = None.
Proof.
  intros H. rewrite fmt_06d_nonneg by done.
  apply render_no_slash, zero_pad_range, digits_lsd_range.
Qed.

(** ** System calls *)

Lemma store_at_end (bytes data : list Z) :
  store_at (Z.to_nat (Z.of_nat (length data))) bytes data = data ++ bytes.
Proof.
  unfold store_at. rewrite Nat2Z.id, take_ge, Nat.sub_diag, drop_ge by lia.
  simpl. by rewrite app_nil_r.
Qed.

Lemma granted_range (r : reply) (n : Z) : 0 < n -> 0 <= granted r n <= n.
Proof.
  intros Hn. destruct r as [| |k]; simpl; try lia.
  destruct (Z.leb_spec 0 k), (Z.ltb_spec k n); simpl; lia.
Qed.

Lemma MIN_spec (a b : Z) : MIN a b = Z.min a b.
Proof. unfold MIN. destruct (Z.ltb_spec a b); lia. Qed.

Lemma chunks_cons (buf : Z -> Z) (r : Z) (rs : list Z) :
  chunks buf (r :: rs) = (buf <$> seqZ 0 r) ++ chunks buf rs.
Proof. reflexivity. Qed.

Lemma chunks_app (buf : Z -> Z) (rs1 rs2 : list Z) :
  chunks buf (rs1 ++ rs2) = chunks buf rs1 ++ chunks buf rs2.
Proof. unfold chunks. by rewrite fmap_app, concat_app. Qed.

Lemma total_app (rs1 rs2 : list Z) : total (rs1 ++ rs2) = total rs1 + total rs2.
Proof. induction rs1 as [|r rs1 IH]; simpl; [done|]. unfold total in *. simpl. lia. Qed.

Lemma chunks_length (buf : Z -> Z) (rs : list Z) :
  Forall (fun r => 0 <= r) rs -> Z.of_nat (length (chunks buf rs)) = total rs.
Proof.
  induction 1 as [|r rs Hr _ IH]; [done|].
  rewrite chunks_cons, length_app, length_fmap, length_seqZ.
  unfold total in *. simpl. lia.
Qed.

Lemma writes_ok_pos (os : nat -> reply) (rs : list Z) :
  forall t nbytes nwritten,
    writes_ok os t nbytes nwritten rs -> Forall (fun r => 0 < r) rs.
Proof.
  induction rs as [|r rs IH]; intros t nbytes nwritten H; [done|].
  destruct H as (_ & _ & _ & Hr & H). constructor; [done|]. by eapply IH.
Qed.

(** A [write] on a descriptor opened for appending. *)
Lemma write_append (fd : Z) (buf : Z -> Z) (n : Z) (w : world) (e : ofile)
    (data : list Z) :
  w_fdtab w !! fd = Some e -> of_append e = true -> of_writable e = true ->
  w_fs w !! of_path e = Some (Reg data) ->
  w_os w (tick w) <> Error ->
  exists e',
    of_path e' = of_path e /\ of_append e' = true /\ of_writable e' = true /\
    write fd buf n w =
      (granted (w_os w (tick w)) n,
       record (EvWrite fd n (granted (w_os w (tick w)) n))
         (<[of_path e :=
              Reg (data ++ (buf <$> seqZ 0 (granted (w_os w (tick w)) n)))]>
            (w_fs w))
         (<[fd := e']> (w_fdtab w)) w).
Proof.
  intros Hfd Happ Hwr Hfs Hos. unfold write. rewrite Hfd, Hfs, Hwr, Happ.
  rewrite store_at_end.
  exists {| of_path := of_path e; of_append := true; of_writable := true;
            of_offset :=
              Z.of_nat (length data) + granted (w_os w (tick w)) n |}.
  split_and!; try reflexivity.
  destruct (w_os w (tick w)); rewrite ?store_at_end; done.
Qed.

Lemma write_error (fd : Z) (buf : Z -> Z) (n : Z) (w : world) :
  w_os w (tick w) = Error ->
  write fd buf n w =
    (-1, record (EvWrite fd n (-1)) (w_fs w) (w_fdtab w) w).
Proof. intros Hos. unfold write. by rewrite Hos. Qed.

(** ** [populate_file] *)

Lemma populate_file_loop_spec (buf : Z -> Z) (fd nbytes : Z) (fuel : nat) :
  forall (nwritten : Z) (w : world) (e : ofile) (data : list Z)
         (s : status) (w' : world),
    w_fdtab w !! fd = Some e -> of_append e = true -> of_writable e = true ->
    w_fs w !! of_path e = Some (Reg data) ->
    (Z.to_nat (nbytes - nwritten) <= fuel)%nat ->
    populate_file_loop fuel buf fd nbytes nwritten w = (s, w') ->
    exists rs,
      writes_ok (w_os w) (tick w) nbytes nwritten rs /\
      w_os w' = w_os w /\
      w_fs w' = <[of_path e := Reg (data ++ chunks buf rs)]> (w_fs w) /\
      ((s = Returned 0 /\
        ((nbytes <= nwritten /\ rs = []) \/
         (nwritten < nbytes /\ nwritten + total rs = nbytes)) /\
        w_trace w' = rev (write_events fd nbytes nwritten rs) ++ w_trace w)
       \/
       (s = Returned (-1) /\ nwritten + total rs < nbytes /\
        w_os w (tick w + length rs)%nat = Error /\
        w_trace w' =
          rev (write_events fd nbytes nwritten (rs ++ [-1])) ++ w_trace w)
       \/
       (s = Aborted /\ nwritten + total rs < nbytes /\
        w_os w (tick w + length rs)%nat <> Error /\
        granted (w_os w (tick w + length rs)%nat)
          (MIN (nbytes - (nwritten + total rs)) sizeof_fsp_buf) = 0 /\
        w_trace w' =
          rev (write_events fd nbytes nwritten (rs ++ [0])) ++ w_trace w)).
Proof.
  induction fuel as [|fuel IH];
    intros nwritten w e data s w' Hfd Happ Hwr Hfs Hfuel Hrun.
  - simpl in Hrun. destruct (Z.ltb_spec nwritten nbytes) as [Hlt|Hge]; [lia|].
    simplify_eq. exists []. split_and!; [done|done| |].
    + rewrite app_nil_r. by rewrite insert_id.
    + left. split_and!; [done|left; done|done].
  - simpl in Hrun. destruct (Z.ltb_spec nwritten nbytes) as [Hlt|Hge].
    2:{ simplify_eq. exists []. split_and!; [done|done| |].
        + rewrite app_nil_r. by rewrite insert_id.
        + left. split_and!; [done|left; done|done]. }
    set (n := MIN (nbytes - nwritten) sizeof_fsp_buf) in *.
    assert (Hn : 0 < n <= nbytes - nwritten).
    { subst n. rewrite MIN_spec. unfold sizeof_fsp_buf. lia. }
    destruct (decide (w_os w (tick w) = Error)) as [Hos|Hos].
    + rewrite (write_error _ _ _ _ Hos) in Hrun. simpl in Hrun. simplify_eq.
      exists []. split_and!; [done|done| |].
      * rewrite app_nil_r. by rewrite insert_id.
      * right; left. simpl. rewrite Nat.add_0_r, Z.add_0_r.
        split_and!; done.
    + destruct (write_append fd buf n w e data Hfd Happ Hwr Hfs Hos)
        as (e' & Hp' & Ha' & Hw' & Heq).
      rewrite Heq in Hrun. clear Heq.
      pose proof (granted_range (w_os w (tick w)) n ltac:(lia)) as Hg.
      set (r := granted (w_os w (tick w)) n) in *.
      destruct (Z.eqb_spec r 0) as [Hr0|Hr0].
      * simplify_eq. exists []. split_and!; [done|done| |].
        -- simpl. rewrite Hr0, seqZ_nil by lia. done.
        -- right; right. simpl. rewrite Nat.add_0_r, Z.add_0_r.
           split_and!; try done. fold n. by rewrite Hr0.
      * destruct (Z.eqb_spec r (-1)) as [Hr1|_]; [lia|].
        eapply (IH _ _ e' (data ++ (buf <$> seqZ 0 r))) in Hrun;
          [|by simpl; rewrite lookup_insert_eq|done|done
           |by simpl; rewrite Hp', lookup_insert_eq|lia].
        destruct Hrun as (rs & Hok & Hos' & Hfs' & Hcases).
        exists (r :: rs). simpl in Hok, Hos', Hfs', Hcases.
        split_and!.
        -- simpl. split_and!; try done. lia.
        -- done.
        -- rewrite Hfs', Hp', insert_insert_eq, chunks_cons. by rewrite app_assoc.
        -- unfold tick in Hcases. simpl in Hcases. fold (tick w) in Hcases.
           unfold total; simpl; fold (total rs).
           destruct Hcases as [(-> & Hsum & Htr)|[(-> & Hsum & Herr & Htr)
                                                 |(-> & Hsum & Hne & Hz & Htr)]].
           ++ left. split_and!; [done| |].
              ** right. split; [done|]. destruct Hsum as [[? ->]|[? ?]]; simpl; lia.
              ** rewrite Htr. simpl. fold n. by rewrite <- app_assoc.
           ++ right; left. split_and!; [done|lia| |].
              ** by rewrite <- Nat.add_succ_comm.
              ** rewrite Htr. simpl. fold n. by rewrite <- app_assoc.
           ++ right; right. split_and!; [done|lia| | |].
              ** by rewrite <- Nat.add_succ_comm.
              ** rewrite <- Nat.add_succ_comm.
                 by replace (nbytes - (nwritten + (r + total rs)))
                   with (nbytes - (nwritten + r + total rs)) by lia.
              ** rewrite Htr. simpl. fold n. by rewrite <- app_assoc.
Qed.

(** ** [open] and [fstat] *)

Lemma open_fails (p : string) (w : world) :
  w_os w (tick w) = Error \/ openable (w_fs w) p = false ->
  open p open_flags w =
    (-1, record (EvOpen p open_flags (-1)) (w_fs w) (w_fdtab w) w).
Proof.
  intros H. unfold open, openable in *.
  destruct (w_os w (tick w)) eqn:Hos; try done;
    destruct H as [H|H]; try done;
    destruct (w_fs w !! p) as [[|data]|]; try done;
    by rewrite H, andb_false_r.
Qed.

Lemma open_succeeds (p : string) (w : world) :
  w_os w (tick w) <> Error -> openable (w_fs w) p = true ->
  exists fd e,
    0 <= fd /\ of_path e = p /\ of_append e = true /\ of_writable e = true /\
    open p open_flags w =
      (fd, record (EvOpen p open_flags fd) (touch p (w_fs w))
             (<[fd := e]> (w_fdtab w)) w).
Proof.
  intros Hos H.
  exists (alloc_fd (w_fdtab w)),
    {| of_path := p; of_append := true; of_writable := true; of_offset := 0 |}.
  split_and!; try done; [unfold alloc_fd; lia|].
  unfold open, openable, touch in *.
  destruct (w_os w (tick w)) eqn:Hos'; try done;
    destruct (w_fs w !! p) as [[|data]|]; try done; by rewrite ?H.
Qed.

Lemma touch_lookup (p : string) (fs : gmap string node) :
  openable fs p = true ->
  exists data,
    touch p fs !! p = Some (Reg data) /\
    size_at fs p = Z.of_nat (length data).
Proof.
  unfold openable, touch, size_at.
  destruct (fs !! p) as [[|data]|] eqn:E; intros H; try done.
  - exists data. by rewrite E.
  - exists []. by rewrite lookup_insert_eq.
Qed.

Lemma fstat_spec (fd : Z) (w : world) (e : ofile) (data : list Z) :
  w_fdtab w !! fd = Some e -> w_fs w !! of_path e = Some (Reg data) ->
  fstat fd w =
    if decide (w_os w (tick w) = Error)
    then (-1, 0, record (EvFstat fd (-1) 0) (w_fs w) (w_fdtab w) w)
    else (0, Z.of_nat (length data),
          record (EvFstat fd 0 (Z.of_nat (length data)))
            (w_fs w) (w_fdtab w) w).
Proof.
  intros Hfd Hfs. unfold fstat. rewrite Hfd, Hfs.
  destruct (w_os w (tick w)); by case_decide.
Qed.

Lemma append_at_touch (p : string) (fs : gmap string node)
    (data extra : list Z) :
  touch p fs !! p = Some (Reg data) ->
  append_at p extra (touch p fs) = <[p := Reg (data ++ extra)]> (touch p fs).
Proof. intros H. unfold append_at. by rewrite H. Qed.

(** ** One file, from [open] to [close] *)

Lemma file_stage_spec (buf : Z -> Z) (p : string) (expectedsz : Z)
    (w : world) (o : option status) (w' : world) :
  file_stage buf p expectedsz w = (o, w') ->
  exists evs,
    file_task (w_os w) buf (tick w) p expectedsz (w_fs w) o evs (w_fs w') /\
    w_trace w' = rev evs ++ w_trace w /\ w_os w' = w_os w.
Proof.
  unfold file_stage. intros Hrun.
  destruct (decide (w_os w (tick w) = Error \/ openable (w_fs w) p = false))
    as [Hfail|Hok].
  { rewrite open_fails in Hrun by done. simpl in Hrun. simplify_eq.
    eexists. split; [by apply FT_open_failed|done]. }
  assert (Hos : w_os w (tick w) <> Error) by tauto.
  assert (Hop : openable (w_fs w) p = true).
  { destruct (openable (w_fs w) p); tauto. }
  destruct (open_succeeds p w Hos Hop)
    as (fd & e & Hfd & Hpath & Happ & Hwr & Hopen).
  rewrite Hopen in Hrun. clear Hopen.
  destruct (Z.ltb_spec fd 0) as [|_]; [lia|].
  destruct (touch_lookup p (w_fs w) Hop) as (data & Hdata & Hsz).
  set (w1 := record _ _ _ w) in *.
  assert (Hfd1 : w_fdtab w1 !! fd = Some e) by (simpl; apply lookup_insert_eq).
  assert (Hfs1 : w_fs w1 !! of_path e = Some (Reg data)) by (by rewrite Hpath).
  rewrite (fstat_spec fd w1 e data Hfd1 Hfs1) in Hrun.
  change (tick w1) with (S (tick w)) in Hrun.
  change (w_os w1) with (w_os w) in Hrun.
  case_decide as Hos1.
  { simpl in Hrun. simplify_eq.
    eexists. split; [by apply (FT_fstat_failed _ _ _ _ _ _ fd)|done]. }
  simpl negb in Hrun. cbv iota in Hrun.
  set (w2 := record _ _ _ w1) in *.
  destruct (populate_file buf fd (expectedsz - Z.of_nat (length data)) w2)
    as [err w3] eqn:Hpop.
  unfold populate_file in Hpop.
  eapply (populate_file_loop_spec _ _ _ _ _ _ e data) in Hpop;
    [|done|done|done|done|lia].
  destruct Hpop as (rs & Hwok & Hos3 & Hfs3 & Hcases).
  change (w_os w2) with (w_os w) in *.
  change (tick w2) with (S (S (tick w))) in *.
  change (w_fs w2) with (touch p (w_fs w)) in *.
  change (w_trace w2) with
    (EvFstat fd 0 (Z.of_nat (length data))
       :: EvOpen p open_flags fd :: w_trace w) in *.
  rewrite Hpath, <- (append_at_touch _ _ _ _ Hdata) in Hfs3.
  rewrite <- Hsz in *. clear Hsz.
  destruct Hcases as [(-> & Hsum & Htr)|[(-> & Hsum & Herr & Htr)
                                        |(-> & Hsum & Hne & Hz & Htr)]];
    simplify_eq; eexists;
    (split; [cbn [close record w_fs]; rewrite Hfs3|split; [|done]]).
  - apply (FT_filled _ _ _ _ _ _ fd rs); try done.
    destruct Hsum as [[? ->]|[? ?]]; simpl in *; lia.
  - simpl. rewrite Htr. rewrite !rev_app_distr. simpl.
    by rewrite <- !app_assoc.
  - apply (FT_write_failed _ _ _ _ _ _ fd rs); try done; try lia.
  - simpl. rewrite Htr. rewrite !rev_app_distr. simpl.
    by rewrite <- !app_assoc.
  - rewrite Z.add_0_l in Hz.
    apply (FT_write_zero _ _ _ _ _ _ fd rs); try done; try lia.
  - rewrite Htr. rewrite !rev_app_distr. simpl.
    by rewrite <- !app_assoc.
Qed.

(** ** One iteration, and the whole loop *)

Lemma mkdirp_error (p : string) (w : world) :
  w_os w (tick w) = Error ->
  mkdirp p w =
    (-1, EACCES, record (EvMkdirp p (-1) EACCES) (w_fs w) (w_fdtab w) w).
Proof. intros H. unfold mkdirp. by rewrite H. Qed.

Lemma mkdirp_no_error (p : string) (w : world) :
  w_os w (tick w) <> Error ->
  exists ret errno,
    (ret = 0 \/ (ret = -1 /\ errno = EEXIST)) /\
    mkdirp p w =
      (ret, errno,
       record (mkdirp_event p (w_fs w)) (make_dir p (w_fs w)) (w_fdtab w) w).
Proof.
  intros H. unfold mkdirp, mkdirp_event, make_dir.
  destruct (w_os w (tick w)); try done;
    destruct (w_fs w !! p); eauto 10.
Qed.

Lemma fspopulate_body_iteration (buf : Z -> Z) (fsp : fspopulate_t)
    (c : counters) (w : world) (o : option status) (w' : world) :
  fsp_nsubdirs fsp <> 0 ->
  fspopulate_body buf fsp c w = (o, w') ->
  exists evs,
    iteration (w_os w) buf fsp (tick w) c (w_fs w) o evs (w_fs w') /\
    w_trace w' = rev evs ++ w_trace w /\ w_os w' = w_os w.
Proof.
  intros Hn Hrun. unfold fspopulate_body in Hrun.
  assert (Hn0 : (fsp_nsubdirs fsp =? 0) = false) by (by apply Z.eqb_neq).
  destruct (Z.ltb_spec (bi c) (fsp_nsubdirs fsp)) as [Hb|Hb].
  - destruct (decide (w_os w (tick w) = Error)) as [Hos|Hos].
    + rewrite mkdirp_error in Hrun by done. simpl in Hrun. simplify_eq.
      eexists. split; [by apply It_mkdir_failed|done].
    + destruct (mkdirp_no_error (subdir_path fsp (di c)) w Hos)
        as (ret & errno & Hret & Hmk).
      rewrite Hmk in Hrun. clear Hmk.
      assert (((ret =? -1) && negb (errno =? EEXIST)) = false) as Hgo.
      { destruct Hret as [->|[-> ->]]; done. }
      rewrite Hgo, Hn0 in Hrun.
      apply file_stage_spec in Hrun. destruct Hrun as (evs & Hft & Htr & Hos').
      exists (dir_events fsp c (w_fs w) ++ evs).
      assert (Hde : dir_events fsp c (w_fs w)
                    = [mkdirp_event (subdir_path fsp (di c)) (w_fs w)]).
      { unfold dir_events. by rewrite (proj2 (Z.ltb_lt _ _) Hb). }
      split; [|split; [|done]].
      * apply It_file; [done|]. rewrite Hde. simpl length.
        rewrite Nat.add_1_r. unfold dir_step.
        by rewrite (proj2 (Z.ltb_lt _ _) Hb).
      * rewrite Htr, Hde. simpl. by rewrite <- app_assoc.
  - rewrite Hn0 in Hrun.
    apply file_stage_spec in Hrun. destruct Hrun as (evs & Hft & Htr & Hos').
    exists (dir_events fsp c (w_fs w) ++ evs).
    assert (Hde : dir_events fsp c (w_fs w) = []).
    { unfold dir_events. by rewrite (proj2 (Z.ltb_ge _ _) Hb). }
    split; [|split; [|done]].
    + apply It_file; [lia|]. rewrite Hde. simpl length.
      rewrite Nat.add_0_r. unfold dir_step.
      by rewrite (proj2 (Z.ltb_ge _ _) Hb).
    + by rewrite Htr, Hde.
Qed.

Lemma fspopulate_loop_run (buf : Z -> Z) (fsp : fspopulate_t) (fuel : nat) :
  fsp_nsubdirs fsp <> 0 ->
  forall (c : counters) (w : world) (s : status) (c' : counters) (w' : world),
    fspopulate_loop fuel buf fsp c w = (s, c', w') ->
    exists evs,
      run (w_os w) buf fsp fuel (tick w) c (w_fs w) s evs c' (w_fs w') /\
      w_trace w' = rev evs ++ w_trace w /\ w_os w' = w_os w.
Proof.
  intros Hn. induction fuel as [|fuel IH]; intros c w s c' w' Hrun.
  - simpl in Hrun.
    destruct (Z.ltb_spec (totwritten c) (fsp_totsize fsp)); simplify_eq;
      exists []; split; try done; by constructor.
  - simpl in Hrun.
    destruct (Z.ltb_spec (totwritten c) (fsp_totsize fsp)) as [Hlt|Hge].
    2:{ simplify_eq. exists []; split; try done; by constructor. }
    destruct (fspopulate_body buf fsp c w) as [[st|] w1] eqn:Hbody;
      apply fspopulate_body_iteration in Hbody; try done;
      destruct Hbody as (evs & Hit & Htr & Hos).
    + simplify_eq. exists evs. split; [|done]. by apply Run_stop.
    + apply IH in Hrun. destruct Hrun as (evs' & Hr & Htr' & Hos').
      exists (evs ++ evs'). split; [|split].
      * eapply Run_step; [done|done|].
        assert (tick w1 = (tick w + length evs)%nat) as <-.
        { unfold tick. rewrite Htr, length_app, length_rev. lia. }
        by rewrite <- Hos.
      * by rewrite Htr', Htr, rev_app_distr, <- app_assoc.
      * congruence.
Qed.

Lemma fspopulate_run (buf : Z -> Z) (fsp : fspopulate_t) (w : world)
    (s : status) (w' : world) :
  fsp_dryrun fsp = false -> fsp_nsubdirs fsp <> 0 ->
  fspopulate buf fsp w = (s, w') ->
  w_os w' = w_os w /\
  ((w_os w (tick w) = Error /\ s = Returned (-1) /\ w_fs w' = w_fs w /\
    w_trace w' = EvMkdirp (fsp_path fsp) (-1) EACCES :: w_trace w)
   \/
   (w_os w (tick w) <> Error /\
    exists evs c',
      run (w_os w) buf fsp (Z.to_nat (max_files fsp)) (S (tick w)) start
        (make_dir (fsp_path fsp) (w_fs w)) s evs c' (w_fs w') /\
      w_trace w' =
        rev (mkdirp_event (fsp_path fsp) (w_fs w) :: evs) ++ w_trace w)).
Proof.
  intros Hdry Hn Hrun. unfold fspopulate in Hrun. rewrite Hdry in Hrun.
  destruct (decide (w_os w (tick w) = Error)) as [Hos|Hos].
  - rewrite mkdirp_error in Hrun by done. simpl in Hrun. simplify_eq.
    split; [done|]. left. done.
  - destruct (mkdirp_no_error (fsp_path fsp) w Hos)
      as (ret & errno & Hret & Hmk).
    rewrite Hmk in Hrun. clear Hmk.
    assert ((negb (ret =? 0) && negb (errno =? EEXIST)) = false) as Hgo.
    { destruct Hret as [->|[-> ->]]; done. }
    rewrite Hgo in Hrun.
    destruct (fspopulate_loop _ _ _ _ _) as [[s1 c1] w1] eqn:Hloop.
    simplify_eq.
    apply fspopulate_loop_run in Hloop; [|done].
    destruct Hloop as (evs & Hr & Htr & Hos').
    split; [done|]. right. split; [done|]. exists evs, c1. split; [done|].
    rewrite Htr. simpl. by rewrite <- app_assoc.
Qed.

(** ** The counters *)

Lemma to_int_small (x : Z) : 0 <= x <= INT_MAX -> to_int x = x.
Proof.
  unfold to_int, wrap_signed, INT_MAX. intros H.
  rewrite Z.mod_small; lia.
Qed.

Lemma to_off_t_small (x : Z) : 0 <= x < 2 ^ 63 -> to_off_t x = x.
Proof.
  unfold to_off_t, wrap_signed. intros H.
  change (2 ^ (64 - 1)) with (2 ^ 63).
  rewrite Z.mod_small; lia.
Qed.

Lemma nominal_size_nonneg (fsp : fspopulate_t) (b : Z) :
  0 <= fsp_bulksize fsp -> 0 <= nominal_size fsp b.
Proof. intros H. unfold nominal_size. destruct (b <? fsp_nbulk fsp); lia. Qed.

Lemma expected_size_bounds (fsp : fspopulate_t) (c : counters) :
  0 <= fsp_bulksize fsp -> totwritten c < fsp_totsize fsp ->
  0 <= expected_size fsp c <= fsp_totsize fsp - totwritten c.
Proof.
  intros Hb Hlt. unfold expected_size. rewrite MIN_spec.
  pose proof (nominal_size_nonneg fsp (bi c) Hb). lia.
Qed.

Lemma remaining_advance (fsp : fspopulate_t) (c : counters) :
  0 <= fsp_bulksize fsp -> 0 <= bi c -> bi c + 1 <= INT_MAX ->
  totwritten c < fsp_totsize fsp ->
  remaining fsp (advance fsp c) + 1 <= remaining fsp c.
Proof.
  intros Hb Hbi Hmax Hlt. unfold remaining, advance. simpl.
  rewrite to_int_small by lia.
  pose proof (expected_size_bounds fsp c Hb Hlt) as He.
  set (e := expected_size fsp c) in *.
  set (r := fsp_totsize fsp - totwritten c) in *.
  replace (fsp_totsize fsp - (totwritten c + e)) with (r - e) by (subst r; lia).
  assert (HM : 0 < sizeof_fsp_buf) by done.
  assert (Hr : 0 < r) by (subst r; lia).
  rewrite (Z.max_r 0 r) by lia.
  destruct (Z.lt_ge_cases (bi c) (fsp_nbulk fsp)) as [Hbulk|Hstd].
  - assert ((Z.max 0 (r - e) + sizeof_fsp_buf - 1) / sizeof_fsp_buf
            <= (r + sizeof_fsp_buf - 1) / sizeof_fsp_buf).
    { apply Z.div_le_mono; lia. }
    lia.
  - assert (He' : e = Z.min sizeof_fsp_buf r).
    { subst e. unfold expected_size, nominal_size.
      rewrite (proj2 (Z.ltb_ge _ _) Hstd), MIN_spec. done. }
    rewrite (Z.max_l 0 (fsp_nbulk fsp - (bi c + 1))) by lia.
    rewrite (Z.max_l 0 (fsp_nbulk fsp - bi c)) by lia.
    destruct (Z.le_gt_cases r sizeof_fsp_buf) as [Hle|Hgt].
    + replace (r - e) with 0 by lia.
      assert (1 <= (r + sizeof_fsp_buf - 1) / sizeof_fsp_buf).
      { apply Z.div_le_lower_bound; lia. }
      assert ((Z.max 0 0 + sizeof_fsp_buf - 1) / sizeof_fsp_buf = 0).
      { apply Z.div_small. lia. }
      lia.
    + replace (r - e) with (r - sizeof_fsp_buf) by lia.
      rewrite (Z.max_r 0 (r - sizeof_fsp_buf)) by lia.
      replace (r - sizeof_fsp_buf + sizeof_fsp_buf - 1)
        with (r + sizeof_fsp_buf - 1 + (-1) * sizeof_fsp_buf) by lia.
      rewrite Z.div_add by lia. lia.
Qed.

Lemma remaining_pos (fsp : fspopulate_t) (c : counters) :
  totwritten c < fsp_totsize fsp -> 1 <= remaining fsp c.
Proof.
  intros Hlt. unfold remaining.
  assert (1 <= (Z.max 0 (fsp_totsize fsp - totwritten c) + sizeof_fsp_buf - 1)
               / sizeof_fsp_buf).
  { apply Z.div_le_lower_bound; [done|]. lia. }
  lia.
Qed.

Lemma on_track_start (fsp : fspopulate_t) :
  valid_config fsp -> on_track fsp start.
Proof.
  intros (Htot & Hb & Hn & Hmax & Hpath). unfold on_track, start. simpl.
  split_and!; try lia.
  - by rewrite Z.mod_0_l by lia.
  - unfold remaining, max_files. simpl. rewrite !Z.sub_0_r. lia.
Qed.

Lemma on_track_advance (fsp : fspopulate_t) (c : counters) :
  valid_config fsp -> on_track fsp c ->
  totwritten c < fsp_totsize fsp ->
  on_track fsp (advance fsp c) /\ bi (advance fsp c) = bi c + 1.
Proof.
  intros (Htot & Hb & Hn & Hmax & Hpath) (Hbi & Hdi & Htw & Hrem) Hlt.
  pose proof (remaining_pos fsp c Hlt) as Hpos.
  assert (Hle : bi c + 1 <= INT_MAX) by lia.
  pose proof (remaining_advance fsp c Hb Hbi Hle Hlt) as Hdec.
  pose proof (expected_size_bounds fsp c Hb Hlt) as He.
  assert (Hbi' : bi (advance fsp c) = bi c + 1).
  { simpl. apply to_int_small. lia. }
  split; [|done]. unfold on_track. rewrite Hbi'.
  split_and!; try lia.
  - simpl. rewrite Hdi.
    rewrite Z.rem_mod_nonneg by (pose proof (Z.mod_pos_bound (bi c) _ Hn); lia).
    by rewrite Zplus_mod_idemp_l.
  - simpl. lia.
  - simpl. lia.
Qed.

(** ** The plan *)

Lemma plan_from_unfold (fuel : nat) (fsp : fspopulate_t) (c : counters) :
  plan_from fuel fsp c =
    if totwritten c <? fsp_totsize fsp then
      match fuel with
      | O => []
      | S fuel => c :: plan_from fuel fsp (advance fsp c)
      end
    else [].
Proof. by destruct fuel. Qed.

Lemma plan_from_pending (fuel : nat) (fsp : fspopulate_t) (c0 : counters) :
  Forall (fun c => totwritten c < fsp_totsize fsp) (plan_from fuel fsp c0).
Proof.
  revert c0. induction fuel as [|fuel IH]; intros c0; simpl;
    destruct (Z.ltb_spec (totwritten c0) (fsp_totsize fsp)); auto.
Qed.

Lemma plan_from_done (fuel : nat) (fsp : fspopulate_t) (c : counters) :
  fsp_totsize fsp <= totwritten c -> plan_from fuel fsp c = [].
Proof.
  intros H. rewrite plan_from_unfold.
  by rewrite (proj2 (Z.ltb_ge _ _) H).
Qed.

Lemma sum_expected_cons (fsp : fspopulate_t) (c : counters)
    (cs : list counters) :
  sum_expected fsp (c :: cs) = expected_size fsp c + sum_expected fsp cs.
Proof. reflexivity. Qed.

Lemma sum_expected_nil (fsp : fspopulate_t) : sum_expected fsp [] = 0.
Proof. reflexivity. Qed.

Lemma plan_from_split (fsp : fspopulate_t) (pre : list counters) :
  forall (fuel : nat) (c0 c : counters) (post : list counters),
    plan_from fuel fsp c0 = pre ++ c :: post ->
    totwritten c = totwritten c0 + sum_expected fsp pre /\
    exists fuel', post = plan_from fuel' fsp (advance fsp c).
Proof.
  induction pre as [|c1 pre IH]; intros fuel c0 c post H;
    rewrite plan_from_unfold in H;
    destruct (totwritten c0 <? fsp_totsize fsp); try done;
    destruct fuel as [|fuel]; try done; simpl in H;
    injection H as -> H.
  - split; [rewrite sum_expected_nil; lia|]. by exists fuel.
  - apply IH in H. destruct H as [Htw Hpost]. split; [|done].
    rewrite Htw, sum_expected_cons. simpl. lia.
Qed.

Lemma loop_done (fuel : nat) (buf : Z -> Z) (fsp : fspopulate_t)
    (c : counters) (w : world) :
  fsp_totsize fsp <= totwritten c ->
  fspopulate_loop fuel buf fsp c w = (Returned 0, c, w).
Proof.
  intros H. destruct fuel; simpl; by rewrite (proj2 (Z.ltb_ge _ _) H).
Qed.

(** ** Termination *)

Lemma file_task_status os buf t p e fs s evs fs' :
  file_task os buf t p e fs (Some s) evs fs' ->
  s = Returned (-1) \/ s = Aborted.
Proof. inversion 1; auto. Qed.

Lemma iteration_status os buf fsp t c fs s evs fs' :
  iteration os buf fsp t c fs (Some s) evs fs' ->
  s = Returned (-1) \/ s = Aborted.
Proof. inversion 1; subst; eauto using file_task_status. Qed.

Lemma run_status os buf fsp fuel t c fs s evs c' fs' :
  valid_config fsp ->
  run os buf fsp fuel t c fs s evs c' fs' ->
  on_track fsp c -> remaining fsp c <= Z.of_nat fuel ->
  s = Returned 0 \/ s = Returned (-1) \/ s = Aborted.
Proof.
  intros Hv. induction 1 as [| |?????????Hit|?????????? Hlt Hit Hrun IH];
    intros Htrack Hfuel.
  - auto.
  - pose proof (remaining_pos fsp c ltac:(done)). lia.
  - apply iteration_status in Hit. tauto.
  - destruct (on_track_advance fsp c Hv Htrack Hlt) as [Htrack' Hbi].
    apply IH; [done|].
    destruct Htrack as (Hbi0 & _ & _ & Hrem).
    destruct Hv as (_ & Hb & _ & Hmax & _).
    pose proof (remaining_pos fsp c Hlt).
    pose proof (remaining_advance fsp c Hb Hbi0 ltac:(lia) Hlt). lia.
Qed.

Lemma max_files_nonneg (fsp : fspopulate_t) : 0 <= max_files fsp.
Proof.
  unfold max_files.
  assert (0 <= (Z.max 0 (fsp_totsize fsp) + sizeof_fsp_buf - 1) / sizeof_fsp_buf).
  { apply Z.div_pos; [|done]. unfold sizeof_fsp_buf. lia. }
  lia.
Qed.

Lemma remaining_start (fsp : fspopulate_t) :
  0 <= fsp_totsize fsp -> remaining fsp start = max_files fsp.
Proof.
  intros H. unfold remaining, max_files, start. simpl.
  by rewrite !Z.sub_0_r.
Qed.

(** ** The system calls of a run *)

Lemma opens_app (l1 l2 : list event) : opens (l1 ++ l2) = opens l1 ++ opens l2.
Proof. apply omap_app. Qed.

Lemma mkdirs_app (l1 l2 : list event) :
  mkdirs (l1 ++ l2) = mkdirs l1 ++ mkdirs l2.
Proof. apply omap_app. Qed.

Lemma writes_app (l1 l2 : list event) :
  writes (l1 ++ l2) = writes l1 ++ writes l2.
Proof. apply filter_app. Qed.

Lemma opens_write_events (fd nbytes : Z) (rs : list Z) :
  forall nwritten, opens (write_events fd nbytes nwritten rs) = [].
Proof. induction rs as [|r rs IH]; intros nw; [done|]. simpl. apply IH. Qed.

Lemma mkdirs_write_events (fd nbytes : Z) (rs : list Z) :
  forall nwritten, mkdirs (write_events fd nbytes nwritten rs) = [].
Proof. induction rs as [|r rs IH]; intros nw; [done|]. simpl. apply IH. Qed.

Lemma writes_write_events (fd nbytes : Z) (rs : list Z) :
  forall nwritten,
    writes (write_events fd nbytes nwritten rs)
    = write_events fd nbytes nwritten rs.
Proof.
  induction rs as [|r rs IH]; intros nw; [done|].
  simpl. unfold writes in *. rewrite filter_cons_True by done. by rewrite IH.
Qed.

Lemma opens_mkdirp_event (p : string) (fs : gmap string node) :
  opens [mkdirp_event p fs] = [].
Proof. unfold mkdirp_event. by destruct (fs !! p). Qed.

Lemma mkdirs_mkdirp_event (p : string) (fs : gmap string node) :
  mkdirs [mkdirp_event p fs] = [p].
Proof. unfold mkdirp_event. by destruct (fs !! p). Qed.

Lemma writes_mkdirp_event (p : string) (fs : gmap string node) :
  writes [mkdirp_event p fs] = [].
Proof. unfold mkdirp_event. by destruct (fs !! p). Qed.

Lemma opens_dir_events fsp c fs : opens (dir_events fsp c fs) = [].
Proof.
  unfold dir_events. destruct (bi c <? fsp_nsubdirs fsp); [|done].
  apply opens_mkdirp_event.
Qed.

Lemma mkdirs_dir_events fsp c fs :
  mkdirs (dir_events fsp c fs)
  = if bi c <? fsp_nsubdirs fsp then [subdir_path fsp (di c)] else [].
Proof.
  unfold dir_events. destruct (bi c <? fsp_nsubdirs fsp); [|done].
  apply mkdirs_mkdirp_event.
Qed.

Lemma writes_dir_events fsp c fs : writes (dir_events fsp c fs) = [].
Proof.
  unfold dir_events. destruct (bi c <? fsp_nsubdirs fsp); [|done].
  apply writes_mkdirp_event.
Qed.

Lemma file_task_opens os buf t p e fs o evs fs' :
  file_task os buf t p e fs o evs fs' -> opens evs = [p].
Proof.
  inversion 1; subst; try done;
    rewrite !opens_app, opens_write_events; done.
Qed.

Lemma file_task_mkdirs os buf t p e fs o evs fs' :
  file_task os buf t p e fs o evs fs' -> mkdirs evs = [].
Proof.
  inversion 1; subst; try done;
    rewrite !mkdirs_app, mkdirs_write_events; done.
Qed.

Lemma iteration_opens os buf fsp t c fs o evs fs' :
  iteration os buf fsp t c fs o evs fs' ->
  opens evs = [task_path fsp c] \/ (opens evs = [] /\ o <> None).
Proof.
  inversion 1 as [|? ? ? ? Hft]; subst.
  - by right.
  - left. rewrite opens_app, opens_dir_events.
    by apply file_task_opens in Hft.
Qed.

Lemma iteration_mkdirs os buf fsp t c fs o evs fs' :
  iteration os buf fsp t c fs o evs fs' ->
  mkdirs evs
  = if bi c <? fsp_nsubdirs fsp then [subdir_path fsp (di c)] else [].
Proof.
  inversion 1 as [Hb|? ? ? ? Hft]; subst.
  - by rewrite (proj2 (Z.ltb_lt _ _) Hb).
  - rewrite mkdirs_app, mkdirs_dir_events.
    apply file_task_mkdirs in Hft. rewrite Hft. by rewrite app_nil_r.
Qed.

Lemma run_opens os buf fsp fuel t c fs s evs c' fs' :
  run os buf fsp fuel t c fs s evs c' fs' ->
  opens evs `prefix_of` (task_path fsp <$> plan_from fuel fsp c) /\
  (s = Returned 0 -> opens evs = task_path fsp <$> plan_from fuel fsp c).
Proof.
  induction 1 as [| |????????Hlt Hit|?????????? Hlt Hit Hrun IH].
  - split; [apply prefix_nil|]. intros _. by rewrite plan_from_done.
  - split; [apply prefix_nil|]. done.
  - split.
    + simpl. rewrite (proj2 (Z.ltb_lt _ _) Hlt).
      apply iteration_opens in Hit. destruct Hit as [->|[-> _]].
      * simpl. apply prefix_cons, prefix_nil.
      * apply prefix_nil.
    + intros ->. apply iteration_status in Hit. by destruct Hit.
  - simpl. rewrite (proj2 (Z.ltb_lt _ _) Hlt). rewrite opens_app.
    apply iteration_opens in Hit. destruct Hit as [->|[_ ?]]; [|done].
    destruct IH as [IH1 IH2]. split.
    + simpl. by apply prefix_cons.
    + intros Hs. simpl. by rewrite IH2.
Qed.


Lemma fspopulate_nothing_to_do (buf : Z -> Z) (fsp : fspopulate_t) (w : world) :
  fsp_totsize fsp <= 0 -> fsp_dryrun fsp = false ->
  w_os w (tick w) <> Error ->
  fspopulate buf fsp w =
    (Returned 0,
     record (mkdirp_event (fsp_path fsp) (w_fs w))
       (make_dir (fsp_path fsp) (w_fs w)) (w_fdtab w) w).
Proof.
  intros Htot Hdry Hos. unfold fspopulate. rewrite Hdry.
  destruct (mkdirp_no_error (fsp_path fsp) w Hos) as (ret & errno & Hret & ->).
  assert ((negb (ret =? 0) && negb (errno =? EEXIST)) = false) as ->.
  { destruct Hret as [->|[-> ->]]; done. }
  by rewrite loop_done.
Qed.

Lemma fspopulate_status (buf : Z -> Z) (fsp : fspopulate_t) (w : world)
    (s : status) (w' : world) :
  valid_config fsp ->
  fspopulate buf fsp w = (s, w') ->
  s = Returned 0 \/ s = Returned (-1) \/ s = Aborted.
Proof.
  intros Hv Hrun.
  assert (Hn : fsp_nsubdirs fsp <> 0) by (destruct Hv as (_ & _ & ? & _); lia).
  destruct (fsp_dryrun fsp) eqn:Hdry.
  { unfold fspopulate in Hrun. rewrite Hdry in Hrun. simplify_eq. auto. }
  apply fspopulate_run in Hrun; try done.
  destruct Hrun as [_ [(_ & -> & _)|(_ & evs & c' & Hr & _)]]; [auto|].
  eapply run_status; [done|done|by apply on_track_start|].
  destruct Hv as (Htot & _). rewrite remaining_start by done.
  pose proof (max_files_nonneg fsp). lia.
Qed.

(** C9: for every valid configuration the population loop terminates:
    the run ends by returning 0 or -1 or by the failed assertion, never
    by exhausting the iterations granted to the model; the files it opens
    are an initial segment of the plan, whose entries all start below the
    configured total; and for total size 0 the loop body is never entered,
    the only system call is the [mkdirp] of the root, and [main] exits
    with status 0. *)
Theorem population_terminates (buf : Z -> Z) (fsp : fspopulate_t) (w : world)
    (s : status) (w' : world) :
  valid_config fsp ->
  fspopulate buf fsp w = (s, w') ->
  (s = Returned 0 \/ s = Returned (-1) \/ s = Aborted) /\
  (exists evs,
     w_trace w' = rev evs ++ w_trace w /\
     opens evs `prefix_of` (task_path fsp <$> plan fsp)) /\
  Forall (fun c => totwritten c < fsp_totsize fsp) (plan fsp) /\
  (fsp_totsize fsp = 0 -> fsp_dryrun fsp = false ->
   w_os w (tick w) <> Error ->
   s = Returned 0 /\
   w_trace w' = mkdirp_event (fsp_path fsp) (w_fs w) :: w_trace w /\
   w_fs w' = make_dir (fsp_path fsp) (w_fs w)) /\
  (forall (g : generator) (path : string) (w0 : world),
     w_os w0 (tick w0) <> Error ->
     main g 0 path w0 =
       (Returned EXIT_SUCCESS,
        record (mkdirp_event (snprintf PATH_MAX path) (w_fs w0))
          (make_dir (snprintf PATH_MAX path) (w_fs w0)) (w_fdtab w0) w0)).
Proof.
  intros Hv Hrun.
  assert (Hn : fsp_nsubdirs fsp <> 0) by (destruct Hv as (_ & _ & ? & _); lia).
  split_and!.
  - by eapply fspopulate_status.
  - destruct (fsp_dryrun fsp) eqn:Hdry.
    { unfold fspopulate in Hrun. rewrite Hdry in Hrun. simplify_eq.
      exists []. split; [done|]. apply prefix_nil. }
    apply fspopulate_run in Hrun; try done.
    destruct Hrun as [_ [(_ & _ & _ & Htr)|(_ & evs & c' & Hr & Htr)]].
    + exists [EvMkdirp (fsp_path fsp) (-1) EACCES]. split; [done|].
      apply prefix_nil.
    + eexists. split; [exact Htr|].
      change (mkdirp_event (fsp_path fsp) (w_fs w) :: evs)
        with ([mkdirp_event (fsp_path fsp) (w_fs w)] ++ evs).
      rewrite opens_app, opens_mkdirp_event. simpl.
      apply run_opens in Hr. apply Hr.
  - apply plan_from_pending.
  - intros Htot Hdry Hos.
    rewrite fspopulate_nothing_to_do in Hrun by (done || lia).
    by simplify_eq.
  - intros g path w0 Hos. unfold main.
    by rewrite fspopulate_nothing_to_do.
Qed.

(** ** Expected sizes *)

Lemma to_off_t_large (x : Z) : 2 ^ 63 <= x < 2 ^ 64 -> to_off_t x = x - 2 ^ 64.
Proof.
  unfold to_off_t, wrap_signed. intros H.
  change (2 ^ (64 - 1)) with (2 ^ 63).
  replace (x + 2 ^ 63) with (x + 2 ^ 63 - 2 ^ 64 + 1 * 2 ^ 64) by lia.
  rewrite Z_mod_plus_full, Z.mod_small; lia.
Qed.

Lemma main_config_planned (totsz : Z) (path : string) :
  0 <= totsz < 2 ^ 64 ->
  plan (main_config totsz path) <> [] ->
  0 < totsz < 2 ^ 63 /\
  fsp_totsize (main_config totsz path) = totsz /\
  fsp_bulksize (main_config totsz path) = totsz / 1024.
Proof.
  intros Hr Hplan.
  destruct (Z.lt_ge_cases totsz (2 ^ 63)) as [Hlt|Hge].
  - assert (Htot : fsp_totsize (main_config totsz path) = totsz).
    { simpl. apply to_off_t_small. lia. }
    assert (0 <= totsz / 1024 <= totsz).
    { split; [apply Z.div_pos; lia|].
      apply Z.div_le_upper_bound; lia. }
    split_and!; [|lia|done|simpl; apply to_off_t_small; lia].
    destruct (Z.eq_dec totsz 0) as [->|]; [|lia].
    exfalso. apply Hplan. unfold plan. apply plan_from_done.
    rewrite Htot. done.
  - exfalso. apply Hplan. unfold plan. apply plan_from_done.
    simpl. rewrite to_off_t_large by lia. lia.
Qed.

(** C3: under the policy of [main], the expected size of a planned file
    with index [bi] is [total_size / 1024] when [bi < 768] and 10 MiB
    otherwise, clipped to the total size minus the expected sizes of the
    files planned before it; a file whose expected size is below its
    nominal size is the last one of the plan; and the expected size does
    not depend on the number of subdirectories. *)
Theorem expected_size_policy (totsz : Z) (path : string)
    (pre : list counters) (c : counters) (post : list counters) :
  0 <= totsz < 2 ^ 64 ->
  plan (main_config totsz path) = pre ++ c :: post ->
  let fsp := main_config totsz path in
  let nominal := if bi c <? 768 then fsp_totsize fsp / 1024 else 10485760 in
  fsp_totsize fsp = totsz /\
  totwritten c = sum_expected fsp pre /\
  expected_size fsp c = Z.min nominal (fsp_totsize fsp - totwritten c) /\
  (expected_size fsp c < nominal -> post = []) /\
  (forall fsp',
     fsp_totsize fsp' = fsp_totsize fsp -> fsp_nbulk fsp' = fsp_nbulk fsp ->
     fsp_bulksize fsp' = fsp_bulksize fsp ->
     expected_size fsp' c = expected_size fsp c).
Proof.
  intros Hr Hplan fsp nominal.
  destruct (main_config_planned totsz path Hr) as (Hpos & Htot & Hbulk).
  { rewrite Hplan. by destruct pre. }
  fold fsp in Htot, Hbulk.
  apply plan_from_split in Hplan. destruct Hplan as [Htw (fuel' & Hpost)].
  assert (Hexp : expected_size fsp c
                 = Z.min nominal (fsp_totsize fsp - totwritten c)).
  { unfold expected_size, nominal_size. rewrite MIN_spec, Hbulk, Htot.
    subst nominal. rewrite Htot. reflexivity. }
  split_and!; try done.
  - intros Hclip. rewrite Hpost. apply plan_from_done. fold fsp.
    change (totwritten (advance fsp c))
      with (totwritten c + expected_size fsp c).
    lia.
  - intros fsp' H1 H2 H3. unfold expected_size, nominal_size.
    by rewrite H1, H2, H3.
Qed.

(** ** Failures end the run *)

Lemma write_events_app (fd nbytes : Z) (rs1 rs2 : list Z) :
  forall nwritten,
    write_events fd nbytes nwritten (rs1 ++ rs2)
    = write_events fd nbytes nwritten rs1
      ++ write_events fd nbytes (nwritten + total rs1) rs2.
Proof.
  induction rs1 as [|r rs1 IH]; intros nw; simpl.
  - by rewrite Z.add_0_r.
  - rewrite IH. do 3 f_equal. unfold total. simpl. lia.
Qed.

Lemma write_events_clean (os : nat -> reply) (fd nbytes : Z) (rs : list Z) :
  forall t nwritten,
    writes_ok os t nbytes nwritten rs ->
    Forall (fun e => clean e = true) (write_events fd nbytes nwritten rs).
Proof.
  induction rs as [|r rs IH]; intros t nw H; simpl; [done|].
  destruct H as (_ & _ & _ & Hr & H). constructor; [|by eapply IH].
  unfold clean. simpl.
  destruct (Z.eqb_spec r (-1)), (Z.eqb_spec r 0); simpl; lia.
Qed.

Lemma mkdirp_event_clean (p : string) (fs : gmap string node) :
  clean (mkdirp_event p fs) = true.
Proof. unfold mkdirp_event. by destruct (fs !! p). Qed.

Lemma dir_events_clean fsp c fs :
  Forall (fun e => clean e = true) (dir_events fsp c fs).
Proof.
  unfold dir_events. destruct (bi c <? fsp_nsubdirs fsp); [|done].
  constructor; [apply mkdirp_event_clean|done].
Qed.

Lemma open_event_clean (p : string) (fl fd : Z) :
  0 <= fd -> clean (EvOpen p fl fd) = true.
Proof.
  intros H. unfold clean. simpl. by rewrite (proj2 (Z.ltb_ge fd 0)).
Qed.

Lemma file_task_shape os buf t p e fs o evs fs' :
  file_task os buf t p e fs o evs fs' ->
  exists good tail,
    evs = good ++ tail /\ Forall (fun e => clean e = true) good /\
    match o with
    | None => tail = []
    | Some s => ending s tail /\ s <> Returned 0
    end.
Proof.
  inversion 1 as [|fd|fd rs ????Hok|fd rs ????Hok|fd rs ????Hok]; subst.
  - exists [], [EvOpen p open_flags (-1)]. split_and!; try done.
    by apply End_failed.
  - exists [EvOpen p open_flags fd], [EvFstat fd (-1) 0; EvClose fd].
    split_and!; try done.
    + constructor; [by apply open_event_clean|done].
    + by apply End_failed_closed.
  - eexists _, []. split_and!; [by rewrite app_nil_r| |done].
    constructor; [by apply open_event_clean|].
    constructor; [done|].
    apply Forall_app. split; [by eapply write_events_clean|].
    by constructor.
  - rewrite write_events_app. simpl.
    eexists ([_; _] ++ write_events _ _ _ rs), [_; _].
    split_and!; [by rewrite <- !app_assoc| |by apply End_failed_closed|done].
    constructor; [by apply open_event_clean|].
    constructor; [done|]. by eapply write_events_clean.
  - rewrite write_events_app. simpl.
    eexists ([_; _] ++ write_events _ _ _ rs), [_].
    split_and!; [by rewrite <- !app_assoc| |by apply End_aborted|done].
    constructor; [by apply open_event_clean|].
    constructor; [done|]. by eapply write_events_clean.
Qed.

Lemma iteration_shape os buf fsp t c fs o evs fs' :
  iteration os buf fsp t c fs o evs fs' ->
  exists good tail,
    evs = good ++ tail /\ Forall (fun e => clean e = true) good /\
    match o with
    | None => tail = []
    | Some s => ending s tail /\ s <> Returned 0
    end.
Proof.
  inversion 1 as [|? ? ? ? Hft]; subst.
  - exists [], [EvMkdirp (subdir_path fsp (di c)) (-1) EACCES].
    split_and!; try done. by apply End_failed.
  - apply file_task_shape in Hft.
    destruct Hft as (good & tail & -> & Hgood & Hend).
    exists (dir_events fsp c fs ++ good), tail.
    split_and!; [by rewrite app_assoc| |done].
    apply Forall_app. split; [apply dir_events_clean|done].
Qed.

Lemma run_shape os buf fsp fuel t c fs s evs c' fs' :
  run os buf fsp fuel t c fs s evs c' fs' ->
  exists good tail,
    evs = good ++ tail /\ Forall (fun e => clean e = true) good /\
    ending s tail.
Proof.
  induction 1 as [| |????????Hlt Hit|?????????? Hlt Hit Hrun IH].
  - exists [], []. split_and!; try done. constructor.
  - exists [], []. split_and!; try done. constructor.
  - apply iteration_shape in Hit.
    destruct Hit as (good & tail & -> & Hgood & Hend & _). eauto.
  - apply iteration_shape in Hit.
    destruct Hit as (good & tail & -> & Hgood & ->).
    destruct IH as (good' & tail' & -> & Hgood' & Hend).
    exists (good ++ good'), tail'. rewrite app_nil_r.
    split_and!; [by rewrite app_assoc| |done].
    apply Forall_app. done.
Qed.

(** ** Nothing is lost *)

Lemma extends_refl (fs : gmap string node) : extends fs fs.
Proof.
  intros p. destruct (fs !! p) as [[|data]|]; try done.
  exists []. by rewrite app_nil_r.
Qed.

Lemma extends_trans (fs1 fs2 fs3 : gmap string node) :
  extends fs1 fs2 -> extends fs2 fs3 -> extends fs1 fs3.
Proof.
  intros H12 H23 p. specialize (H12 p). specialize (H23 p).
  destruct (fs1 !! p) as [[|data]|]; try done.
  - by rewrite H12 in H23.
  - destruct H12 as [extra H12]. rewrite H12 in H23.
    destruct H23 as [extra' H23]. exists (extra ++ extra').
    by rewrite app_assoc.
Qed.

Lemma extends_make_dir (p : string) (fs : gmap string node) :
  extends fs (make_dir p fs).
Proof.
  unfold make_dir. destruct (fs !! p) eqn:E; [apply extends_refl|].
  intros q. destruct (decide (p = q)) as [->|Hne].
  - by rewrite E.
  - rewrite lookup_insert_ne by done.
    destruct (fs !! q) as [[|data]|]; try done.
    exists []. by rewrite app_nil_r.
Qed.

Lemma extends_touch (p : string) (fs : gmap string node) :
  extends fs (touch p fs).
Proof.
  unfold touch. destruct (fs !! p) eqn:E; [apply extends_refl|].
  intros q. destruct (decide (p = q)) as [->|Hne].
  - by rewrite E.
  - rewrite lookup_insert_ne by done.
    destruct (fs !! q) as [[|data]|]; try done.
    exists []. by rewrite app_nil_r.
Qed.

Lemma extends_append_at (p : string) (extra : list Z) (fs : gmap string node) :
  extends fs (append_at p extra fs).
Proof.
  unfold append_at. destruct (fs !! p) as [[|data]|] eqn:E;
    try apply extends_refl.
  intros q. destruct (decide (p = q)) as [->|Hne].
  - rewrite E, lookup_insert_eq. eauto.
  - rewrite lookup_insert_ne by done.
    destruct (fs !! q) as [[|data']|]; try done.
    exists []. by rewrite app_nil_r.
Qed.

Lemma extends_dir_step fsp c fs : extends fs (dir_step fsp c fs).
Proof.
  unfold dir_step. destruct (bi c <? fsp_nsubdirs fsp);
    [apply extends_make_dir|apply extends_refl].
Qed.

Lemma file_task_extends os buf t p e fs o evs fs' :
  file_task os buf t p e fs o evs fs' -> extends fs fs'.
Proof.
  inversion 1; subst;
    eauto using extends_refl, extends_touch, extends_trans, extends_append_at.
Qed.

Lemma iteration_extends os buf fsp t c fs o evs fs' :
  iteration os buf fsp t c fs o evs fs' -> extends fs fs'.
Proof.
  inversion 1 as [|? ? ? ? Hft]; subst; [apply extends_refl|].
  eapply extends_trans; [apply extends_dir_step|].
  by eapply file_task_extends.
Qed.

Lemma run_extends os buf fsp fuel t c fs s evs c' fs' :
  run os buf fsp fuel t c fs s evs c' fs' -> extends fs fs'.
Proof.
  induction 1; eauto using extends_refl, extends_trans, iteration_extends.
Qed.

Lemma fspopulate_extends (buf : Z -> Z) (fsp : fspopulate_t) (w : world)
    (s : status) (w' : world) :
  fsp_nsubdirs fsp <> 0 ->
  fspopulate buf fsp w = (s, w') -> extends (w_fs w) (w_fs w').
Proof.
  intros Hn Hrun. destruct (fsp_dryrun fsp) eqn:Hdry.
  { unfold fspopulate in Hrun. rewrite Hdry in Hrun. simplify_eq.
    apply extends_refl. }
  apply fspopulate_run in Hrun; try done.
  destruct Hrun as [_ [(_ & _ & -> & _)|(_ & evs & c' & Hr & _)]].
  - apply extends_refl.
  - eapply extends_trans; [apply extends_make_dir|].
    by eapply run_extends.
Qed.

Lemma ending_failure (good tail : list event) (s : status) :
  Forall (fun e => clean e = true) good -> ending s tail ->
  forall pre e post,
    good ++ tail = pre ++ e :: post -> failed e = true ->
    s = Returned (-1) /\ (post = [] \/ exists fd, post = [EvClose fd]).
Proof.
  intros Hgood Hend pre e post Heq Hfail.
  apply app_eq_app in Heq. destruct Heq as [l [[-> Heq]|[-> Heq]]].
  - destruct l as [|x l]; simpl in Heq.
    + subst tail. inversion Hend; subst; eauto.
      by simpl in Hfail.
    + simplify_eq. apply Forall_app in Hgood as [_ Hgood].
      inversion Hgood as [|?? Hc]; subst. unfold clean in Hc.
      by rewrite Hfail in Hc.
  - inversion Hend; subst; destruct l as [|x [|y l]]; simplify_eq/=; eauto;
      try done; by destruct l.
Qed.

Lemma ending_zero_write (good tail : list event) (s : status) :
  Forall (fun e => clean e = true) good -> ending s tail ->
  forall pre e post,
    good ++ tail = pre ++ e :: post -> zero_write e = true ->
    s = Aborted /\ post = [].
Proof.
  intros Hgood Hend pre e post Heq Hz.
  assert (Hnf : forall e', failed e' = true -> zero_write e' = true -> False).
  { intros [] Hf Hz'; simpl in *; try done.
    apply Z.eqb_eq in Hf, Hz'. lia. }
  apply app_eq_app in Heq. destruct Heq as [l [[-> Heq]|[-> Heq]]].
  - destruct l as [|x l]; simpl in Heq.
    + subst tail. inversion Hend; subst; eauto; exfalso; eauto.
    + simplify_eq. apply Forall_app in Hgood as [_ Hgood].
      inversion Hgood as [|?? Hc]; subst. unfold clean in Hc.
      rewrite Hz in Hc. by rewrite andb_false_r in Hc.
  - inversion Hend; subst; destruct l as [|x [|y l]]; simplify_eq/=; eauto;
      try done; try (exfalso; eauto; fail); by destruct l.
Qed.

(** C8: in every run of [main], all system calls but the last ones
    succeed; a failed [mkdirp] (other than [EEXIST]), [open], [fstat] or
    [write] is the last system call of the run, apart from the [close] of
    the descriptor, and then the exit status is 1; a [write] that returns
    0 is the very last system call and the process is aborted by the
    failed assertion; whatever the outcome, every directory and every
    byte the tree had before the run is still there; and for a valid
    configuration the run ends in one of these three ways. *)
Theorem fail_fast (g : generator) (totsz : Z) (path : string) (w : world)
    (s : status) (w' : world) :
  main g totsz path w = (s, w') ->
  exists good tail,
    w_trace w' = rev (good ++ tail) ++ w_trace w /\
    Forall (fun e => clean e = true) good /\
    ((s = Returned EXIT_SUCCESS /\ tail = []) \/
     (s = Returned EXIT_FAILURE /\
      exists e, failed e = true /\
                (tail = [e] \/ exists fd, tail = [e; EvClose fd])) \/
     (s = Aborted /\ exists fd n, tail = [EvWrite fd n 0]) \/
     (s = OutOfFuel /\ tail = [])) /\
    (forall pre e post,
       good ++ tail = pre ++ e :: post -> failed e = true ->
       s = Returned EXIT_FAILURE /\
       (post = [] \/ exists fd, post = [EvClose fd])) /\
    (forall pre e post,
       good ++ tail = pre ++ e :: post -> zero_write e = true ->
       s = Aborted /\ post = []) /\
    extends (w_fs w) (w_fs w') /\
    (valid_config (main_config totsz path) -> s <> OutOfFuel).
Proof.
  unfold main. intros Hmain.
  destruct (fspopulate _ _ w) as [s0 w0] eqn:Hrun.
  assert (Hext : extends (w_fs w) (w_fs w0)).
  { by eapply fspopulate_extends in Hrun. }
  assert (Hshape : exists good tail,
             w_trace w0 = rev (good ++ tail) ++ w_trace w /\
             Forall (fun e => clean e = true) good /\ ending s0 tail).
  { apply fspopulate_run in Hrun; try done.
    destruct Hrun as [_ [(_ & -> & _ & Htr)|(_ & evs & c' & Hr & Htr)]].
    - exists [], [EvMkdirp (snprintf PATH_MAX path) (-1) EACCES].
      split_and!; try done. by apply End_failed.
    - apply run_shape in Hr. destruct Hr as (good & tail & -> & Hgood & Hend).
      exists (mkdirp_event (snprintf PATH_MAX path) (w_fs w) :: good), tail.
      split_and!; try done.
      constructor; [apply mkdirp_event_clean|done]. }
  destruct Hshape as (good & tail & Htr & Hgood & Hend).
  assert (Hs : s = match s0 with
                   | Returned rv =>
                       Returned (if rv =? 0 then EXIT_SUCCESS else EXIT_FAILURE)
                   | _ => s0
                   end /\ w' = w0).
  { destruct s0; by simplify_eq. }
  destruct Hs as [-> ->]. clear Hmain.
  exists good, tail. split_and!; try done.
  - inversion Hend; subst; simpl; eauto 10.
  - intros pre e post Heq Hf.
    destruct (ending_failure good tail s0 Hgood Hend pre e post Heq Hf)
      as [-> Hpost].
    done.
  - intros pre e post Heq Hz.
    destruct (ending_zero_write good tail s0 Hgood Hend pre e post Heq Hz)
      as [-> Hpost].
    done.
  - intros Hv.
    destruct (fspopulate_status _ _ _ _ _ Hv Hrun) as [-> | [-> | ->]]; done.
Qed.

(** ** Path names *)

Lemma subdir_path_eq (fsp : fspopulate_t) (d : Z) :
  valid_config fsp -> 0 <= d ->
  subdir_path fsp d = fsp_path fsp +:+ "/dir" +:+ fmt_06d d.
Proof.
  intros (_ & _ & _ & _ & Hlen) Hd. unfold subdir_path.
  apply snprintf_fits. rewrite !string_length_app.
  pose proof (fmt_06d_length d Hd). simpl String.length. lia.
Qed.

Lemma file_path_eq (fsp : fspopulate_t) (d b : Z) :
  valid_config fsp -> 0 <= d -> 0 <= b ->
  file_path fsp d b
  = fsp_path fsp +:+ "/dir" +:+ fmt_06d d +:+ "/file" +:+ fmt_06d b.
Proof.
  intros (_ & _ & _ & _ & Hlen) Hd Hb. unfold file_path.
  apply snprintf_fits. rewrite !string_length_app.
  pose proof (fmt_06d_length d Hd). pose proof (fmt_06d_length b Hb).
  simpl String.length. lia.
Qed.

Lemma dirname_file_path (fsp : fspopulate_t) (d b : Z) :
  valid_config fsp -> 0 <= d -> 0 <= b ->
  dirname (file_path fsp d b) = Some (subdir_path fsp d).
Proof.
  intros Hv Hd Hb. rewrite file_path_eq, subdir_path_eq by done.
  rewrite !dirname_app, (fmt_06d_no_slash b) by done.
  change (dirname "/file") with (Some ""). cbv beta iota.
  by rewrite string_app_empty_r.
Qed.

Lemma file_path_length (fsp : fspopulate_t) (d b : Z) :
  valid_config fsp -> 0 <= d -> 0 <= b ->
  (String.length (fsp_path fsp) + 21 <= String.length (file_path fsp d b))%nat.
Proof.
  intros Hv Hd Hb. rewrite file_path_eq by done.
  rewrite !string_length_app.
  pose proof (fmt_06d_length d Hd). pose proof (fmt_06d_length b Hb).
  simpl String.length. lia.
Qed.

Lemma subdir_path_length (fsp : fspopulate_t) (d : Z) :
  valid_config fsp -> 0 <= d ->
  (String.length (fsp_path fsp) + 10 <= String.length (subdir_path fsp d)
   <= String.length (fsp_path fsp) + 14)%nat.
Proof.
  intros Hv Hd. rewrite subdir_path_eq by done.
  rewrite !string_length_app.
  pose proof (fmt_06d_length d Hd). simpl String.length. lia.
Qed.

Lemma file_path_ne_subdir (fsp : fspopulate_t) (d b d' : Z) :
  valid_config fsp -> 0 <= d -> 0 <= b -> 0 <= d' ->
  file_path fsp d b <> subdir_path fsp d'.
Proof.
  intros Hv Hd Hb Hd' Heq. apply (f_equal String.length) in Heq.
  pose proof (file_path_length fsp d b Hv Hd Hb).
  pose proof (subdir_path_length fsp d' Hv Hd'). lia.
Qed.

Lemma file_path_ne_root (fsp : fspopulate_t) (d b : Z) :
  valid_config fsp -> 0 <= d -> 0 <= b -> file_path fsp d b <> fsp_path fsp.
Proof.
  intros Hv Hd Hb Heq. apply (f_equal String.length) in Heq.
  pose proof (file_path_length fsp d b Hv Hd Hb). lia.
Qed.

Lemma subdir_path_ne_root (fsp : fspopulate_t) (d : Z) :
  valid_config fsp -> 0 <= d -> subdir_path fsp d <> fsp_path fsp.
Proof.
  intros Hv Hd Heq. apply (f_equal String.length) in Heq.
  pose proof (subdir_path_length fsp d Hv Hd). lia.
Qed.

Lemma file_path_inj (fsp : fspopulate_t) (d b d' b' : Z) :
  valid_config fsp ->
  0 <= d < 10 ^ 10 -> 0 <= b < 10 ^ 10 ->
  0 <= d' < 10 ^ 10 -> 0 <= b' < 10 ^ 10 ->
  file_path fsp d b = file_path fsp d' b' -> d = d' /\ b = b'.
Proof.
  intros Hv Hd Hb Hd' Hb' Heq. rewrite !file_path_eq in Heq by (done || lia).
  apply (inj (String.app _)) in Heq. apply (inj (String.app _)) in Heq.
  assert (Hdir : fmt_06d d = fmt_06d d').
  { apply (f_equal dirname) in Heq.
    rewrite !dirname_app, !fmt_06d_no_slash in Heq by lia.
    change (dirname "/file") with (Some "") in Heq. cbv beta iota in Heq.
    rewrite !string_app_empty_r in Heq. by simplify_eq. }
  rewrite Hdir in Heq.
  apply (inj (String.app _)) in Heq. apply (inj (String.app _)) in Heq.
  split; by apply fmt_06d_inj.
Qed.

Lemma subdir_path_inj (fsp : fspopulate_t) (d d' : Z) :
  valid_config fsp -> 0 <= d < 10 ^ 10 -> 0 <= d' < 10 ^ 10 ->
  subdir_path fsp d = subdir_path fsp d' -> d = d'.
Proof.
  intros Hv Hd Hd' Heq. rewrite !subdir_path_eq in Heq by (done || lia).
  apply (inj (String.app _)) in Heq. apply (inj (String.app _)) in Heq.
  by apply fmt_06d_inj.
Qed.

(** ** Counters along the plan *)

Lemma plan_from_lookup (fsp : fspopulate_t) (fuel : nat) :
  valid_config fsp ->
  forall (c0 : counters) (i : nat) (c : counters),
    on_track fsp c0 -> plan_from fuel fsp c0 !! i = Some c ->
    on_track fsp c /\ bi c = bi c0 + Z.of_nat i /\
    totwritten c < fsp_totsize fsp.
Proof.
  intros Hv. induction fuel as [|fuel IH]; intros c0 i c Htrack Hi;
    simpl in Hi;
    destruct (Z.ltb_spec (totwritten c0) (fsp_totsize fsp)) as [Hlt|Hge];
    try done.
  destruct i as [|i]; simpl in Hi.
  - simplify_eq. split_and!; [done|lia|done].
  - destruct (on_track_advance fsp c0 Hv Htrack Hlt) as [Htrack' Hbi].
    apply IH in Hi; [|done]. destruct Hi as (? & Hb & ?).
    split_and!; [done|lia|done].
Qed.

Lemma on_track_bi_bound (fsp : fspopulate_t) (c : counters) :
  valid_config fsp -> on_track fsp c ->
  0 <= bi c < 10 ^ 10 /\ 0 <= di c < 10 ^ 10 /\ di c < fsp_nsubdirs fsp.
Proof.
  intros (_ & _ & Hn & Hmax & _) (Hbi & Hdi & _ & Hrem).
  assert (0 <= remaining fsp c).
  { unfold remaining.
    assert (0 <= (Z.max 0 (fsp_totsize fsp - totwritten c)
                  + sizeof_fsp_buf - 1) / sizeof_fsp_buf).
    { apply Z.div_pos; [|done]. unfold sizeof_fsp_buf. lia. }
    lia. }
  pose proof (Z.mod_pos_bound (bi c) _ Hn).
  assert (bi c mod fsp_nsubdirs fsp <= bi c) by (apply Z.mod_le; lia).
  unfold INT_MAX in *. lia.
Qed.

Lemma plan_lookup (fsp : fspopulate_t) (i : nat) (c : counters) :
  valid_config fsp -> plan fsp !! i = Some c ->
  on_track fsp c /\ bi c = Z.of_nat i /\
  di c = Z.of_nat i mod fsp_nsubdirs fsp.
Proof.
  intros Hv Hi. unfold plan in Hi.
  apply plan_from_lookup in Hi; [|done|by apply on_track_start].
  destruct Hi as (Htrack & Hbi & _). simpl in Hbi.
  split_and!; [done|done|]. destruct Htrack as (_ & -> & _). by rewrite Hbi.
Qed.

Lemma run_count os buf fsp fuel t c fs evs c' fs' :
  valid_config fsp ->
  run os buf fsp fuel t c fs (Returned 0) evs c' fs' ->
  on_track fsp c ->
  bi c' = bi c + Z.of_nat (length (plan_from fuel fsp c)).
Proof.
  intros Hv Hrun. remember (Returned 0) as s eqn:Hs.
  induction Hrun as [| |????????Hlt Hit|?????????? Hlt Hit Hrun IH];
    intros Htrack; subst.
  - rewrite plan_from_done by done. simpl. lia.
  - done.
  - apply iteration_status in Hit. by destruct Hit.
  - destruct (on_track_advance fsp c Hv Htrack Hlt) as [Htrack' Hbi].
    rewrite IH, Hbi by done.
    rewrite (plan_from_unfold (S fuel)), (proj2 (Z.ltb_lt _ _) Hlt).
    cbn [length]. lia.
Qed.

Lemma run_mkdirs os buf fsp fuel t c fs evs c' fs' :
  valid_config fsp ->
  run os buf fsp fuel t c fs (Returned 0) evs c' fs' ->
  on_track fsp c ->
  bi c <= bi c' /\
  mkdirs evs
  = subdir_path fsp
      <$> seqZ (bi c) (Z.min (bi c') (fsp_nsubdirs fsp) - bi c).
Proof.
  intros Hv Hrun. remember (Returned 0) as s eqn:Hs.
  induction Hrun as [| |????????Hlt Hit|?????????? Hlt Hit Hrun IH];
    intros Htrack; subst.
  - split; [lia|]. by rewrite seqZ_nil by lia.
  - done.
  - apply iteration_status in Hit. by destruct Hit.
  - destruct (on_track_advance fsp c Hv Htrack Hlt) as [Htrack' Hbi].
    destruct (IH eq_refl Htrack') as [Hle Hmk]. rewrite Hbi in Hle, Hmk.
    split; [lia|].
    rewrite mkdirs_app, Hmk. apply iteration_mkdirs in Hit. rewrite Hit.
    destruct (Z.ltb_spec (bi c) (fsp_nsubdirs fsp)) as [Hb|Hb].
    + rewrite (seqZ_cons (bi c)) by lia. simpl.
      destruct Htrack as (? & Hdi & _).
      rewrite Hdi, Z.mod_small by lia.
      do 3 f_equal; lia.
    + by rewrite !seqZ_nil by lia.
Qed.

(** C6: for a valid configuration, an iteration of the loop attempts to
    create a directory if and only if its file counter [bi] is below
    [N_dirs], and then the directory is the one indexed by [di]; when that
    directory already exists, [mkdirp] reports [EEXIST] and the iteration
    goes on to open its file; and in a successful run the directories
    attempted are the root followed by one directory per file index below
    [N_dirs], in order, and no other. *)
Theorem directory_creation (buf : Z -> Z) (fsp : fspopulate_t) :
  valid_config fsp ->
  (forall (c : counters) (w : world) (o : option status) (w' : world),
     fspopulate_body buf fsp c w = (o, w') ->
     exists evs,
       w_trace w' = rev evs ++ w_trace w /\
       mkdirs evs
       = (if bi c <? fsp_nsubdirs fsp then [subdir_path fsp (di c)] else []) /\
       (bi c < fsp_nsubdirs fsp -> w_os w (tick w) <> Error ->
        is_Some (w_fs w !! subdir_path fsp (di c)) ->
        exists evs',
          evs = EvMkdirp (subdir_path fsp (di c)) (-1) EEXIST :: evs' /\
          opens evs' = [task_path fsp c])) /\
  (forall (w w' : world),
     fsp_dryrun fsp = false ->
     fspopulate buf fsp w = (Returned 0, w') ->
     exists evs,
       w_trace w' = rev evs ++ w_trace w /\
       mkdirs evs
       = fsp_path fsp
           :: (subdir_path fsp
                 <$> seqZ 0 (Z.min (Z.of_nat (length (plan fsp)))
                               (fsp_nsubdirs fsp)))).
Proof.
  intros Hv.
  assert (Hn : 0 < fsp_nsubdirs fsp) by (destruct Hv as (_ & _ & ? & _); lia).
  split.
  - intros c w o w' Hbody.
    apply fspopulate_body_iteration in Hbody; [|lia].
    destruct Hbody as (evs & Hit & Htr & _).
    exists evs. split_and!; [done|by eapply iteration_mkdirs|].
    intros Hb Hos [nd Hnd].
    inversion Hit as [|? ? ? _ Hft]; subst; [done|].
    unfold dir_events, mkdirp_event.
    rewrite (proj2 (Z.ltb_lt _ _) Hb), Hnd. simpl.
    eexists. split; [done|]. by eapply file_task_opens.
  - intros w w' Hdry Hrun.
    apply fspopulate_run in Hrun; [|done|lia].
    destruct Hrun as [_ [(_ & ? & _)|(_ & evs & c' & Hr & Htr)]]; [done|].
    eexists. split; [exact Htr|].
    change (mkdirp_event (fsp_path fsp) (w_fs w) :: evs)
      with ([mkdirp_event (fsp_path fsp) (w_fs w)] ++ evs).
    rewrite mkdirs_app, mkdirs_mkdirp_event. simpl. f_equal.
    pose proof (run_count _ _ _ _ _ _ _ _ _ _ Hv Hr (on_track_start _ Hv))
      as Hcount.
    destruct (run_mkdirs _ _ _ _ _ _ _ _ _ _ Hv Hr (on_track_start _ Hv))
      as [_ ->].
    rewrite Hcount. simpl. rewrite Z.sub_0_r. done.
Qed.

(** ** The tree after an iteration *)

Lemma size_at_content (fs : gmap string node) (p : string) :
  size_at fs p = Z.of_nat (length (content fs p)).
Proof. unfold size_at, content. by destruct (fs !! p) as [[|data]|]. Qed.

Lemma content_make_dir (q p : string) (fs : gmap string node) :
  content (make_dir q fs) p = content fs p.
Proof.
  unfold make_dir, content. destruct (fs !! q) eqn:E; [done|].
  destruct (decide (q = p)) as [->|Hne].
  - by rewrite lookup_insert_eq, E.
  - by rewrite lookup_insert_ne.
Qed.

Lemma content_dir_step fsp c fs p :
  content (dir_step fsp c fs) p = content fs p.
Proof.
  unfold dir_step. destruct (bi c <? fsp_nsubdirs fsp); [|done].
  apply content_make_dir.
Qed.

Lemma size_at_dir_step fsp c fs p :
  size_at (dir_step fsp c fs) p = size_at fs p.
Proof. by rewrite !size_at_content, content_dir_step. Qed.

Lemma touch_content (p : string) (fs : gmap string node) :
  openable fs p = true -> touch p fs !! p = Some (Reg (content fs p)).
Proof.
  unfold openable, touch, content.
  destruct (fs !! p) as [[|data]|] eqn:E; intros H; try done.
  by rewrite lookup_insert_eq.
Qed.

Lemma append_at_touch_lookup (p : string) (extra : list Z)
    (fs : gmap string node) :
  openable fs p = true ->
  append_at p extra (touch p fs) !! p = Some (Reg (content fs p ++ extra)).
Proof.
  intros H. unfold append_at. rewrite (touch_content p fs H).
  by rewrite lookup_insert_eq.
Qed.

Lemma make_dir_frame (q p : string) (fs : gmap string node) :
  make_dir q fs !! p = fs !! p \/
  (fs !! p = None /\ make_dir q fs !! p = Some Dir).
Proof.
  unfold make_dir. destruct (fs !! q) eqn:E; [by left|].
  destruct (decide (q = p)) as [->|Hne].
  - right. by rewrite lookup_insert_eq.
  - left. by rewrite lookup_insert_ne.
Qed.

Lemma dir_step_frame fsp c fs p :
  dir_step fsp c fs !! p = fs !! p \/
  (fs !! p = None /\ dir_step fsp c fs !! p = Some Dir).
Proof.
  unfold dir_step. destruct (bi c <? fsp_nsubdirs fsp); [|by left].
  apply make_dir_frame.
Qed.

Lemma touch_frame (p q : string) (fs : gmap string node) :
  q <> p -> touch p fs !! q = fs !! q.
Proof.
  intros Hne. unfold touch. destruct (fs !! p); [done|].
  by rewrite lookup_insert_ne.
Qed.

Lemma append_at_frame (p q : string) (extra : list Z) (fs : gmap string node) :
  q <> p -> append_at p extra fs !! q = fs !! q.
Proof.
  intros Hne. unfold append_at. destruct (fs !! p) as [[|data]|]; try done.
  by rewrite lookup_insert_ne.
Qed.

Lemma file_task_frame os buf t p e fs o evs fs' (q : string) :
  file_task os buf t p e fs o evs fs' -> q <> p -> fs' !! q = fs !! q.
Proof.
  inversion 1; subst; intros Hne; try done;
    by rewrite ?append_at_frame, ?touch_frame.
Qed.

Lemma iteration_frame os buf fsp t c fs o evs fs' (q : string) :
  iteration os buf fsp t c fs o evs fs' -> q <> task_path fsp c ->
  fs' !! q = fs !! q \/ (fs !! q = None /\ fs' !! q = Some Dir).
Proof.
  inversion 1 as [|? ? ? ? Hft]; subst; intros Hne; [by left|].
  rewrite (file_task_frame _ _ _ _ _ _ _ _ _ q Hft Hne).
  apply dir_step_frame.
Qed.

Lemma frame_content (fs fs' : gmap string node) (q : string) :
  fs' !! q = fs !! q \/ (fs !! q = None /\ fs' !! q = Some Dir) ->
  content fs' q = content fs q.
Proof. unfold content. intros [->|[-> ->]]; done. Qed.

Lemma frame_trans (fs1 fs2 fs3 : gmap string node) (q : string) :
  fs2 !! q = fs1 !! q \/ (fs1 !! q = None /\ fs2 !! q = Some Dir) ->
  fs3 !! q = fs2 !! q \/ (fs2 !! q = None /\ fs3 !! q = Some Dir) ->
  fs3 !! q = fs1 !! q \/ (fs1 !! q = None /\ fs3 !! q = Some Dir).
Proof.
  intros [H12|[H1 H2]] [H23|[H2' H3]]; try (left; congruence);
    right; split; congruence.
Qed.

Lemma run_frame os buf fsp fuel t c fs s evs c' fs' (q : string) :
  run os buf fsp fuel t c fs s evs c' fs' ->
  (forall ck, ck ∈ plan_from fuel fsp c -> q <> task_path fsp ck) ->
  fs' !! q = fs !! q \/ (fs !! q = None /\ fs' !! q = Some Dir).
Proof.
  induction 1 as [| |????????Hlt Hit|?????????? Hlt Hit Hrun IH]; intros Hq.
  - by left.
  - by left.
  - eapply iteration_frame; [done|]. apply Hq.
    simpl. rewrite (proj2 (Z.ltb_lt _ _) Hlt). apply list_elem_of_here.
  - rewrite (plan_from_unfold (S fuel)), (proj2 (Z.ltb_lt _ _) Hlt) in Hq.
    eapply frame_trans.
    + eapply iteration_frame; [done|]. apply Hq, list_elem_of_here.
    + apply IH. intros ck Hck. by apply Hq, list_elem_of_further.
Qed.

Lemma total_nonneg (rs : list Z) : Forall (fun r => 0 < r) rs -> 0 <= total rs.
Proof. induction 1; unfold total in *; simpl; lia. Qed.

Lemma total_zero (rs : list Z) :
  Forall (fun r => 0 < r) rs -> total rs <= 0 -> rs = [].
Proof.
  destruct 1 as [|r rs Hr Hrs]; [done|]. intros H.
  pose proof (total_nonneg rs Hrs). unfold total in *. simpl in H. lia.
Qed.

Lemma bytes_written_app (l1 l2 : list event) :
  bytes_written (l1 ++ l2) = bytes_written l1 + bytes_written l2.
Proof. unfold bytes_written. by rewrite fmap_app, total_app. Qed.

Lemma bytes_written_write_events (fd nbytes : Z) (rs : list Z) :
  Forall (fun r => 0 < r) rs ->
  forall nwritten,
    bytes_written (write_events fd nbytes nwritten rs) = total rs.
Proof.
  induction 1 as [|r rs Hr _ IH]; intros nw; [done|].
  simpl. unfold bytes_written in *. simpl. unfold total in *. simpl.
  rewrite IH. lia.
Qed.

Lemma bytes_written_dir_events fsp c fs :
  bytes_written (dir_events fsp c fs) = 0.
Proof.
  unfold dir_events, mkdirp_event.
  destruct (bi c <? fsp_nsubdirs fsp); [|done]. by destruct (fs !! _).
Qed.

(** The outcome of an iteration that ran to completion. *)
Lemma iteration_done os buf fsp t c fs evs fs1 :
  iteration os buf fsp t c fs None evs fs1 ->
  exists rs,
    Forall (fun r => 0 < r) rs /\
    total rs = shortfall fsp fs c /\
    fs1 !! task_path fsp c
    = Some (Reg (content fs (task_path fsp c) ++ chunks buf rs)) /\
    bytes_written evs = total rs /\
    (bi c < fsp_nsubdirs fsp -> is_Some (fs1 !! subdir_path fsp (di c))).
Proof.
  inversion 1 as [|? ? ? Hos Hft]; subst.
  inversion Hft as [| |fd rs Hos1 Hop Hfd Hos2 Hok Htot| |]; subst.
  exists rs. rewrite size_at_dir_step in *.
  assert (Hpos : Forall (fun r => 0 < r) rs) by (by eapply writes_ok_pos).
  split_and!; try done.
  - rewrite append_at_touch_lookup by done. by rewrite content_dir_step.
  - rewrite !bytes_written_app, bytes_written_dir_events,
      bytes_written_write_events by done.
    unfold bytes_written, total. simpl. lia.
  - intros Hb.
    assert (Hsub : is_Some (dir_step fsp c fs !! subdir_path fsp (di c))).
    { unfold dir_step, make_dir. rewrite (proj2 (Z.ltb_lt _ _) Hb).
      destruct (fs !! subdir_path fsp (di c)) eqn:E; [by rewrite E|].
      by rewrite lookup_insert_eq. }
    destruct Hsub as [nd Hnd].
    pose proof (file_task_extends _ _ _ _ _ _ _ _ _ Hft (subdir_path fsp (di c)))
      as Hext.
    rewrite Hnd in Hext. destruct nd; [by rewrite Hext|].
    destruct Hext as [? ->]. done.
Qed.

(** ** The tree after a run *)

Lemma task_path_inj (fsp : fspopulate_t) (c1 c2 : counters) :
  valid_config fsp -> on_track fsp c1 -> on_track fsp c2 ->
  task_path fsp c1 = task_path fsp c2 -> bi c1 = bi c2.
Proof.
  intros Hv H1 H2 Heq.
  destruct (on_track_bi_bound fsp c1 Hv H1) as (? & ? & _).
  destruct (on_track_bi_bound fsp c2 Hv H2) as (? & ? & _).
  unfold task_path in Heq. apply file_path_inj in Heq; [|done..].
  by destruct Heq.
Qed.

Lemma plan_from_paths_fresh (fsp : fspopulate_t) (fuel : nat) (c ck : counters) :
  valid_config fsp -> on_track fsp c ->
  totwritten c < fsp_totsize fsp ->
  ck ∈ plan_from fuel fsp (advance fsp c) ->
  task_path fsp c <> task_path fsp ck.
Proof.
  intros Hv Htrack Hlt Hck Heq.
  destruct (on_track_advance fsp c Hv Htrack Hlt) as [Htrack' Hbi].
  apply list_elem_of_lookup in Hck. destruct Hck as [j Hj].
  apply plan_from_lookup in Hj; [|done|done].
  destruct Hj as (Htk & Hbk & _).
  apply task_path_inj in Heq; [|done|done|done]. lia.
Qed.

Lemma shortfall_frame (fsp : fspopulate_t) (fs fs' : gmap string node)
    (c : counters) :
  content fs' (task_path fsp c) = content fs (task_path fsp c) ->
  shortfall fsp fs' c = shortfall fsp fs c.
Proof. intros H. unfold shortfall. by rewrite !size_at_content, H. Qed.

Lemma extends_is_Some (fs fs' : gmap string node) (p : string) :
  extends fs fs' -> is_Some (fs !! p) -> is_Some (fs' !! p).
Proof.
  intros Hext [nd Hnd]. specialize (Hext p). rewrite Hnd in Hext.
  destruct nd; [by rewrite Hext|]. destruct Hext as [? ->]. done.
Qed.

Lemma run_files os buf fsp fuel t c fs evs c' fs' :
  valid_config fsp ->
  run os buf fsp fuel t c fs (Returned 0) evs c' fs' ->
  on_track fsp c ->
  (forall ck, ck ∈ plan_from fuel fsp c ->
     exists extra,
       fs' !! task_path fsp ck
       = Some (Reg (content fs (task_path fsp ck) ++ extra)) /\
       Z.of_nat (length extra) = shortfall fsp fs ck /\
       (bi ck < fsp_nsubdirs fsp ->
        is_Some (fs' !! subdir_path fsp (di ck)))) /\
  bytes_written evs = total (shortfall fsp fs <$> plan_from fuel fsp c).
Proof.
  intros Hv Hrun. remember (Returned 0) as s eqn:Hs.
  induction Hrun as [| |????????Hlt Hit|?????????? Hlt Hit Hrun IH];
    intros Htrack; subst.
  - rewrite plan_from_done by done. split; [|done].
    intros ck Hck. by apply elem_of_nil in Hck.
  - done.
  - apply iteration_status in Hit. by destruct Hit.
  - destruct (on_track_advance fsp c Hv Htrack Hlt) as [Htrack' Hbi].
    destruct (IH eq_refl Htrack') as [IHfiles IHbytes]. clear IH.
    rewrite (plan_from_unfold (S fuel)), (proj2 (Z.ltb_lt _ _) Hlt).
    assert (Hframe : forall ck, ck ∈ plan_from fuel fsp (advance fsp c) ->
              content fs1 (task_path fsp ck) = content fs (task_path fsp ck)).
    { intros ck Hck. apply frame_content.
      eapply iteration_frame; [done|].
      intros Heq. symmetry in Heq. revert Heq.
      by eapply plan_from_paths_fresh. }
    destruct (iteration_done _ _ _ _ _ _ _ _ Hit)
      as (rs & Hpos & Htot & Hlook & Hbytes & Hsub).
    split.
    + intros ck Hck. apply elem_of_cons in Hck. destruct Hck as [->|Hck].
      * exists (chunks buf rs). split_and!.
        -- destruct (run_frame _ _ _ _ _ _ _ _ _ _ _ (task_path fsp c) Hrun)
             as [->|[Hnone _]]; [|done|by rewrite Hlook in Hnone].
           intros ck Hck. by eapply plan_from_paths_fresh.
        -- rewrite chunks_length; [done|].
           eapply Forall_impl; [exact Hpos|]. simpl. lia.
        -- intros Hb. eapply extends_is_Some; [by eapply run_extends|auto].
      * destruct (IHfiles ck Hck) as (extra & Hl & Hlen & Hdir).
        exists extra. rewrite <- (Hframe ck Hck).
        by rewrite <- (shortfall_frame fsp fs fs1 ck (Hframe ck Hck)).
    + rewrite bytes_written_app, Hbytes, IHbytes, Htot. simpl.
      f_equal. f_equal. apply list_fmap_ext. intros i ck Hi.
      apply shortfall_frame, Hframe. by eapply list_elem_of_lookup_2.
Qed.

Lemma plan_from_sum (fsp : fspopulate_t) (fuel : nat) :
  valid_config fsp ->
  forall c, on_track fsp c -> remaining fsp c <= Z.of_nat fuel ->
            sum_expected fsp (plan_from fuel fsp c)
            = fsp_totsize fsp - totwritten c.
Proof.
  intros Hv. induction fuel as [|fuel IH]; intros c Htrack Hfuel;
    rewrite plan_from_unfold;
    destruct (Z.ltb_spec (totwritten c) (fsp_totsize fsp)) as [Hlt|Hge].
  - pose proof (remaining_pos fsp c Hlt). lia.
  - destruct Htrack as (_ & _ & ? & _). rewrite sum_expected_nil. lia.
  - destruct (on_track_advance fsp c Hv Htrack Hlt) as [Htrack' Hbi].
    rewrite sum_expected_cons, IH; [simpl; lia|done|].
    destruct Htrack as (Hbi0 & _ & _ & Hrem).
    destruct Hv as (_ & Hb & _ & Hmax & _).
    pose proof (remaining_pos fsp c Hlt).
    pose proof (remaining_advance fsp c Hb Hbi0 ltac:(lia) Hlt). lia.
  - destruct Htrack as (_ & _ & ? & _). rewrite sum_expected_nil. lia.
Qed.

Lemma plan_sum (fsp : fspopulate_t) :
  valid_config fsp -> sum_expected fsp (plan fsp) = fsp_totsize fsp.
Proof.
  intros Hv. unfold plan. rewrite plan_from_sum; [simpl; lia|done| |].
  - by apply on_track_start.
  - destruct Hv as (Htot & _). rewrite remaining_start by done.
    pose proof (max_files_nonneg fsp). lia.
Qed.


(** ** Running on a tree that needs nothing *)

Lemma append_at_nil (p : string) (fs : gmap string node) :
  append_at p [] fs = fs.
Proof.
  unfold append_at. destruct (fs !! p) as [[|data]|] eqn:E; try done.
  rewrite app_nil_r. by apply insert_id.
Qed.

Lemma file_task_satisfied os buf t p e fs o evs fs' :
  file_task os buf t p e fs o evs fs' -> e <= size_at fs p ->
  writes evs = [] /\ (fs' = fs \/ fs' = touch p fs).
Proof.
  inversion 1 as [|fd|fd rs ????Hok Htot|fd rs ????Hok Htot|fd rs ????Hok Htot];
    subst; intros Hle; try (split; [done|by auto]).
  - assert (rs = []) as ->.
    { apply total_zero; [by eapply writes_ok_pos|lia]. }
    split; [done|]. right. apply append_at_nil.
  - pose proof (total_nonneg rs ltac:(by eapply writes_ok_pos)). lia.
  - pose proof (total_nonneg rs ltac:(by eapply writes_ok_pos)). lia.
Qed.

Lemma touch_existing (p : string) (fs : gmap string node) :
  is_Some (fs !! p) -> touch p fs = fs.
Proof. intros [nd H]. unfold touch. by rewrite H. Qed.

Lemma make_dir_existing (p : string) (fs : gmap string node) :
  is_Some (fs !! p) -> make_dir p fs = fs.
Proof. intros [nd H]. unfold make_dir. by rewrite H. Qed.

Lemma iteration_satisfied os buf fsp t c fs o evs fs' :
  iteration os buf fsp t c fs o evs fs' ->
  expected_size fsp c <= size_at fs (task_path fsp c) ->
  writes evs = [].
Proof.
  inversion 1 as [|? ? ? ? Hft]; subst; intros Hle; [done|].
  rewrite writes_app, writes_dir_events. simpl.
  eapply file_task_satisfied; [done|]. by rewrite size_at_dir_step.
Qed.

Lemma iteration_settled os buf fsp t c fs o evs fs' (data : list Z) :
  iteration os buf fsp t c fs o evs fs' ->
  (bi c < fsp_nsubdirs fsp -> is_Some (fs !! subdir_path fsp (di c))) ->
  fs !! task_path fsp c = Some (Reg data) ->
  expected_size fsp c <= Z.of_nat (length data) ->
  fs' = fs /\ writes evs = [].
Proof.
  intros Hit Hsub Hfile Hle.
  assert (Hsz : expected_size fsp c <= size_at fs (task_path fsp c)).
  { unfold size_at. by rewrite Hfile. }
  split; [|by eapply iteration_satisfied].
  inversion Hit as [|? ? ? ? Hft]; subst; [done|].
  assert (Hdir : dir_step fsp c fs = fs).
  { unfold dir_step. destruct (Z.ltb_spec (bi c) (fsp_nsubdirs fsp)); [|done].
    apply make_dir_existing. auto. }
  rewrite Hdir in Hft.
  destruct (file_task_satisfied _ _ _ _ _ _ _ _ _ Hft Hsz) as [_ [->| ->]];
    [done|].
  apply touch_existing. by rewrite Hfile.
Qed.

Lemma run_settled os buf fsp fuel t c fs s evs c' fs' :
  run os buf fsp fuel t c fs s evs c' fs' ->
  (forall ck, ck ∈ plan_from fuel fsp c ->
     (bi ck < fsp_nsubdirs fsp -> is_Some (fs !! subdir_path fsp (di ck))) /\
     exists data,
       fs !! task_path fsp ck = Some (Reg data) /\
       expected_size fsp ck <= Z.of_nat (length data)) ->
  fs' = fs /\ writes evs = [].
Proof.
  induction 1 as [| |????????Hlt Hit|?????????? Hlt Hit Hrun IH]; intros Hset.
  - done.
  - done.
  - rewrite (plan_from_unfold (S fuel)), (proj2 (Z.ltb_lt _ _) Hlt) in Hset.
    destruct (Hset c (list_elem_of_here _ _)) as [Hsub (data & Hfile & Hle)].
    by eapply iteration_settled.
  - rewrite (plan_from_unfold (S fuel)), (proj2 (Z.ltb_lt _ _) Hlt) in Hset.
    destruct (Hset c (list_elem_of_here _ _)) as [Hsub (data & Hfile & Hle)].
    destruct (iteration_settled _ _ _ _ _ _ _ _ _ data Hit Hsub Hfile Hle)
      as [-> Hw].
    destruct IH as [-> Hw'].
    { intros ck Hck. by apply Hset, list_elem_of_further. }
    split; [done|]. by rewrite writes_app, Hw, Hw'.
Qed.

Lemma bytes_written_no_writes (evs : list event) :
  writes evs = [] -> bytes_written evs = 0.
Proof.
  induction evs as [|e evs IH]; [done|].
  change (e :: evs) with ([e] ++ evs). rewrite bytes_written_app.
  unfold writes in *. rewrite filter_app.
  destruct e; simpl; try done; intros H; rewrite IH by done; done.
Qed.

Lemma shortfall_make_dir (fsp : fspopulate_t) (q : string)
    (fs : gmap string node) (c : counters) :
  shortfall fsp (make_dir q fs) c = shortfall fsp fs c.
Proof. apply shortfall_frame, content_make_dir. Qed.

Lemma fspopulate_success (buf : Z -> Z) (fsp : fspopulate_t) (w w' : world) :
  valid_config fsp -> fsp_dryrun fsp = false ->
  fspopulate buf fsp w = (Returned 0, w') ->
  exists evs c',
    run (w_os w) buf fsp (Z.to_nat (max_files fsp)) (S (tick w)) start
      (make_dir (fsp_path fsp) (w_fs w)) (Returned 0) evs c' (w_fs w') /\
    w_trace w' = rev (mkdirp_event (fsp_path fsp) (w_fs w) :: evs) ++ w_trace w.
Proof.
  intros Hv Hdry Hrun.
  apply fspopulate_run in Hrun; [|done|destruct Hv as (_ & _ & ? & _); lia].
  destruct Hrun as [_ [(_ & ? & _)|(_ & evs & c' & Hr & Htr)]]; [done|].
  eauto.
Qed.

Lemma fspopulate_settles (buf : Z -> Z) (fsp : fspopulate_t) (w w' : world) :
  valid_config fsp -> fsp_dryrun fsp = false ->
  fspopulate buf fsp w = (Returned 0, w') ->
  settled fsp (w_fs w').
Proof.
  intros Hv Hdry Hrun.
  destruct (fspopulate_success buf fsp w w' Hv Hdry Hrun)
    as (evs & c' & Hr & _).
  split.
  - eapply extends_is_Some; [by eapply run_extends|].
    unfold make_dir. destruct (w_fs w !! fsp_path fsp) eqn:E; [by rewrite E|].
    by rewrite lookup_insert_eq.
  - intros c Hc.
    destruct (run_files _ _ _ _ _ _ _ _ _ _ Hv Hr (on_track_start _ Hv))
      as [Hfiles _].
    destruct (Hfiles c Hc) as (extra & Hl & Hlen & Hdir).
    split; [done|]. eexists. split; [exact Hl|].
    rewrite length_app, Nat2Z.inj_add, Hlen, <- size_at_content.
    unfold shortfall. lia.
Qed.

Lemma fspopulate_on_settled (buf : Z -> Z) (fsp : fspopulate_t) (w : world)
    (s : status) (w' : world) :
  valid_config fsp -> settled fsp (w_fs w) ->
  fspopulate buf fsp w = (s, w') ->
  w_fs w' = w_fs w /\
  exists evs, w_trace w' = rev evs ++ w_trace w /\ writes evs = [].
Proof.
  intros Hv [Hroot Hset] Hrun. destruct (fsp_dryrun fsp) eqn:Hdry.
  { unfold fspopulate in Hrun. rewrite Hdry in Hrun. simplify_eq.
    split; [done|]. by exists []. }
  apply fspopulate_run in Hrun; [|done|destruct Hv as (_ & _ & ? & _); lia].
  destruct Hrun as [_ [(_ & _ & Hfs & Htr)|(_ & evs & c' & Hr & Htr)]].
  - split; [done|].
    exists [EvMkdirp (fsp_path fsp) (-1) EACCES]. by rewrite Htr.
  - rewrite make_dir_existing in Hr by done.
    apply run_settled in Hr; [|done]. destruct Hr as [Hfs Hw].
    split; [done|]. eexists. split; [exact Htr|].
    change (mkdirp_event (fsp_path fsp) (w_fs w) :: evs)
      with ([mkdirp_event (fsp_path fsp) (w_fs w)] ++ evs).
    by rewrite writes_app, writes_mkdirp_event, Hw.
Qed.

Lemma empty_tree_fresh (fsp : fspopulate_t) (c : counters) :
  valid_config fsp -> c ∈ plan fsp ->
  size_at ∅ (task_path fsp c) <= expected_size fsp c.
Proof.
  intros (_ & Hb & _) Hc. unfold size_at. rewrite lookup_empty.
  pose proof (plan_from_pending (Z.to_nat (max_files fsp)) fsp start) as Hp.
  rewrite Forall_forall in Hp. specialize (Hp c Hc).
  by apply expected_size_bounds.
Qed.

Lemma fspopulate_exact_sizes (buf : Z -> Z) (fsp : fspopulate_t)
    (w w' : world) :
  valid_config fsp -> fsp_dryrun fsp = false ->
  fspopulate buf fsp w = (Returned 0, w') ->
  (forall c, c ∈ plan fsp ->
             size_at (w_fs w) (task_path fsp c) <= expected_size fsp c) ->
  (forall c, c ∈ plan fsp ->
     exists data,
       w_fs w' !! task_path fsp c = Some (Reg data) /\
       Z.of_nat (length data) = expected_size fsp c) /\
  total ((fun c => size_at (w_fs w') (task_path fsp c)) <$> plan fsp)
  = fsp_totsize fsp.
Proof.
  intros Hv Hdry Hrun Hfresh.
  destruct (fspopulate_success buf fsp w w' Hv Hdry Hrun)
    as (evs & c' & Hr & Htr).
  destruct (run_files _ _ _ _ _ _ _ _ _ _ Hv Hr (on_track_start _ Hv))
    as [Hfiles _].
  assert (Hsizes : forall c, c ∈ plan fsp ->
            exists data,
              w_fs w' !! task_path fsp c = Some (Reg data) /\
              Z.of_nat (length data) = expected_size fsp c).
  { intros c Hc. destruct (Hfiles c Hc) as (extra & Hl & Hlen & _).
    eexists. split; [exact Hl|].
    rewrite shortfall_make_dir in Hlen. rewrite content_make_dir.
    rewrite length_app, Nat2Z.inj_add, Hlen, <- size_at_content.
    specialize (Hfresh c Hc). unfold shortfall. lia. }
  split; [done|].
  rewrite <- (plan_sum fsp Hv). unfold sum_expected. f_equal.
  apply list_fmap_ext. intros i c Hi.
  destruct (Hsizes c) as (data & Hl & Hlen).
  { by eapply list_elem_of_lookup_2. }
  unfold size_at. by rewrite Hl.
Qed.

(** C1: after a successful run on any tree, every planned file consists of
    what it held before followed by exactly its shortfall (expected size
    minus previous size, when positive) of new bytes, so a file already at
    its expected size receives nothing, and the bytes written in total are
    the sum of the shortfalls; an iteration whose file is already at its
    expected size makes no [write] call; and a further run on the tree a
    successful run left makes no [write] call and leaves the tree as it
    is. *)
Theorem rerun_writes_shortfall (buf : Z -> Z) (fsp : fspopulate_t)
    (w w1 : world) :
  valid_config fsp -> fsp_dryrun fsp = false ->
  fspopulate buf fsp w = (Returned 0, w1) ->
  (forall c, c ∈ plan fsp ->
     exists extra,
       w_fs w1 !! task_path fsp c
       = Some (Reg (content (w_fs w) (task_path fsp c) ++ extra)) /\
       Z.of_nat (length extra) = shortfall fsp (w_fs w) c /\
       (expected_size fsp c <= size_at (w_fs w) (task_path fsp c) ->
        extra = [])) /\
  (exists evs,
     w_trace w1 = rev evs ++ w_trace w /\
     bytes_written evs = total (shortfall fsp (w_fs w) <$> plan fsp)) /\
  (forall c w0 o w0',
     fspopulate_body buf fsp c w0 = (o, w0') ->
     expected_size fsp c <= size_at (w_fs w0) (task_path fsp c) ->
     exists evs, w_trace w0' = rev evs ++ w_trace w0 /\ writes evs = []) /\
  (forall w2 s w3,
     w_fs w2 = w_fs w1 -> fspopulate buf fsp w2 = (s, w3) ->
     w_fs w3 = w_fs w1 /\
     exists evs,
       w_trace w3 = rev evs ++ w_trace w2 /\
       writes evs = [] /\ bytes_written evs = 0).
Proof.
  intros Hv Hdry Hrun.
  assert (Hn : fsp_nsubdirs fsp <> 0) by (destruct Hv as (_ & _ & ? & _); lia).
  destruct (fspopulate_success buf fsp w w1 Hv Hdry Hrun)
    as (evs & c' & Hr & Htr).
  destruct (run_files _ _ _ _ _ _ _ _ _ _ Hv Hr (on_track_start _ Hv))
    as [Hfiles Hbytes].
  split_and!.
  - intros c Hc. destruct (Hfiles c Hc) as (extra & Hl & Hlen & _).
    rewrite content_make_dir in Hl. rewrite shortfall_make_dir in Hlen.
    exists extra. split_and!; [done|done|].
    intros Hle. apply nil_length_inv. unfold shortfall in Hlen. lia.
  - eexists. split; [exact Htr|].
    change (mkdirp_event (fsp_path fsp) (w_fs w) :: evs)
      with ([mkdirp_event (fsp_path fsp) (w_fs w)] ++ evs).
    rewrite bytes_written_app, Hbytes.
    replace (bytes_written [mkdirp_event (fsp_path fsp) (w_fs w)]) with 0
      by (unfold mkdirp_event; by destruct (w_fs w !! fsp_path fsp)).
    rewrite Z.add_0_l. f_equal. apply list_fmap_ext. intros i c _.
    apply shortfall_make_dir.
  - intros c w0 o w0' Hbody Hle.
    apply fspopulate_body_iteration in Hbody; [|done].
    destruct Hbody as (evs0 & Hit & Htr0 & _).
    exists evs0. split; [done|]. by eapply iteration_satisfied.
  - intros w2 s w3 Hfs Hrun2.
    pose proof (fspopulate_settles buf fsp w w1 Hv Hdry Hrun) as Hset.
    rewrite <- Hfs in Hset.
    destruct (fspopulate_on_settled buf fsp w2 s w3 Hv Hset Hrun2)
      as [Hfs3 (evs2 & Htr2 & Hw2)].
    split; [congruence|]. exists evs2.
    split_and!; [done|done|by apply bytes_written_no_writes].
Qed.


(** ** The writer *)

Lemma writes_ok_bounds (os : nat -> reply) (rs : list Z) :
  forall t nbytes nwritten,
    writes_ok os t nbytes nwritten rs ->
    Forall (fun r => 0 < r <= sizeof_fsp_buf) rs.
Proof.
  induction rs as [|r rs IH]; intros t nbytes nwritten H; [done|].
  destruct H as (Hlt & _ & Hr & Hpos & H). constructor; [|by eapply IH].
  split; [done|].
  pose proof (granted_range (os t) (MIN (nbytes - nwritten) sizeof_fsp_buf))
    as Hg.
  rewrite MIN_spec in *. unfold sizeof_fsp_buf in *. lia.
Qed.

Lemma chunks_from_buffer (buf : Z -> Z) (rs : list Z) :
  Forall (fun r => 0 < r <= sizeof_fsp_buf) rs ->
  Forall (fun b => exists i, 0 <= i < sizeof_fsp_buf /\ b = buf i)
    (chunks buf rs).
Proof.
  induction 1 as [|r rs Hr _ IH]; [done|].
  rewrite chunks_cons. apply Forall_app. split; [|done].
  apply Forall_fmap, Forall_seqZ. intros i Hi. simpl. exists i. split; [lia|done].
Qed.

Lemma elem_of_write_events (e : event) (fd nbytes : Z) (rs : list Z) :
  forall nwritten,
    e ∈ write_events fd nbytes nwritten rs -> exists n r, e = EvWrite fd n r.
Proof.
  induction rs as [|r rs IH]; intros nw H; simpl in H.
  - by apply elem_of_nil in H.
  - apply elem_of_cons in H. destruct H as [->|H]; [eauto|by eapply IH].
Qed.

Lemma content_touch (p : string) (fs : gmap string node) (q : string) :
  content (touch p fs) q = content fs q.
Proof.
  unfold touch, content. destruct (fs !! p) eqn:E; [done|].
  destruct (decide (p = q)) as [->|Hne].
  - by rewrite lookup_insert_eq, E.
  - by rewrite lookup_insert_ne.
Qed.

Lemma file_task_content os buf t p e fs o evs fs' :
  file_task os buf t p e fs o evs fs' ->
  exists fd rs,
    Forall (fun r => 0 < r <= sizeof_fsp_buf) rs /\
    content fs' p = content fs p ++ chunks buf rs /\
    total rs <= Z.max 0 (e - size_at fs p) /\
    (o = None ->
     total rs = Z.max 0 (e - size_at fs p) /\
     writes evs = write_events fd (e - size_at fs p) 0 rs) /\
    opens evs = [p] /\
    (forall q fl r, EvOpen q fl r ∈ evs -> q = p /\ fl = open_flags).
Proof.
  inversion 1 as [|fd|fd rs ????Hok Htot|fd rs ????Hok Htot|fd rs ????Hok Htot];
    subst.
  - exists 0, []. split_and!; try done.
    + by rewrite app_nil_r.
    + change (total []) with 0. lia.
    + intros q fl r Hin. apply list_elem_of_singleton in Hin. by simplify_eq.
  - exists fd, []. split_and!; try done.
    + by rewrite content_touch, app_nil_r.
    + change (total []) with 0. lia.
    + intros q fl r Hin. repeat (apply elem_of_cons in Hin as [Hin|Hin]);
        try by simplify_eq. by apply elem_of_nil in Hin.
  - exists fd, rs. split_and!.
    + by eapply writes_ok_bounds.
    + unfold content at 1. by rewrite append_at_touch_lookup.
    + lia.
    + intros _. split; [done|].
      rewrite !writes_app, writes_write_events. simpl.
      by rewrite app_nil_r.
    + by rewrite !opens_app, opens_write_events.
    + intros q fl r Hin.
      rewrite !elem_of_app in Hin. destruct Hin as [Hin|[Hin|Hin]].
      * repeat (apply elem_of_cons in Hin as [Hin|Hin]);
          try by simplify_eq. by apply elem_of_nil in Hin.
      * apply elem_of_write_events in Hin. by destruct Hin as (? & ? & ?).
      * apply list_elem_of_singleton in Hin. done.
  - exists fd, rs. split_and!.
    + by eapply writes_ok_bounds.
    + unfold content at 1. by rewrite append_at_touch_lookup.
    + lia.
    + done.
    + by rewrite !opens_app, opens_write_events.
    + intros q fl r Hin.
      rewrite !elem_of_app in Hin. destruct Hin as [Hin|[Hin|Hin]].
      * repeat (apply elem_of_cons in Hin as [Hin|Hin]);
          try by simplify_eq. by apply elem_of_nil in Hin.
      * apply elem_of_write_events in Hin. by destruct Hin as (? & ? & ?).
      * apply list_elem_of_singleton in Hin. done.
  - exists fd, rs. split_and!.
    + by eapply writes_ok_bounds.
    + unfold content at 1. by rewrite append_at_touch_lookup.
    + lia.
    + done.
    + by rewrite !opens_app, opens_write_events.
    + intros q fl r Hin.
      rewrite !elem_of_app in Hin. destruct Hin as [Hin|Hin].
      * repeat (apply elem_of_cons in Hin as [Hin|Hin]);
          try by simplify_eq. by apply elem_of_nil in Hin.
      * apply elem_of_write_events in Hin. by destruct Hin as (? & ? & ?).
Qed.

Lemma elem_of_dir_events (e : event) fsp c fs :
  e ∈ dir_events fsp c fs -> exists p ret errno, e = EvMkdirp p ret errno.
Proof.
  unfold dir_events, mkdirp_event.
  destruct (bi c <? fsp_nsubdirs fsp); [|by intros ?%elem_of_nil].
  intros ->%list_elem_of_singleton. destruct (fs !! _); eauto.
Qed.

(** ** Runs in which nothing fails *)

Lemma dir_step_other fsp c fs (q : string) :
  q <> subdir_path fsp (di c) -> dir_step fsp c fs !! q = fs !! q.
Proof.
  intros Hne. unfold dir_step, make_dir.
  destruct (bi c <? fsp_nsubdirs fsp); [|done].
  destruct (fs !! subdir_path fsp (di c)); [done|].
  by rewrite lookup_insert_ne.
Qed.

Lemma dir_step_made fsp c fs :
  bi c < fsp_nsubdirs fsp ->
  (forall data, fs !! subdir_path fsp (di c) <> Some (Reg data)) ->
  dir_step fsp c fs !! subdir_path fsp (di c) = Some Dir.
Proof.
  intros Hb Hnot. unfold dir_step, make_dir.
  rewrite (proj2 (Z.ltb_lt _ _) Hb).
  destruct (fs !! subdir_path fsp (di c)) as [[|data]|] eqn:E.
  - done.
  - by destruct (Hnot data).
  - by rewrite lookup_insert_eq.
Qed.

Lemma extends_dir (fs fs' : gmap string node) (p : string) :
  extends fs fs' -> fs !! p = Some Dir -> fs' !! p = Some Dir.
Proof. intros Hext Hp. specialize (Hext p). by rewrite Hp in Hext. Qed.

Lemma granted_zero (r : reply) (n : Z) :
  0 < n -> r <> Short 0 -> granted r n <> 0.
Proof.
  intros Hn Hr. destruct r as [| |k]; simpl; try lia.
  destruct (Z.leb_spec 0 k), (Z.ltb_spec k n); simpl; try lia.
  intros ->. done.
Qed.

Lemma iteration_benign os buf fsp t c fs o evs fs' :
  valid_config fsp -> benign os -> on_track fsp c ->
  tidy fsp fs -> dirs_made fsp (bi c) fs ->
  iteration os buf fsp t c fs o evs fs' ->
  o = None /\ tidy fsp fs' /\ dirs_made fsp (bi c + 1) fs'.
Proof.
  intros Hv Hben Htrack [Hfiles Hdirs] Hmade Hit.
  destruct (on_track_bi_bound fsp c Hv Htrack) as ((Hbi & _) & (Hdi & _) & Hdn).
  assert (Hdimod : di c = bi c mod fsp_nsubdirs fsp)
    by (by destruct Htrack as (_ & ? & _)).
  set (p := task_path fsp c) in *. set (sub := subdir_path fsp (di c)) in *.
  assert (Hpsub : forall d, 0 <= d -> p <> subdir_path fsp d).
  { intros d Hd. by apply file_path_ne_subdir. }
  inversion Hit as [Hb Hos|? evs' ? _ Hft]; subst.
  { by destruct (Hben t). }
  set (fsd := dir_step fsp c fs) in *.
  assert (Hfsdp : fsd !! p = fs !! p) by (apply dir_step_other; auto).
  assert (Hsubdir : fsd !! sub = Some Dir).
  { destruct (Z.lt_ge_cases (bi c) (fsp_nsubdirs fsp)) as [Hb|Hb].
    - apply dir_step_made; [done|]. intros data. by apply Hdirs.
    - unfold fsd, dir_step. rewrite (proj2 (Z.ltb_ge _ _) Hb).
      apply Hmade. lia. }
  assert (Hop : openable fsd p = true).
  { unfold openable. rewrite Hfsdp.
    destruct (fs !! p) as [[|data]|] eqn:E; [|done|].
    - by destruct (Hfiles (di c) (bi c) Hdi Hbi).
    - unfold parent_is_dir. unfold p, task_path.
      rewrite dirname_file_path by done. fold sub.
      destruct sub eqn:Esub; [done|]. by rewrite Hsubdir. }
  assert (Hext : extends fsd fs') by (by eapply file_task_extends).
  assert (Hframe : forall q, q <> p -> fs' !! q = fsd !! q).
  { intros q Hq. by eapply file_task_frame. }
  assert (Hnone : o = None).
  { inversion Hft as [Hf|fd ???Hf|fd rs
                     |fd rs ?????? Hf|fd rs ???? Hok Htot ? Hz]; subst.
    - destruct Hf as [Hf|Hf]; [by destruct (Hben (t + length
        (dir_events fsp c fs))%nat)|fold p in Hf; congruence].
    - by destruct (Hben (S (t + length (dir_events fsp c fs)))).
    - done.
    - by destruct (Hben (S (S (t + length (dir_events fsp c fs)))
                         + length rs)%nat).
    - exfalso. revert Hz. apply granted_zero.
      + rewrite MIN_spec. unfold sizeof_fsp_buf. lia.
      + apply Hben. }
  subst o. split; [done|].
  assert (Hreg : exists data, fs' !! p = Some (Reg data)).
  { inversion Hft; subst. rewrite append_at_touch_lookup by done. eauto. }
  split; [split|].
  - intros d b Hd Hb'. destruct (decide (file_path fsp d b = p)) as [->|Hne].
    + destruct Hreg as [data ->]. done.
    + rewrite Hframe by done. unfold fsd.
      rewrite dir_step_other; [by apply Hfiles|].
      by apply file_path_ne_subdir.
  - intros d data Hd. rewrite Hframe by (intros Heq; by eapply Hpsub).
    destruct (decide (subdir_path fsp d = sub)) as [->|Hne].
    + by rewrite Hsubdir.
    + unfold fsd. rewrite dir_step_other by done. by apply Hdirs.
  - intros d Hd. apply (extends_dir fsd); [done|].
    destruct (Z.lt_ge_cases d (bi c)) as [Hlt|Hge].
    + eapply extends_dir; [apply extends_dir_step|]. apply Hmade. lia.
    + assert (d = bi c) as -> by lia.
      replace (bi c) with (di c) at 1; [done|].
      rewrite Hdimod. apply Z.mod_small. lia.
Qed.

Lemma run_benign os buf fsp fuel t c fs s evs c' fs' :
  valid_config fsp -> benign os ->
  run os buf fsp fuel t c fs s evs c' fs' ->
  on_track fsp c -> tidy fsp fs -> dirs_made fsp (bi c) fs ->
  remaining fsp c <= Z.of_nat fuel ->
  s = Returned 0 /\ tidy fsp fs' /\ dirs_made fsp (bi c') fs'.
Proof.
  intros Hv Hben.
  induction 1 as [| |????????Hlt Hit|?????????? Hlt Hit Hrun IH];
    intros Htrack Htidy Hmade Hfuel.
  - done.
  - pose proof (remaining_pos fsp c ltac:(done)). lia.
  - by destruct (iteration_benign _ _ _ _ _ _ _ _ _ Hv (Hben) Htrack Htidy
                   Hmade Hit).
  - destruct (iteration_benign _ _ _ _ _ _ _ _ _ Hv (Hben) Htrack Htidy
                Hmade Hit) as (_ & Htidy1 & Hmade1).
    destruct (on_track_advance fsp c Hv Htrack Hlt) as [Htrack' Hbi].
    apply IH; [done|done|by rewrite Hbi|].
    destruct Htrack as (Hbi0 & _ & _ & Hrem).
    destruct Hv as (_ & Hb & _ & Hmax & _).
    pose proof (remaining_pos fsp c Hlt).
    pose proof (remaining_advance fsp c Hb Hbi0 ltac:(lia) Hlt). lia.
Qed.

Lemma tidy_make_root (fsp : fspopulate_t) (fs : gmap string node) :
  valid_config fsp -> tidy fsp fs -> tidy fsp (make_dir (fsp_path fsp) fs).
Proof.
  intros Hv [Hfiles Hdirs]. unfold make_dir.
  destruct (fs !! fsp_path fsp); [done|]. split.
  - intros d b Hd Hb. rewrite lookup_insert_ne; [by apply Hfiles|].
    intros Heq. symmetry in Heq. revert Heq. by apply file_path_ne_root.
  - intros d data Hd. rewrite lookup_insert_ne; [by apply Hdirs|].
    intros Heq. symmetry in Heq. revert Heq. by apply subdir_path_ne_root.
Qed.

Lemma tidy_empty (fsp : fspopulate_t) : tidy fsp ∅.
Proof. split; intros; by rewrite lookup_empty. Qed.

Lemma fspopulate_benign (buf : Z -> Z) (fsp : fspopulate_t) (w : world) :
  valid_config fsp -> fsp_dryrun fsp = false ->
  benign (w_os w) -> tidy fsp (w_fs w) ->
  exists w',
    fspopulate buf fsp w = (Returned 0, w') /\
    dirs_made fsp (Z.of_nat (length (plan fsp))) (w_fs w').
Proof.
  intros Hv Hdry Hben Htidy.
  assert (Hn : fsp_nsubdirs fsp <> 0) by (destruct Hv as (_ & _ & ? & _); lia).
  destruct (fspopulate buf fsp w) as [s w'] eqn:Hrun. exists w'.
  pose proof Hrun as Hrun'.
  apply fspopulate_run in Hrun'; [|done|done].
  destruct Hrun' as [_ [(Hos & _)|(_ & evs & c' & Hr & Htr)]].
  { by destruct (Hben (tick w)). }
  pose proof Hr as Hr'.
  apply run_benign in Hr'; try done.
  - destruct Hr' as (-> & _ & Hmade). split; [done|].
    rewrite (run_count _ _ _ _ _ _ _ _ _ _ Hv Hr (on_track_start _ Hv))
      in Hmade.
    by simpl in Hmade.
  - by apply on_track_start.
  - by apply tidy_make_root.
  - intros d Hd. simpl in Hd. lia.
  - destruct Hv as (Htot & _). rewrite remaining_start by done.
    pose proof (max_files_nonneg fsp). lia.
Qed.

(** ** What an iteration does when nothing fails *)

Lemma iteration_opens_file os buf fsp t c fs o evs fs' :
  iteration os buf fsp t c fs o evs fs' ->
  (bi c < fsp_nsubdirs fsp -> os t <> Error) ->
  opens evs = [task_path fsp c].
Proof.
  inversion 1 as [Hbi Herr|? ? ? ? Hft]; subst; intros Hok.
  - by destruct (Hok Hbi).
  - rewrite opens_app, opens_dir_events. by apply file_task_opens in Hft.
Qed.

Lemma iteration_progress os buf fsp t c fs o evs fs' :
  benign os ->
  openable (dir_step fsp c fs) (task_path fsp c) = true ->
  iteration os buf fsp t c fs o evs fs' -> o = None.
Proof.
  intros Hben Hop Hit.
  inversion Hit as [Hbi Herr|? ? ? ? Hft]; subst.
  - by destruct (Hben t).
  - inversion Hft as [[Herr|Hno]|? ? ? ? Herr| |? ? ? ? ? ? ? Hlt Herr
                     |? ? ? ? ? ? ? Hlt ? Hz]; subst.
    + by destruct (Hben (t + length (dir_events fsp c fs))%nat).
    + by rewrite Hop in Hno.
    + by destruct (Hben (S (t + length (dir_events fsp c fs)))).
    + done.
    + by destruct (Hben (S (S (t + length (dir_events fsp c fs)))
                         + length rs)%nat).
    + exfalso. revert Hz. apply granted_zero.
      * rewrite MIN_spec. unfold sizeof_fsp_buf. lia.
      * apply Hben.
Qed.


(** C5: the writer opens each planned file with [O_APPEND] and without
    [O_TRUNC]; whatever the outcome of the iteration, every file keeps its
    previous bytes as a prefix and only the planned file can grow, by bytes
    taken from the fill buffer; each [write] asks for the smaller of the
    bytes still missing and the buffer length; when the iteration
    completes, exactly the shortfall (expected size minus current size, if
    positive) has been appended; and when the shortfall is zero or
    negative no [write] is made and the file keeps its contents, so a file
    larger than expected is left as it is.  The iteration does open and
    fill the file: unless its [mkdirp] fails it calls [open] on the
    planned file, once; and when no system call fails, no [write] returns
    0 and the file can be opened, it completes, the file ending as its
    previous bytes followed by exactly the shortfall. *)
Theorem append_only_writer (buf : Z -> Z) (fsp : fspopulate_t) (c : counters)
    (w : world) (o : option status) (w' : world) :
  fsp_nsubdirs fsp <> 0 ->
  fspopulate_body buf fsp c w = (o, w') ->
  let p := task_path fsp c in
  let nbytes := expected_size fsp c - size_at (w_fs w) p in
  has_flag open_flags O_APPEND = true /\
  has_flag open_flags O_TRUNC = false /\
  extends (w_fs w) (w_fs w') /\
  (forall q, q <> p -> content (w_fs w') q = content (w_fs w) q) /\
  exists evs fd rs,
    w_trace w' = rev evs ++ w_trace w /\
    (forall q fl r, EvOpen q fl r ∈ evs -> q = p /\ fl = open_flags) /\
    Forall (fun r => 0 < r <= sizeof_fsp_buf) rs /\
    content (w_fs w') p = content (w_fs w) p ++ chunks buf rs /\
    Forall (fun b => exists i, 0 <= i < sizeof_fsp_buf /\ b = buf i)
      (chunks buf rs) /\
    total rs <= Z.max 0 nbytes /\
    (o = None ->
     total rs = Z.max 0 nbytes /\
     Z.of_nat (length (chunks buf rs)) = Z.max 0 nbytes /\
     writes evs = write_events fd nbytes 0 rs) /\
    (nbytes <= 0 ->
     rs = [] /\ writes evs = [] /\
     content (w_fs w') p = content (w_fs w) p) /\
    ((bi c < fsp_nsubdirs fsp -> w_os w (tick w) <> Error) ->
     opens evs = [p]) /\
    (benign (w_os w) -> openable (dir_step fsp c (w_fs w)) p = true ->
     o = None /\ opens evs = [p] /\
     content (w_fs w') p = content (w_fs w) p ++ chunks buf rs /\
     Z.of_nat (length (chunks buf rs)) = Z.max 0 nbytes).
Proof.
  intros Hn Hbody p nbytes.
  apply fspopulate_body_iteration in Hbody; [|done].
  destruct Hbody as (evs & Hit & Htr & _).
  split_and!; [done|done|by eapply iteration_extends| |].
  { intros q Hq. apply frame_content. by eapply iteration_frame. }
  pose proof (iteration_opens_file _ _ _ _ _ _ _ _ _ Hit) as Hopen1.
  pose proof (fun Hben Hop => iteration_progress _ _ _ _ _ _ _ _ _ Hben Hop Hit)
    as Hprog.
  fold p in Hopen1, Hprog.
  inversion Hit as [Hbi Herr|? evs' ? ? Hft]; subst.
  - exists [EvMkdirp (subdir_path fsp (di c)) (-1) EACCES], 0, [].
    split_and!; try done.
    + intros q fl r Hin. by apply list_elem_of_singleton in Hin.
    + by rewrite app_nil_r.
    + change (total []) with 0. lia.
    + intros Hben. by destruct (Hben (tick w)).
  - destruct (file_task_content _ _ _ _ _ _ _ _ _ Hft)
      as (fd & rs & Hb & Hcont & Htot & Hdone & _ & Hopens).
    rewrite size_at_dir_step, content_dir_step in *.
    fold p in Hcont, Htot, Hdone, Hopens. fold nbytes in Htot, Hdone.
    assert (Hpos : Forall (fun r => 0 < r) rs).
    { eapply Forall_impl; [exact Hb|]. simpl. lia. }
    exists (dir_events fsp c (w_fs w) ++ evs'), fd, rs.
    split_and!; try done.
    + intros q fl r Hin. apply elem_of_app in Hin. destruct Hin as [Hin|Hin].
      * apply elem_of_dir_events in Hin. by destruct Hin as (? & ? & ? & ?).
      * by eapply Hopens.
    + by apply chunks_from_buffer.
    + intros ->. destruct (Hdone eq_refl) as [Ht Hw]. split_and!; [done| |].
      * rewrite chunks_length; [done|].
        eapply Forall_impl; [exact Hpos|]. simpl. lia.
      * by rewrite writes_app, writes_dir_events.
    + intros Hle.
      assert (rs = []) as -> by (apply total_zero; [done|lia]).
      split_and!; [done| |by rewrite Hcont, app_nil_r].
      eapply iteration_satisfied; [exact Hit|]. fold p. lia.
    + intros Hben Hop. pose proof (Hprog Hben Hop) as ->.
      destruct (Hdone eq_refl) as [Ht _]. split_and!; [done| |done|].
      * apply Hopen1. intros _. by destruct (Hben (tick w)).
      * rewrite chunks_length; [done|].
        eapply Forall_impl; [exact Hpos|]. simpl. lia.
Qed.

(** ** The default policy on a total below 1024 bytes *)

Lemma small_config (totsz : Z) (path : string) :
  0 < totsz < 1024 -> Z.of_nat (String.length path) + 30 <= PATH_MAX ->
  fsp_path (main_config totsz path) = path /\
  fsp_totsize (main_config totsz path) = totsz /\
  fsp_bulksize (main_config totsz path) = 0 /\
  max_files (main_config totsz path) = 769 /\
  valid_config (main_config totsz path).
Proof.
  intros Hsz Hlen.
  assert (Hpath : fsp_path (main_config totsz path) = path).
  { simpl. apply snprintf_fits. lia. }
  assert (Htot : fsp_totsize (main_config totsz path) = totsz).
  { simpl. apply to_off_t_small. lia. }
  assert (Hbulk : fsp_bulksize (main_config totsz path) = 0).
  { simpl. rewrite Z.div_small by lia. done. }
  assert (Hmax : max_files (main_config totsz path) = 769).
  { unfold max_files. rewrite Htot. simpl fsp_nbulk.
    rewrite (Z.max_r 0 totsz) by lia.
    assert ((totsz + sizeof_fsp_buf - 1) / sizeof_fsp_buf = 1) as ->; [|done].
    symmetry. apply (Z.div_unique _ _ 1 (totsz - 1)); unfold sizeof_fsp_buf; lia. }
  split_and!; try done.
  unfold valid_config. rewrite Htot, Hbulk, Hmax, Hpath.
  simpl fsp_nsubdirs. unfold INT_MAX. lia.
Qed.

Lemma small_plan_from (totsz : Z) (path : string) (n : nat) :
  0 < totsz < 1024 -> Z.of_nat (String.length path) + 30 <= PATH_MAX ->
  forall i, 0 <= i -> i + Z.of_nat n = 768 ->
    plan_from (S n) (main_config totsz path)
      {| totwritten := 0; di := i mod 256; bi := i |}
    = (fun i => {| totwritten := 0; di := i mod 256; bi := i |})
        <$> seqZ i (Z.of_nat n + 1).
Proof.
  intros Hsz Hlen.
  destruct (small_config totsz path Hsz Hlen) as (_ & Htot & Hbulk & _ & _).
  induction n as [|n IH]; intros i Hi Hsum.
  - rewrite (plan_from_unfold 1). cbn [totwritten]. rewrite Htot.
    rewrite (proj2 (Z.ltb_lt 0 totsz)) by lia.
    rewrite (plan_from_unfold 0).
    destruct (_ <? _); by rewrite seqZ_cons, seqZ_nil by lia.
  - rewrite (plan_from_unfold (S (S n))). cbn [totwritten]. rewrite Htot.
    rewrite (proj2 (Z.ltb_lt 0 totsz)) by lia.
    rewrite (seqZ_cons i) by lia. rewrite fmap_cons. f_equal.
    replace (Z.pred (Z.of_nat (S n) + 1)) with (Z.of_nat n + 1) by lia.
    rewrite <- IH by lia. f_equal.
    unfold advance, expected_size, nominal_size. cbn [totwritten di bi].
    rewrite Hbulk, Htot. simpl fsp_nbulk. simpl fsp_nsubdirs.
    rewrite (proj2 (Z.ltb_lt i 768)) by lia.
    rewrite MIN_spec, Z.min_l by lia.
    rewrite to_int_small by (unfold INT_MAX; lia).
    rewrite Z.rem_mod_nonneg
      by (pose proof (Z.mod_pos_bound i 256 ltac:(lia)); lia).
    rewrite Zplus_mod_idemp_l. f_equal.
Qed.

Lemma small_plan (totsz : Z) (path : string) :
  0 < totsz < 1024 -> Z.of_nat (String.length path) + 30 <= PATH_MAX ->
  plan (main_config totsz path)
  = (fun i => {| totwritten := 0; di := i mod 256; bi := i |}) <$> seqZ 0 769.
Proof.
  intros Hsz Hlen. unfold plan.
  destruct (small_config totsz path Hsz Hlen) as (_ & _ & _ & -> & _).
  change (Z.to_nat 769) with (S 768).
  change start with {| totwritten := 0; di := 0 mod 256; bi := 0 |}.
  by rewrite (small_plan_from totsz path 768) by (done || lia).
Qed.

(** C10: under the default policy with a total between 1 and 1023 bytes,
    on an empty tree and with no failing system call, the bulk size is 0,
    the plan is 768 files of expected size 0 followed by one file, of
    index 768 in directory 0, of expected size [totsz]; the run exits with
    status 0 after attempting the root and the 256 subdirectories and
    opening the 769 files in plan order; it leaves the 768 bulk files
    empty, the last file with exactly [totsz] bytes and all 256
    subdirectories, and the sizes add up to [totsz]. *)
Theorem tiny_total_default_policy (g : generator) (totsz : Z) (path : string)
    (w : world) :
  0 < totsz < 1024 -> Z.of_nat (String.length path) + 30 <= PATH_MAX ->
  w_fs w = ∅ -> benign (w_os w) ->
  let fsp := main_config totsz path in
  fsp_bulksize fsp = 0 /\
  plan fsp
  = (fun i => {| totwritten := 0; di := i mod 256; bi := i |})
      <$> seqZ 0 769 /\
  (forall c, c ∈ plan fsp ->
             expected_size fsp c = if bi c <? 768 then 0 else totsz) /\
  exists w',
    main g totsz path w = (Returned EXIT_SUCCESS, w') /\
    (exists evs,
       w_trace w' = rev evs ++ w_trace w /\
       opens evs = task_path fsp <$> plan fsp /\
       mkdirs evs = path :: (subdir_path fsp <$> seqZ 0 256)) /\
    (forall i, 0 <= i < 768 ->
               w_fs w' !! file_path fsp (i mod 256) i = Some (Reg [])) /\
    (exists data,
       w_fs w' !! file_path fsp 0 768 = Some (Reg data) /\
       Z.of_nat (length data) = totsz) /\
    (forall d, 0 <= d < 256 -> w_fs w' !! subdir_path fsp d = Some Dir) /\
    total ((fun c => size_at (w_fs w') (task_path fsp c)) <$> plan fsp)
    = totsz.
Proof.
  intros Hsz Hlen Hempty Hben fsp.
  destruct (small_config totsz path Hsz Hlen)
    as (Hpath & Htot & Hbulk & Hmax & Hv).
  fold fsp in Hpath, Htot, Hbulk, Hmax, Hv.
  pose proof (small_plan totsz path Hsz Hlen) as Hplan. fold fsp in Hplan.
  assert (Hexp : forall c, c ∈ plan fsp ->
            expected_size fsp c = if bi c <? 768 then 0 else totsz).
  { intros c Hc. rewrite Hplan in Hc.
    apply list_elem_of_fmap in Hc. destruct Hc as (i & -> & Hi).
    apply elem_of_seqZ in Hi. unfold expected_size, nominal_size.
    cbn [bi totwritten]. rewrite Hbulk, Htot, MIN_spec.
    change (fsp_nbulk fsp) with 768.
    destruct (Z.ltb_spec i 768); lia. }
  split_and!; [done|done|done|].
  assert (Hdry : fsp_dryrun fsp = false) by done.
  assert (Htidy : tidy fsp (w_fs w)) by (rewrite Hempty; apply tidy_empty).
  destruct (fspopulate_benign
              (init_buffer g (fun _ => 0) sizeof_fsp_buf) fsp w Hv Hdry Hben
              Htidy)
    as (w' & Hrun & Hmade).
  exists w'.
  assert (Hfresh : forall c, c ∈ plan fsp ->
            size_at (w_fs w) (task_path fsp c) <= expected_size fsp c).
  { intros c Hc. unfold size_at. rewrite Hempty, lookup_empty.
    rewrite (Hexp c Hc). destruct (bi c <? 768); lia. }
  destruct (fspopulate_exact_sizes _ fsp w w' Hv Hdry Hrun Hfresh)
    as [Hsizes Hsum].
  destruct (fspopulate_success _ fsp w w' Hv Hdry Hrun)
    as (evs & c' & Hr & Htr).
  assert (Hin : forall i, 0 <= i < 769 ->
            {| totwritten := 0; di := i mod 256; bi := i |} ∈ plan fsp).
  { intros i Hi. rewrite Hplan.
    apply (list_elem_of_fmap_2
             (fun i => {| totwritten := 0; di := i mod 256; bi := i |})).
    apply elem_of_seqZ. lia. }
  split_and!.
  - unfold main. fold fsp. by rewrite Hrun.
  - eexists. split; [exact Htr|].
    change (mkdirp_event (fsp_path fsp) (w_fs w) :: evs)
      with ([mkdirp_event (fsp_path fsp) (w_fs w)] ++ evs).
    rewrite opens_app, opens_mkdirp_event, mkdirs_app, mkdirs_mkdirp_event.
    split.
    + apply run_opens in Hr. by apply Hr.
    + rewrite Hpath. cbn [app]. f_equal.
      pose proof (run_count _ _ _ _ _ _ _ _ _ _ Hv Hr (on_track_start _ Hv))
        as Hcount.
      destruct (run_mkdirs _ _ _ _ _ _ _ _ _ _ Hv Hr (on_track_start _ Hv))
        as [_ ->].
      rewrite Hcount. fold (plan fsp). rewrite Hplan.
      rewrite length_fmap, length_seqZ. done.
  - intros i Hi. destruct (Hsizes _ (Hin i ltac:(lia))) as (data & Hl & Hd).
    rewrite (Hexp _ (Hin i ltac:(lia))) in Hd. cbn [bi] in Hd.
    rewrite (proj2 (Z.ltb_lt i 768)) in Hd by lia.
    unfold task_path in Hl. cbn [di bi] in Hl. rewrite Hl.
    destruct data; [done|simpl in Hd; lia].
  - destruct (Hsizes _ (Hin 768 ltac:(lia))) as (data & Hl & Hd).
    rewrite (Hexp _ (Hin 768 ltac:(lia))) in Hd.
    exists data. split; [exact Hl|exact Hd].
  - intros d Hd. apply Hmade. rewrite Hplan, length_fmap, length_seqZ.
    change (fsp_nsubdirs fsp) with 256. lia.
  - by rewrite Hsum.
Qed.

(** ** The fill buffer *)

Lemma init_buffer_loop_spec (g : generator) (n : nat) :
  forall (i : Z) (s : prng g) (bufp : Z -> Z) (j : Z),
    init_buffer_loop g n i s bufp j =
      if (i <=? j) && (j <? i + Z.of_nat n)
      then to_char (fst (rand g (Nat.iter (Z.to_nat (j - i))
                                   (fun s => snd (rand g s)) s)))
      else bufp j.
Proof.
  induction n as [|n IH]; intros i s bufp j.
  - cbn [init_buffer_loop].
    destruct (Z.leb_spec i j), (Z.ltb_spec j (i + Z.of_nat 0)); simpl;
      try done; lia.
  - cbn [init_buffer_loop]. destruct (rand g s) as [r s'] eqn:Hr.
    rewrite IH. unfold store.
    destruct (Z.leb_spec (i + 1) j), (Z.ltb_spec j (i + 1 + Z.of_nat n)),
      (Z.leb_spec i j), (Z.ltb_spec j (i + Z.of_nat (S n))),
      (Z.eqb_spec j i); simpl; try lia; try done.
    + replace (Z.to_nat (j - i)) with (S (Z.to_nat (j - (i + 1)))) by lia.
      rewrite Nat.iter_succ_r. by rewrite Hr.
    + subst j. rewrite Z.sub_diag. simpl. by rewrite Hr.
Qed.

Lemma init_buffer_fill_pattern (g : generator) (bufsz j : Z) :
  init_buffer g (fun _ => 0) bufsz j = fill_pattern g bufsz j.
Proof.
  unfold init_buffer, fill_pattern, rand_nth.
  rewrite init_buffer_loop_spec, Z.sub_0_r, Z.add_0_l.
  destruct (Z.leb_spec 0 j), (Z.ltb_spec j (Z.of_nat (Z.to_nat bufsz))),
    (Z.ltb_spec j bufsz); simpl; try done; lia.
Qed.

(** The program reads its buffer only through its bytes. *)
Lemma write_ext (buf1 buf2 : Z -> Z) (fd n : Z) (w : world) :
  (forall i, buf1 i = buf2 i) -> write fd buf1 n w = write fd buf2 n w.
Proof.
  intros H. unfold write.
  assert (Hm : forall k, buf1 <$> seqZ 0 k = buf2 <$> seqZ 0 k).
  { intros k. apply list_fmap_ext. auto. }
  destruct (w_os w (tick w)); try done;
    destruct (w_fdtab w !! fd); try done;
    destruct (w_fs w !! _) as [[|data]|]; try done;
    destruct (of_writable _); try done; by rewrite Hm.
Qed.

Lemma populate_file_loop_ext (buf1 buf2 : Z -> Z) (fd nbytes : Z) (fuel : nat) :
  (forall i, buf1 i = buf2 i) ->
  forall nwritten w,
    populate_file_loop fuel buf1 fd nbytes nwritten w
    = populate_file_loop fuel buf2 fd nbytes nwritten w.
Proof.
  intros H. induction fuel as [|fuel IH]; intros nw w; simpl; [done|].
  destruct (nw <? nbytes); [|done].
  rewrite (write_ext buf1 buf2) by done.
  destruct (write fd buf2 _ w) as [r w1].
  destruct (r =? 0); [done|]. destruct (r =? -1); [done|]. apply IH.
Qed.

Lemma fspopulate_body_ext (buf1 buf2 : Z -> Z) fsp c w :
  (forall i, buf1 i = buf2 i) ->
  fspopulate_body buf1 fsp c w = fspopulate_body buf2 fsp c w.
Proof.
  intros H. unfold fspopulate_body, populate_file.
  destruct (if bi c <? fsp_nsubdirs fsp then _ else _) as [failed w1].
  destruct failed; [done|]. destruct (fsp_nsubdirs fsp =? 0); [done|].
  destruct (open _ _ w1) as [fd w2]. destruct (fd <? 0); [done|].
  destruct (fstat fd w2) as [[ret sz] w3]. destruct (negb _); [done|].
  by rewrite (populate_file_loop_ext buf1 buf2).
Qed.

Lemma fspopulate_loop_ext (buf1 buf2 : Z -> Z) fsp (fuel : nat) :
  (forall i, buf1 i = buf2 i) ->
  forall c w,
    fspopulate_loop fuel buf1 fsp c w = fspopulate_loop fuel buf2 fsp c w.
Proof.
  intros H. induction fuel as [|fuel IH]; intros c w; simpl; [done|].
  destruct (totwritten c <? fsp_totsize fsp); [|done].
  rewrite (fspopulate_body_ext buf1 buf2) by done.
  destruct (fspopulate_body buf2 fsp c w) as [[st|] w1]; [done|]. apply IH.
Qed.

Lemma fspopulate_ext (buf1 buf2 : Z -> Z) fsp w :
  (forall i, buf1 i = buf2 i) ->
  fspopulate buf1 fsp w = fspopulate buf2 fsp w.
Proof.
  intros H. unfold fspopulate. destruct (fsp_dryrun fsp); [done|].
  destruct (mkdirp _ w) as [[ret errno] w1].
  destruct (_ && _); [done|].
  by rewrite (fspopulate_loop_ext buf1 buf2).
Qed.

(** [main] with the contents of the buffer written out. *)
Lemma main_fill_pattern (g : generator) (totsz : Z) (path : string)
    (w : world) :
  main g totsz path w =
    let '(s, w) :=
      fspopulate (fill_pattern g sizeof_fsp_buf) (main_config totsz path) w in
    match s with
    | Returned rv =>
        (Returned (if rv =? 0 then EXIT_SUCCESS else EXIT_FAILURE), w)
    | stopped => (stopped, w)
    end.
Proof.
  unfold main.
  rewrite (fspopulate_ext _ (fill_pattern g sizeof_fsp_buf)); [done|].
  intros i. apply init_buffer_fill_pattern.
Qed.

(** ** Two runs on the same tree *)

Lemma same_shape_refl (fs : gmap string node) : same_shape fs fs.
Proof. done. Qed.

Lemma same_shape_size (fs1 fs2 : gmap string node) (p : string) :
  same_shape fs1 fs2 -> size_at fs1 p = size_at fs2 p.
Proof.
  intros H. specialize (H p). unfold size_at.
  destruct (fs1 !! p) as [[|d1]|], (fs2 !! p) as [[|d2]|];
    simplify_eq/=; try done. congruence.
Qed.

Lemma same_shape_make_dir (q : string) (fs1 fs2 : gmap string node) :
  same_shape fs1 fs2 -> same_shape (make_dir q fs1) (make_dir q fs2).
Proof.
  intros H p. unfold make_dir. pose proof (H q) as Hq.
  destruct (fs1 !! q) eqn:E1, (fs2 !! q) eqn:E2; simplify_eq/=; try done.
  destruct (decide (q = p)) as [->|Hne].
  - by rewrite !lookup_insert_eq.
  - by rewrite !lookup_insert_ne.
Qed.

Lemma same_shape_dir_step fsp c (fs1 fs2 : gmap string node) :
  same_shape fs1 fs2 -> same_shape (dir_step fsp c fs1) (dir_step fsp c fs2).
Proof.
  intros H. unfold dir_step. destruct (bi c <? fsp_nsubdirs fsp); [|done].
  by apply same_shape_make_dir.
Qed.

Lemma same_shape_touch (q : string) (fs1 fs2 : gmap string node) :
  same_shape fs1 fs2 -> same_shape (touch q fs1) (touch q fs2).
Proof.
  intros H p. unfold touch. pose proof (H q) as Hq.
  destruct (fs1 !! q) eqn:E1, (fs2 !! q) eqn:E2; simplify_eq/=; try done.
  destruct (decide (q = p)) as [->|Hne].
  - by rewrite !lookup_insert_eq.
  - by rewrite !lookup_insert_ne.
Qed.

Lemma same_shape_append_at (q : string) (x1 x2 : list Z)
    (fs1 fs2 : gmap string node) :
  same_shape fs1 fs2 -> length x1 = length x2 ->
  same_shape (append_at q x1 fs1) (append_at q x2 fs2).
Proof.
  intros H Hlen p. unfold append_at. pose proof (H q) as Hq.
  destruct (fs1 !! q) as [[|d1]|] eqn:E1, (fs2 !! q) as [[|d2]|] eqn:E2;
    simplify_eq/=; try done.
  destruct (decide (q = p)) as [->|Hne].
  - rewrite !lookup_insert_eq. simpl. rewrite !length_app. congruence.
  - by rewrite !lookup_insert_ne.
Qed.

Lemma iteration_same_shape os1 os2 buf fsp t1 t2 c fs1 fs2 evs1 evs2 fs1' fs2' :
  iteration os1 buf fsp t1 c fs1 None evs1 fs1' ->
  iteration os2 buf fsp t2 c fs2 None evs2 fs2' ->
  same_shape fs1 fs2 -> same_shape fs1' fs2'.
Proof.
  intros H1 H2 Hs.
  inversion H1 as [|? ? ? _ Hft1]; subst.
  inversion H2 as [|? ? ? _ Hft2]; subst.
  inversion Hft1 as [| |fd1 rs1 ???? Hok1 Htot1| |]; subst.
  inversion Hft2 as [| |fd2 rs2 ???? Hok2 Htot2| |]; subst.
  apply same_shape_append_at.
  - by apply same_shape_touch, same_shape_dir_step.
  - apply Nat2Z.inj. rewrite !chunks_length.
    + rewrite Htot1, Htot2.
      by rewrite (same_shape_size _ _ _ (same_shape_dir_step fsp c _ _ Hs)).
    + eapply Forall_impl; [by eapply writes_ok_pos|]. simpl. lia.
    + eapply Forall_impl; [by eapply writes_ok_pos|]. simpl. lia.
Qed.

(** An iteration that leaves the function does not return 0. *)
Ltac no_early_success :=
  match goal with
  | H : iteration _ _ _ _ _ _ (Some (Returned 0)) _ _ |- _ =>
      apply iteration_status in H; by destruct H
  end.

Lemma run_same_shape os1 os2 buf fsp fuel t1 c fs1 evs1 c1 fs1' :
  run os1 buf fsp fuel t1 c fs1 (Returned 0) evs1 c1 fs1' ->
  forall t2 fs2 evs2 c2 fs2',
    run os2 buf fsp fuel t2 c fs2 (Returned 0) evs2 c2 fs2' ->
    same_shape fs1 fs2 -> same_shape fs1' fs2'.
Proof.
  intros Hrun. remember (Returned 0) as s eqn:Hs.
  induction Hrun as [| |????????Hlt Hit|?????????? Hlt Hit Hrun IH];
    intros t2 fs2 evs2 c2 fs2' Hrun2 Hsh; subst.
  - inversion Hrun2; subst; try done; try lia; no_early_success.
  - done.
  - apply iteration_status in Hit. by destruct Hit.
  - inversion Hrun2; subst; try lia; try no_early_success.
    eapply IH; [done|eassumption|]. by eapply iteration_same_shape.
Qed.

Lemma full_writes_app (l1 l2 : list event) :
  full_writes (l1 ++ l2) <-> full_writes l1 /\ full_writes l2.
Proof.
  unfold full_writes. split.
  - intros H. split; intros fd n r Hin; apply (H fd); apply elem_of_app; auto.
  - intros [H1 H2] fd n r Hin. apply elem_of_app in Hin.
    destruct Hin; [by eapply H1|by eapply H2].
Qed.

Lemma full_writes_unique (fd1 fd2 nbytes : Z) (rs1 : list Z) :
  forall rs2 nwritten,
    full_writes (write_events fd1 nbytes nwritten rs1) ->
    full_writes (write_events fd2 nbytes nwritten rs2) ->
    Forall (fun r => 0 < r) rs1 -> Forall (fun r => 0 < r) rs2 ->
    total rs1 = total rs2 -> rs1 = rs2.
Proof.
  induction rs1 as [|r1 rs1 IH]; intros [|r2 rs2] nw Hf1 Hf2 Hp1 Hp2 Htot.
  - done.
  - symmetry. apply total_zero; [done|].
    change (total []) with 0 in Htot. lia.
  - apply total_zero; [done|]. change (total []) with 0 in Htot. lia.
  - simpl in Hf1, Hf2.
    assert (r1 = MIN (nbytes - nw) sizeof_fsp_buf) as E1
      by (eapply Hf1; apply list_elem_of_here).
    assert (r2 = MIN (nbytes - nw) sizeof_fsp_buf) as E2
      by (eapply Hf2; apply list_elem_of_here).
    assert (Hr : r2 = r1) by congruence. rewrite Hr in *. clear Hr E1 E2.
    f_equal.
    apply Forall_cons in Hp1 as [_ Hp1]. apply Forall_cons in Hp2 as [_ Hp2].
    apply (IH rs2 (nw + r1)); try done.
    + intros fd n r Hin. eapply Hf1. by apply list_elem_of_further.
    + intros fd n r Hin. eapply Hf2. by apply list_elem_of_further.
    + unfold total in *. simpl in Htot. lia.
Qed.

Lemma iteration_deterministic os1 os2 buf fsp t1 t2 c fs evs1 evs2 fs1' fs2' :
  iteration os1 buf fsp t1 c fs None evs1 fs1' ->
  iteration os2 buf fsp t2 c fs None evs2 fs2' ->
  full_writes evs1 -> full_writes evs2 -> fs1' = fs2'.
Proof.
  intros H1 H2 Hf1 Hf2.
  inversion H1 as [|? ? ? _ Hft1]; subst.
  inversion H2 as [|? ? ? _ Hft2]; subst.
  inversion Hft1 as [| |fd1 rs1 ???? Hok1 Htot1| |]; subst.
  inversion Hft2 as [| |fd2 rs2 ???? Hok2 Htot2| |]; subst.
  apply full_writes_app in Hf1 as [_ Hf1].
  apply full_writes_app in Hf1 as [_ Hf1].
  apply full_writes_app in Hf1 as [Hf1 _].
  apply full_writes_app in Hf2 as [_ Hf2].
  apply full_writes_app in Hf2 as [_ Hf2].
  apply full_writes_app in Hf2 as [Hf2 _].
  assert (rs1 = rs2) as ->; [|done].
  eapply full_writes_unique; [exact Hf1|exact Hf2| | |congruence];
    by eapply writes_ok_pos.
Qed.

Lemma run_deterministic os1 os2 buf fsp fuel t1 c fs evs1 c1 fs1' :
  run os1 buf fsp fuel t1 c fs (Returned 0) evs1 c1 fs1' ->
  forall t2 evs2 c2 fs2',
    run os2 buf fsp fuel t2 c fs (Returned 0) evs2 c2 fs2' ->
    full_writes evs1 -> full_writes evs2 -> fs1' = fs2'.
Proof.
  intros Hrun. remember (Returned 0) as s eqn:Hs.
  induction Hrun as [| |????????Hlt Hit|?????????? Hlt Hit Hrun IH];
    intros t2 evs2 c2 fs2' Hrun2 Hf1 Hf2; subst.
  - inversion Hrun2; subst; try done; try lia; no_early_success.
  - done.
  - apply iteration_status in Hit. by destruct Hit.
  - inversion Hrun2; subst; try lia; try no_early_success.
    apply full_writes_app in Hf1 as [Hf1 Hf1'].
    apply full_writes_app in Hf2 as [Hf2 Hf2'].
    match goal with
    | H : iteration os2 _ _ _ _ _ None _ ?fsx |- _ =>
        assert (fs1 = fsx) as -> by (by eapply iteration_deterministic)
    end.
    by eapply IH.
Qed.

(** C4, as amended: the fill buffer depends on nothing but the generator
    seeded with 1 (byte [i] is the [(char)] of the [i]-th number drawn);
    two successful runs of one valid configuration on the same tree, under
    any two environments, open the same files in the same order (the
    planned paths, whose expected sizes the configuration alone
    determines) and leave trees with the same paths, the same kinds of
    nodes and the same file sizes; and the trees are equal, contents
    included, when in both runs every [write] transfers all the bytes it
    is asked for. *)
Theorem deterministic_layout (buf : Z -> Z) (fsp : fspopulate_t)
    (w1 w2 w1' w2' : world) :
  valid_config fsp -> fsp_dryrun fsp = false ->
  w_fs w1 = w_fs w2 ->
  fspopulate buf fsp w1 = (Returned 0, w1') ->
  fspopulate buf fsp w2 = (Returned 0, w2') ->
  (forall g i,
     init_buffer g (fun _ => 0) sizeof_fsp_buf i
     = fill_pattern g sizeof_fsp_buf i) /\
  exists evs1 evs2,
    w_trace w1' = rev evs1 ++ w_trace w1 /\
    w_trace w2' = rev evs2 ++ w_trace w2 /\
    opens evs1 = task_path fsp <$> plan fsp /\
    opens evs2 = task_path fsp <$> plan fsp /\
    same_shape (w_fs w1') (w_fs w2') /\
    (full_writes evs1 -> full_writes evs2 -> w_fs w1' = w_fs w2').
Proof.
  intros Hv Hdry Hfs Hrun1 Hrun2.
  split; [intros g i; apply init_buffer_fill_pattern|].
  destruct (fspopulate_success buf fsp w1 w1' Hv Hdry Hrun1)
    as (evs1 & c1 & Hr1 & Htr1).
  destruct (fspopulate_success buf fsp w2 w2' Hv Hdry Hrun2)
    as (evs2 & c2 & Hr2 & Htr2).
  rewrite <- Hfs in Hr2.
  exists (mkdirp_event (fsp_path fsp) (w_fs w1) :: evs1),
    (mkdirp_event (fsp_path fsp) (w_fs w2) :: evs2).
  change (mkdirp_event (fsp_path fsp) (w_fs w1) :: evs1)
    with ([mkdirp_event (fsp_path fsp) (w_fs w1)] ++ evs1).
  change (mkdirp_event (fsp_path fsp) (w_fs w2) :: evs2)
    with ([mkdirp_event (fsp_path fsp) (w_fs w2)] ++ evs2).
  rewrite !opens_app, !opens_mkdirp_event.
  split_and!; try done.
  - apply run_opens in Hr1. by apply Hr1.
  - apply run_opens in Hr2. by apply Hr2.
  - eapply run_same_shape; [exact Hr1|exact Hr2|apply same_shape_refl].
  - intros Hf1 Hf2.
    apply full_writes_app in Hf1 as [_ Hf1].
    apply full_writes_app in Hf2 as [_ Hf2].
    by eapply run_deterministic.
Qed.

(** * Further properties

    The rest of the program: the handling of the arguments in [main],
    [init_buffer] and [populate_file] on their own, and properties of
    [fspopulate] that the preceding part does not state. *)

(** ** The arguments of [main] *)

Lemma tolower_nul (c : ascii) :
  nat_of_ascii (tolower c) = 0%nat -> c = "000"%char.
Proof.
  destruct c as [[] [] [] [] [] [] [] []]; vm_compute; congruence.
Qed.

Lemma strcasecmp_single (s : string) (c : ascii) :
  no_nul s = true -> nat_of_ascii (tolower c) <> 0%nat ->
  strcasecmp s (String c "") = 0 <->
  exists c', s = String c' "" /\ tolower c' = tolower c.
Proof.
  intros Hs Hc. split.
  - destruct s as [|c1 [|c2 r]]; cbn [strcasecmp].
    + lia.
    + destruct (Z.eqb_spec (Z.of_nat (nat_of_ascii (tolower c1))
                            - Z.of_nat (nat_of_ascii (tolower c))) 0) as [E|E];
        [|done].
      intros _. exists c1. split; [done|].
      rewrite <- (ascii_nat_embedding (tolower c1)),
        <- (ascii_nat_embedding (tolower c)).
      f_equal. lia.
    + destruct (Z.eqb_spec (Z.of_nat (nat_of_ascii (tolower c1))
                            - Z.of_nat (nat_of_ascii (tolower c))) 0) as [E|E];
        [|done].
      intros H. assert (c2 = "000"%char) as -> by (apply tolower_nul; lia).
      cbn in Hs. by rewrite andb_false_r in Hs.
  - intros (c' & -> & Heq). cbn [strcasecmp]. rewrite Heq, Z.sub_diag. done.
Qed.

Lemma tolower_letter (c l : ascii) :
  (97 <=? nat_of_ascii l)%nat && (nat_of_ascii l <=? 122)%nat = true ->
  tolower c = tolower l <->
  c = l \/ c = ascii_of_nat (nat_of_ascii l - 32).
Proof.
  intros Hl. apply andb_prop in Hl as [H1 H2].
  apply Nat.leb_le in H1, H2.
  assert (Hll : tolower l = l).
  { unfold tolower. destruct (_ && _) eqn:E; [|done].
    apply andb_prop in E as [_ E]. apply Nat.leb_le in E. lia. }
  rewrite Hll. split.
  - intros H. unfold tolower in H. destruct (_ && _) eqn:E.
    + right. rewrite <- H. rewrite nat_ascii_embedding.
      * rewrite Nat.add_sub. by rewrite ascii_nat_embedding.
      * apply andb_prop in E as [_ E]. apply Nat.leb_le in E. lia.
    + by left.
  - intros [->| ->]; [done|]. unfold tolower.
    rewrite nat_ascii_embedding by lia.
    replace ((65 <=? nat_of_ascii l - 32)%nat) with true
      by (symmetry; apply Nat.leb_le; lia).
    replace ((nat_of_ascii l - 32 <=? 90)%nat) with true
      by (symmetry; apply Nat.leb_le; lia).
    cbn [andb]. replace (nat_of_ascii l - 32 + 32)%nat with (nat_of_ascii l) by lia.
    apply ascii_nat_embedding.
Qed.


Lemma digit_value_range (c : ascii) (d : Z) :
  digit_value c = Some d -> 0 <= d < 36.
Proof.
  unfold digit_value. intros H.
  destruct (Z.leb_spec 48 (Z.of_nat (nat_of_ascii c)));
    destruct (Z.leb_spec (Z.of_nat (nat_of_ascii c)) 57);
    destruct (Z.leb_spec 97 (Z.of_nat (nat_of_ascii c)));
    destruct (Z.leb_spec (Z.of_nat (nat_of_ascii c)) 122);
    destruct (Z.leb_spec 65 (Z.of_nat (nat_of_ascii c)));
    destruct (Z.leb_spec (Z.of_nat (nat_of_ascii c)) 90);
    cbn [andb] in H; simplify_eq; lia.
Qed.

Lemma scan_digits_nonneg (base : Z) (s : string) :
  forall acc, 0 <= base -> 0 <= acc -> 0 <= fst (scan_digits base acc s).
Proof.
  induction s as [|c s IH]; intros acc Hb Hacc; cbn [scan_digits]; [done|].
  destruct (digit_value c) as [d|] eqn:Hd; [|done].
  destruct (d <? base); [|done].
  apply IH; [done|]. apply digit_value_range in Hd. nia.
Qed.

Lemma strtoull_range (nptr : string) : 0 <= fst (strtoull nptr) < 2 ^ 64.
Proof.
  unfold strtoull.
  destruct (match skip_space nptr with
            | EmptyString => _ | String _ _ => _ end) as [neg s1].
  destruct (match s1 with
            | EmptyString => _ | String _ _ => _ end) as [base s2] eqn:Hbase.
  assert (Hb : 0 <= base).
  { destruct s1 as [|[[] [] [] [] [] [] [] []] [|x s1]]; simplify_eq; try lia;
      destruct (_ && _) in Hbase; simplify_eq; lia. }
  destruct (is_digit_of base s2); [|cbn; lia].
  pose proof (scan_digits_nonneg base s2 0 Hb ltac:(lia)) as Hv.
  destruct (scan_digits base 0 s2) as [v rest]. cbn [fst] in *.
  unfold ULLONG_MAX, to_ull.
  destruct (Z.ltb_spec (2 ^ 64 - 1) v); [lia|].
  destruct neg; [apply Z.mod_pos_bound|]; lia.
Qed.

Lemma main_not_usage (g : generator) (totsz : Z) (path : string) (w : world) :
  fst (main g totsz path w) <> Returned 2.
Proof.
  unfold main. destruct (fspopulate _ _ _) as [s w'].
  destruct s as [rv| | |]; [|done..].
  destruct (rv =? 0); done.
Qed.

Ltac eval_strcasecmp :=
  repeat match goal with
         | |- context [strcasecmp ?a ?b =? 0] =>
             let v := eval vm_compute in (strcasecmp a b =? 0) in
             change (strcasecmp a b =? 0) with v
         end.

Lemma main_argv_accepts (g : generator) (a0 size path : string)
    (more : list string) (w : world) (n : Z) (endptr : string) (e : Z) :
  strtoull size = (n, endptr) ->
  (e, endptr) ∈ size_suffixes ->
  main_argv g (a0 :: size :: path :: more) w
  = main g ((n * 1024 ^ e) mod 2 ^ 64) path w.
Proof.
  intros Hn He. unfold main_argv.
  destruct (Z.ltb_spec (Z.of_nat (length (a0 :: size :: path :: more))) 3)
    as [Hlen|_]; [cbn [length] in Hlen; lia|].
  cbn [nth]. rewrite Hn.
  pose proof (strtoull_range size) as Hr. rewrite Hn in Hr. cbn [fst] in Hr.
  unfold size_suffixes in He.
  repeat (apply elem_of_cons in He as [He|He]; [simplify_eq|]);
    [..|by apply elem_of_nil in He];
    eval_strcasecmp; cbv beta iota; unfold to_ull; f_equal;
    rewrite ?Z.mod_small by lia; lia.
Qed.

Lemma main_argv_rejects (g : generator) (argv : list string) (w : world) :
  (3 <= length argv)%nat ->
  no_nul (snd (strtoull (nth 1 argv ""))) = true ->
  snd (strtoull (nth 1 argv "")) ∉ snd <$> size_suffixes ->
  main_argv g argv w = (Returned 2, w).
Proof.
  intros Hlen Hnul Hsfx. unfold main_argv.
  destruct (Z.ltb_spec (Z.of_nat (length argv)) 3); [lia|].
  destruct (strtoull (nth 1 argv "")) as [n endptr]. cbn [snd] in *.
  assert (Hl : forall l : ascii,
             (97 <=? nat_of_ascii l)%nat && (nat_of_ascii l <=? 122)%nat = true ->
             endptr <> String l "" ->
             endptr <> String (ascii_of_nat (nat_of_ascii l - 32)) "" ->
             (strcasecmp endptr (String l "") =? 0) = false).
  { intros l Hl H1 H2. apply Z.eqb_neq. intros H0.
    assert (Hz : nat_of_ascii (tolower l) <> 0%nat).
    { intros Hz. apply tolower_nul in Hz. by subst l. }
    apply (strcasecmp_single _ _ Hnul Hz) in H0 as (c' & -> & Hc').
    apply (tolower_letter _ _ Hl) in Hc' as [->| ->]; done. }
  assert (Hne : forall e sfx, (e, sfx) ∈ size_suffixes -> endptr <> sfx).
  { intros e sfx Hin ->. apply Hsfx. apply list_elem_of_fmap. by exists (e, sfx). }
  rewrite (Hl "t"%char), (Hl "g"%char), (Hl "m"%char), (Hl "k"%char);
    [|first [reflexivity
            |eapply Hne; unfold size_suffixes; repeat constructor]..].
  destruct endptr; [|reflexivity].
  exfalso. eapply Hne; [|reflexivity]. unfold size_suffixes. repeat constructor.
Qed.

Lemma digit_value_digit_char (d : Z) :
  0 <= d < 10 -> digit_value (digit_char d) = Some d.
Proof.
  intros Hd.
  assert (d = 0 \/ d = 1 \/ d = 2 \/ d = 3 \/ d = 4 \/ d = 5 \/ d = 6 \/
          d = 7 \/ d = 8 \/ d = 9) as H by lia.
  repeat (destruct H as [->|H]; [reflexivity|]). by subst d.
Qed.

Lemma scan_digits_stop (base acc : Z) (s : string) :
  is_digit_of base s = false -> scan_digits base acc s = (acc, s).
Proof.
  destruct s as [|c s]; [done|]. cbn [is_digit_of scan_digits].
  destruct (digit_value c) as [d|]; [|done]. by intros ->.
Qed.

Lemma scan_digits_decimal (l : list Z) (tail : string) :
  Forall (fun d => 0 <= d < 10) l -> is_digit_of 10 tail = false ->
  forall acc,
    scan_digits 10 acc (string_of_list_ascii (digit_char <$> l) +:+ tail)
    = (fold_left (fun a d => a * 10 + d) l acc, tail).
Proof.
  intros Hl Htail. induction Hl as [|d l Hd Hl IH]; intros acc.
  - rewrite fmap_nil. cbn [string_of_list_ascii]. rewrite string_app_nil.
    by apply scan_digits_stop.
  - rewrite fmap_cons. cbn [string_of_list_ascii fold_left].
    rewrite string_app_cons. cbn [scan_digits].
    rewrite digit_value_digit_char by done.
    destruct (Z.ltb_spec d 10); [|lia]. apply IH.
Qed.

Lemma fold_left_value_lsd (ds : list Z) :
  fold_left (fun a d => a * 10 + d) (reverse ds) 0 = value_lsd ds.
Proof.
  induction ds as [|d ds IH]; [done|].
  rewrite reverse_cons, fold_left_app. cbn [fold_left value_lsd].
  rewrite IH. lia.
Qed.

Lemma digits_lsd_leading (fuel : nat) :
  forall n, 0 < n < 10 ^ Z.of_nat fuel ->
    exists d l, reverse (digits_lsd fuel n) = d :: l /\ 1 <= d <= 9.
Proof.
  induction fuel as [|fuel IH]; intros n Hn.
  - change (10 ^ Z.of_nat 0) with 1 in Hn. lia.
  - cbn [digits_lsd]. destruct (Z.ltb_spec n 10) as [Hlt|Hge].
    + exists (n mod 10), []. split; [done|]. rewrite Z.mod_small; lia.
    + rewrite reverse_cons.
      destruct (IH (n / 10)) as (d & l & -> & Hd).
      { rewrite Nat2Z.inj_succ, Z.pow_succ_r in Hn by lia.
        split; [apply Z.div_str_pos; lia|apply Z.div_lt_upper_bound; lia]. }
      exists d, (l ++ [n mod 10]). done.
Qed.

Lemma strtoull_nonzero_digit (d : Z) (r : string) :
  1 <= d <= 9 ->
  strtoull (String (digit_char d) r)
  = let '(v, rest) := scan_digits 10 0 (String (digit_char d) r) in
    (if ULLONG_MAX <? v then ULLONG_MAX else v, rest).
Proof.
  intros Hd.
  assert (d = 1 \/ d = 2 \/ d = 3 \/ d = 4 \/ d = 5 \/ d = 6 \/
          d = 7 \/ d = 8 \/ d = 9) as H by lia.
  repeat (destruct H as [->|H]; [reflexivity|]). by subst d.
Qed.

Lemma strtoull_decimal (n : Z) (tail : string) :
  0 < n < 2 ^ 64 -> is_digit_of 10 tail = false ->
  strtoull (decimal n +:+ tail) = (n, tail).
Proof.
  intros Hn Htail. unfold decimal, render.
  destruct (digits_lsd_leading 20 n) as (d & l & Hrev & Hd).
  { change (10 ^ Z.of_nat 20) with 100000000000000000000.
    change (2 ^ 64) with 18446744073709551616 in Hn. lia. }
  pose proof (digits_lsd_range 20 n) as Hrange.
  apply Forall_reverse in Hrange.
  pose proof (fold_left_value_lsd (digits_lsd 20 n)) as Hval.
  rewrite digits_lsd_value in Hval
    by (change (10 ^ Z.of_nat 20) with 100000000000000000000;
        change (2 ^ 64) with 18446744073709551616 in Hn; lia).
  pose proof (scan_digits_decimal _ tail Hrange Htail 0) as Hscan.
  rewrite Hval in Hscan. rewrite Hrev in Hscan |- *.
  rewrite fmap_cons in Hscan |- *. cbn [string_of_list_ascii] in Hscan |- *.
  rewrite string_app_cons in Hscan |- *.
  rewrite strtoull_nonzero_digit by done. rewrite Hscan.
  unfold ULLONG_MAX. destruct (Z.ltb_spec (2 ^ 64 - 1) n); [lia|done].
Qed.

Lemma size_suffixes_no_digit (e : Z) (sfx : string) :
  (e, sfx) ∈ size_suffixes -> is_digit_of 10 sfx = false.
Proof.
  unfold size_suffixes. intros He.
  repeat (apply elem_of_cons in He as [He|He]; [by simplify_eq|]).
  by apply elem_of_nil in He.
Qed.

Lemma strtoull_zero (e : Z) (sfx : string) :
  (e, sfx) ∈ size_suffixes -> strtoull (decimal 0 +:+ sfx) = (0, sfx).
Proof.
  unfold size_suffixes. intros He.
  repeat (apply elem_of_cons in He as [He|He]; [by simplify_eq|]).
  by apply elem_of_nil in He.
Qed.

(** X1: the size argument: whatever [strtoull] makes of it, a unit letter
    right after the number, in either case, multiplies it by the matching
    power of 1024 in [unsigned long long] arithmetic, so modulo [2 ^ 64];
    arguments after the path are ignored. *)
Theorem size_argument_scaling (g : generator) (a0 size path : string)
    (more : list string) (w : world) (n : Z) (endptr : string) (e : Z) :
  strtoull size = (n, endptr) ->
  (e, endptr) ∈ size_suffixes ->
  0 <= n < 2 ^ 64 /\
  main_argv g (a0 :: size :: path :: more) w
  = main g ((n * 1024 ^ e) mod 2 ^ 64) path w.
Proof.
  intros Hn He. split; [|by eapply main_argv_accepts].
  pose proof (strtoull_range size) as Hr. by rewrite Hn in Hr.
Qed.

(** X2: exit status 2 is the status of a usage error and of nothing else:
    [main] exits with it, before any system call, exactly when it gets
    fewer than two arguments or when what follows the number in the size
    argument is neither empty nor a single unit letter. *)
Theorem usage_exit (g : generator) (argv : list string) (w : world) :
  no_nul (snd (strtoull (nth 1 argv ""))) = true ->
  (main_argv g argv w = (Returned 2, w) <->
   (length argv < 3)%nat \/
   snd (strtoull (nth 1 argv "")) ∉ snd <$> size_suffixes) /\
  (fst (main_argv g argv w) = Returned 2 ->
   snd (main_argv g argv w) = w).
Proof.
  intros Hnul.
  assert (Hbad : (length argv < 3)%nat \/
                 snd (strtoull (nth 1 argv "")) ∉ snd <$> size_suffixes ->
                 main_argv g argv w = (Returned 2, w)).
  { intros [Hlen|Hsfx].
    - unfold main_argv.
      destruct (Z.ltb_spec (Z.of_nat (length argv)) 3); [done|lia].
    - destruct (Nat.lt_ge_cases (length argv) 3) as [Hlen|Hlen].
      + unfold main_argv.
        destruct (Z.ltb_spec (Z.of_nat (length argv)) 3); [done|lia].
      + by apply main_argv_rejects. }
  assert (Hgood : ~ ((length argv < 3)%nat \/
                     snd (strtoull (nth 1 argv "")) ∉ snd <$> size_suffixes) ->
                  fst (main_argv g argv w) <> Returned 2).
  { intros Hnot.
    destruct argv as [|a0 [|size [|path more]]];
      try (exfalso; apply Hnot; left; cbn [length]; lia).
    cbn [nth] in *.
    destruct (decide (snd (strtoull size) ∈ snd <$> size_suffixes))
      as [Hin|Hout]; [|tauto].
    apply list_elem_of_fmap in Hin as ([e sfx] & Hsfx & Hin).
    cbn [snd] in Hsfx.
    rewrite (main_argv_accepts g a0 size path more w (fst (strtoull size))
               sfx e).
    - apply main_not_usage.
    - rewrite <- Hsfx. apply surjective_pairing.
    - done. }
  split.
  - split; [|done]. intros Heq.
    destruct (decide ((length argv < 3)%nat)) as [|Hlen]; [by left|].
    destruct (decide (snd (strtoull (nth 1 argv "")) ∈ snd <$> size_suffixes))
      as [Hin|]; [|by right].
    exfalso. apply Hgood; [tauto|]. by rewrite Heq.
  - intros Hst.
    destruct (decide ((length argv < 3)%nat)) as [|Hlen];
      [by rewrite Hbad by tauto|].
    destruct (decide (snd (strtoull (nth 1 argv "")) ∈ snd <$> size_suffixes))
      as [Hin|]; [|by rewrite Hbad by tauto].
    exfalso. apply Hgood; [tauto|done].
Qed.

(** X3: a size written in decimal, with or without a unit letter, is read
    back as the number it denotes and scaled by the unit. *)
Theorem decimal_size_argument (g : generator) (a0 path : string)
    (more : list string) (w : world) (n e : Z) (sfx : string) :
  0 <= n < 2 ^ 64 -> (e, sfx) ∈ size_suffixes ->
  strtoull (decimal n +:+ sfx) = (n, sfx) /\
  main_argv g (a0 :: (decimal n +:+ sfx) :: path :: more) w
  = main g ((n * 1024 ^ e) mod 2 ^ 64) path w.
Proof.
  intros Hn He.
  assert (Hparse : strtoull (decimal n +:+ sfx) = (n, sfx)).
  { destruct (Z.eq_dec n 0) as [->|Hnz].
    - by eapply strtoull_zero.
    - apply strtoull_decimal; [lia|]. by eapply size_suffixes_no_digit. }
  split; [done|]. by eapply main_argv_accepts.
Qed.

(** X4: totals that are 0 or do not fit [off_t] plan no file: a total of
    [2 ^ 63] or more is negative once stored in [fsp_totsize], the loop
    is not entered, and the program reports success having made nothing
    but the root directory. *)
Theorem out_of_range_total (g : generator) (totsz : Z) (path : string)
    (w : world) :
  0 <= totsz < 2 ^ 64 ->
  (plan (main_config totsz path) = [] <-> totsz = 0 \/ 2 ^ 63 <= totsz) /\
  (totsz = 0 \/ 2 ^ 63 <= totsz ->
   w_os w (tick w) <> Error ->
   main g totsz path w =
     (Returned EXIT_SUCCESS,
      record (mkdirp_event (snprintf PATH_MAX path) (w_fs w))
        (make_dir (snprintf PATH_MAX path) (w_fs w)) (w_fdtab w) w)).
Proof.
  intros Hr.
  assert (Hneg : totsz = 0 \/ 2 ^ 63 <= totsz ->
                 fsp_totsize (main_config totsz path) <= 0).
  { intros [->|Hbig]; [done|]. cbn [fsp_totsize main_config].
    rewrite to_off_t_large by lia. lia. }
  split_and!.
  - split.
    + intros Hplan.
      destruct (Z.eq_dec totsz 0) as [|Hnz]; [by left|right].
      destruct (Z.lt_ge_cases totsz (2 ^ 63)) as [Hlt|]; [exfalso|done].
      unfold plan in Hplan. rewrite plan_from_unfold in Hplan.
      assert (Htot : fsp_totsize (main_config totsz path) = totsz)
        by (apply to_off_t_small; lia).
      rewrite Htot in Hplan. change (totwritten start) with 0 in Hplan.
      destruct (Z.ltb_spec 0 totsz); [|lia].
      destruct (Z.to_nat (max_files (main_config totsz path))) eqn:Hfuel;
        [|done].
      pose proof (max_files_nonneg (main_config totsz path)).
      unfold max_files in Hfuel.
      change (fsp_nbulk (main_config totsz path)) with 768 in Hfuel.
      rewrite Htot in Hfuel.
      assert (0 <= (Z.max 0 totsz + sizeof_fsp_buf - 1) / sizeof_fsp_buf)
        by (apply Z.div_pos; unfold sizeof_fsp_buf; lia).
      lia.
    + intros Hcase. apply plan_from_done. change (totwritten start) with 0.
      by apply Hneg.
  - intros Hcase Hos. unfold main.
    rewrite fspopulate_nothing_to_do by (done || by apply Hneg). done.
Qed.

(** ** [init_buffer] *)

Lemma to_char_range (r : Z) : -128 <= to_char r <= 127.
Proof.
  unfold to_char, wrap_signed. change (2 ^ (8 - 1)) with 128.
  change (2 ^ 8) with 256. pose proof (Z.mod_pos_bound (r + 128) 256). lia.
Qed.

Lemma to_char_congruent (r : Z) : (to_char r - r) mod 256 = 0.
Proof.
  unfold to_char, wrap_signed. change (2 ^ (8 - 1)) with 128.
  change (2 ^ 8) with 256.
  rewrite (Z.mod_eq (r + 128) 256) by lia.
  replace (r + 128 - 256 * ((r + 128) / 256) - 128 - r)
    with (- ((r + 128) / 256) * 256) by lia.
  apply Z_mod_mult.
Qed.

Lemma init_buffer_spec (g : generator) (bufp : Z -> Z) (bufsz j : Z) :
  init_buffer g bufp bufsz j
  = if (0 <=? j) && (j <? bufsz)
    then to_char (rand_nth g (Z.to_nat j)) else bufp j.
Proof.
  unfold init_buffer. rewrite init_buffer_loop_spec. unfold rand_nth.
  rewrite Z.sub_0_r.
  destruct (Z.leb_spec 0 j); [|done]. cbn [andb].
  destruct (Z.ltb_spec j (0 + Z.of_nat (Z.to_nat bufsz)));
    destruct (Z.ltb_spec j bufsz); try done; lia.
Qed.

(** X5: [init_buffer] stores into the bytes [0 .. bufsz - 1] and no other:
    byte [j] receives the [j]-th number drawn after [srand (1)], reduced
    to a [char]; what the buffer held there before plays no part, so a
    second call leaves the buffer as the first one made it. *)
Theorem init_buffer_contents (g : generator) (bufp : Z -> Z) (bufsz j : Z) :
  (0 <= j < bufsz ->
   init_buffer g bufp bufsz j = to_char (rand_nth g (Z.to_nat j)) /\
   -128 <= init_buffer g bufp bufsz j <= 127 /\
   (init_buffer g bufp bufsz j - rand_nth g (Z.to_nat j)) mod 256 = 0) /\
  (~ 0 <= j < bufsz -> init_buffer g bufp bufsz j = bufp j) /\
  (forall bufp', 0 <= j < bufsz ->
     init_buffer g bufp' bufsz j = init_buffer g bufp bufsz j) /\
  init_buffer g (init_buffer g bufp bufsz) bufsz j
  = init_buffer g bufp bufsz j.
Proof.
  split; [|split; [|split]].
  - intros Hj. rewrite init_buffer_spec.
    destruct (Z.leb_spec 0 j); [|lia]. destruct (Z.ltb_spec j bufsz); [|lia].
    cbn [andb]. split; [done|]. split; [apply to_char_range|].
    apply to_char_congruent.
  - intros Hj. rewrite init_buffer_spec.
    destruct (Z.leb_spec 0 j); [|done]. destruct (Z.ltb_spec j bufsz); [lia|done].
  - intros bufp' Hj. rewrite !init_buffer_spec.
    destruct (Z.leb_spec 0 j); [|lia]. by destruct (Z.ltb_spec j bufsz); [|lia].
  - rewrite !init_buffer_spec.
    by destruct (Z.leb_spec 0 j); destruct (Z.ltb_spec j bufsz).
Qed.

(** ** Files written by complete [write] calls *)

Lemma periodic_shift (buf : Z -> Z) (nw a : Z) :
  nw mod sizeof_fsp_buf = 0 -> a <= sizeof_fsp_buf ->
  (fun k => buf (k mod sizeof_fsp_buf)) <$> seqZ nw a = buf <$> seqZ 0 a.
Proof.
  intros Hnw Ha. rewrite <- (Z.add_0_r nw) at 1.
  rewrite <- (fmap_add_seqZ nw 0 a), <- list_fmap_compose.
  apply list_fmap_ext. intros i k Hk. cbn.
  apply lookup_seqZ in Hk as [-> Hi]. f_equal.
  rewrite Zplus_mod, Hnw, Z.add_0_l, Z.mod_mod by (unfold sizeof_fsp_buf; lia).
  apply Z.mod_small. lia.
Qed.

Lemma fmap_seqZ_split {A} (f : Z -> A) (m a b : Z) :
  0 <= a -> 0 <= b ->
  f <$> seqZ m (a + b) = (f <$> seqZ m a) ++ (f <$> seqZ (m + a) b).
Proof. intros Ha Hb. by rewrite seqZ_app, fmap_app. Qed.

Lemma full_writes_chunks (buf : Z -> Z) (fd nbytes : Z) (rs : list Z) :
  forall nw,
    full_writes (write_events fd nbytes nw rs) ->
    Forall (fun r => 0 < r) rs ->
    nw mod sizeof_fsp_buf = 0 ->
    nw + total rs = nbytes ->
    chunks buf rs
    = (fun k => buf (k mod sizeof_fsp_buf)) <$> seqZ nw (nbytes - nw) /\
    Z.of_nat (length rs)
    = (nbytes - nw + sizeof_fsp_buf - 1) / sizeof_fsp_buf.
Proof.
  assert (HS : 0 < sizeof_fsp_buf) by (unfold sizeof_fsp_buf; lia).
  induction rs as [|r rs IH]; intros nw Hf Hpos Hnw Htot.
  - change (total []) with 0 in Htot.
    replace (nbytes - nw) with 0 by lia. split; [done|].
    rewrite Z.div_small; [done|lia].
  - apply Forall_cons in Hpos as [Hr Hpos].
    change (total (r :: rs)) with (r + total rs) in Htot.
    pose proof (total_nonneg rs Hpos) as Htn.
    assert (Er : r = MIN (nbytes - nw) sizeof_fsp_buf).
    { eapply Hf. cbn [write_events]. apply list_elem_of_here. }
    assert (Hf' : full_writes (write_events fd nbytes (nw + r) rs)).
    { intros fd' n' r' Hin. eapply Hf. cbn [write_events].
      by apply list_elem_of_further. }
    rewrite MIN_spec in Er. rewrite chunks_cons. cbn [length].
    destruct (Z.lt_ge_cases (nbytes - nw) sizeof_fsp_buf) as [Hlt|Hge].
    + assert (rs = []) as -> by (apply total_zero; [done|lia]).
      change (chunks buf []) with (@nil Z). rewrite app_nil_r.
      replace r with (nbytes - nw) by lia. split.
      * symmetry. apply periodic_shift; [done|lia].
      * cbn [length]. change (Z.of_nat 1) with 1.
        apply Z.div_unique with (nbytes - nw - 1); lia.
    + assert (r = sizeof_fsp_buf) as -> by lia.
      destruct (IH (nw + sizeof_fsp_buf)) as [IHc IHl]; try done.
      { by rewrite Zplus_mod, Hnw, Z_mod_same_full. }
      { lia. }
      split.
      * replace (nbytes - nw)
          with (sizeof_fsp_buf + (nbytes - (nw + sizeof_fsp_buf))) by lia.
        rewrite (fmap_seqZ_split _ nw sizeof_fsp_buf
                   (nbytes - (nw + sizeof_fsp_buf))) by lia.
        rewrite IHc, (periodic_shift buf nw sizeof_fsp_buf) by (done || lia).
        reflexivity.
      * rewrite Nat2Z.inj_succ, IHl.
        replace (nbytes - nw + sizeof_fsp_buf - 1)
          with (nbytes - (nw + sizeof_fsp_buf) + sizeof_fsp_buf - 1
                + 1 * sizeof_fsp_buf) by lia.
        rewrite Z.div_add by lia. lia.
Qed.

Lemma writes_ok_normal (os : nat -> reply) (fd nbytes : Z) (rs : list Z) :
  forall t nw,
    writes_ok os t nbytes nw rs ->
    (forall k, (t <= k)%nat -> os k = Normal) ->
    full_writes (write_events fd nbytes nw rs).
Proof.
  induction rs as [|r rs IH]; intros t nw Hok Hos fd' n' r' Hin.
  - by apply elem_of_nil in Hin.
  - cbn [write_events] in Hin. cbn [writes_ok] in Hok.
    destruct Hok as (_ & _ & Hr & _ & Hok).
    apply elem_of_cons in Hin as [Heq|Hin].
    + simplify_eq. by rewrite (Hos t) by lia.
    + eapply (IH (S t)); [done| |done]. intros k Hk. apply Hos. lia.
Qed.

Lemma iteration_full_contents os buf fsp t c fs evs fs1 :
  iteration os buf fsp t c fs None evs fs1 -> full_writes evs ->
  fs1 !! task_path fsp c
  = Some (Reg (content fs (task_path fsp c)
               ++ periodic buf (shortfall fsp fs c))).
Proof.
  intros Hit Hf.
  inversion Hit as [|? ? ? Hos Hft]; subst.
  inversion Hft as [| |fd rs Hos1 Hop Hfd Hos2 Hok Htot| |]; subst.
  rewrite size_at_dir_step in *.
  assert (Hpos : Forall (fun r => 0 < r) rs) by (by eapply writes_ok_pos).
  apply full_writes_app in Hf as [_ Hf].
  apply full_writes_app in Hf as [_ Hf].
  apply full_writes_app in Hf as [Hf _].
  rewrite append_at_touch_lookup by done. rewrite content_dir_step.
  do 3 f_equal. unfold shortfall, periodic.
  destruct (Z.le_gt_cases (expected_size fsp c
                           - size_at fs (task_path fsp c)) 0) as [Hle|Hgt].
  - rewrite Z.max_l in Htot |- * by lia.
    by rewrite (total_zero rs Hpos) by lia.
  - rewrite Z.max_r in Htot |- * by lia.
    destruct (full_writes_chunks buf fd _ rs 0 Hf Hpos) as [Hc _];
      [done|lia|].
    by rewrite Z.sub_0_r in Hc.
Qed.

Lemma run_full_contents os buf fsp fuel t c fs evs c' fs' :
  valid_config fsp ->
  run os buf fsp fuel t c fs (Returned 0) evs c' fs' ->
  on_track fsp c -> full_writes evs ->
  forall ck, ck ∈ plan_from fuel fsp c ->
    fs' !! task_path fsp ck
    = Some (Reg (content fs (task_path fsp ck)
                 ++ periodic buf (shortfall fsp fs ck))).
Proof.
  intros Hv Hrun. remember (Returned 0) as s eqn:Hs.
  induction Hrun as [| |????????Hlt Hit|?????????? Hlt Hit Hrun IH];
    intros Htrack Hf; subst.
  - rewrite plan_from_done by done. intros ck Hck. by apply elem_of_nil in Hck.
  - done.
  - apply iteration_status in Hit. by destruct Hit.
  - destruct (on_track_advance fsp c Hv Htrack Hlt) as [Htrack' Hbi].
    apply full_writes_app in Hf as [Hf Hf'].
    specialize (IH eq_refl Htrack' Hf').
    rewrite (plan_from_unfold (S fuel)), (proj2 (Z.ltb_lt _ _) Hlt).
    assert (Hframe : forall ck, ck ∈ plan_from fuel fsp (advance fsp c) ->
              content fs1 (task_path fsp ck)
              = content fs (task_path fsp ck)).
    { intros ck Hck. apply frame_content.
      eapply iteration_frame; [done|].
      intros Heq. symmetry in Heq. revert Heq.
      by eapply plan_from_paths_fresh. }
    pose proof (iteration_full_contents _ _ _ _ _ _ _ _ Hit Hf) as Hlook.
    intros ck Hck. apply elem_of_cons in Hck. destruct Hck as [->|Hck].
    + destruct (run_frame _ _ _ _ _ _ _ _ _ _ _ (task_path fsp c) Hrun)
        as [->|[Hnone _]]; [|done|by rewrite Hlook in Hnone].
      intros ck Hck. by eapply plan_from_paths_fresh.
    + rewrite (IH ck Hck), (Hframe ck Hck).
      by rewrite (shortfall_frame fsp fs fs1 ck (Hframe ck Hck)).
Qed.

(** X6: what the files hold when no [write] is cut short: in a successful
    run whose [write] calls all transfer what they are asked for, every
    planned file ends as what it held before followed by its shortfall of
    bytes read from the buffer round and round, byte [k] of the addition
    being [fsp_buf[k % sizeof (fsp_buf)]]; on an empty tree a file is that
    pattern over its whole expected size. *)
Theorem complete_writes_contents (buf : Z -> Z) (fsp : fspopulate_t)
    (w w' : world) :
  valid_config fsp -> fsp_dryrun fsp = false ->
  fspopulate buf fsp w = (Returned 0, w') ->
  exists evs,
    w_trace w' = rev evs ++ w_trace w /\
    (full_writes evs ->
     forall c, c ∈ plan fsp ->
       w_fs w' !! task_path fsp c
       = Some (Reg (content (w_fs w) (task_path fsp c)
                    ++ periodic buf (shortfall fsp (w_fs w) c))) /\
       (w_fs w = ∅ ->
        w_fs w' !! task_path fsp c
        = Some (Reg (periodic buf (expected_size fsp c))))).
Proof.
  intros Hv Hdry Hrun.
  destruct (fspopulate_success buf fsp w w' Hv Hdry Hrun)
    as (evs & c' & Hr & Htr).
  eexists. split; [exact Htr|]. intros Hf c Hc.
  change (mkdirp_event (fsp_path fsp) (w_fs w) :: evs)
    with ([mkdirp_event (fsp_path fsp) (w_fs w)] ++ evs) in Hf.
  apply full_writes_app in Hf as [_ Hf].
  pose proof (run_full_contents _ _ _ _ _ _ _ _ _ _ Hv Hr
                (on_track_start _ Hv) Hf c Hc) as Hlook.
  rewrite content_make_dir, shortfall_make_dir in Hlook.
  split; [done|]. intros Hempty. rewrite Hlook.
  pose proof (empty_tree_fresh fsp c Hv Hc) as Hfresh.
  unfold shortfall, content, size_at in *. rewrite Hempty, lookup_empty in *.
  rewrite Z.sub_0_r, Z.max_r by lia. done.
Qed.

(** X7: [populate_file] on a descriptor open for appending, when every
    [write] is complete: it returns 0 after as many calls as it takes to
    cover [nbytes] with pieces of at most the buffer size, each piece
    read from the start of the buffer, and the file has grown by exactly
    [nbytes] bytes; for [nbytes <= 0] it makes no call at all. *)
Theorem populate_file_complete (buf : Z -> Z) (fd nbytes : Z) (w : world)
    (e : ofile) (data : list Z) :
  w_fdtab w !! fd = Some e -> of_append e = true -> of_writable e = true ->
  w_fs w !! of_path e = Some (Reg data) ->
  (forall k, (tick w <= k)%nat -> w_os w k = Normal) ->
  exists w' rs,
    populate_file buf fd nbytes w = (Returned 0, w') /\
    w_trace w' = rev (write_events fd nbytes 0 rs) ++ w_trace w /\
    full_writes (write_events fd nbytes 0 rs) /\
    Z.of_nat (length rs)
    = (Z.max 0 nbytes + sizeof_fsp_buf - 1) / sizeof_fsp_buf /\
    w_fs w'
    = <[of_path e := Reg (data ++ periodic buf (Z.max 0 nbytes))]> (w_fs w).
Proof.
  intros Hfd Happ Hwr Hfile Hos. unfold populate_file.
  destruct (populate_file_loop (Z.to_nat nbytes) buf fd nbytes 0 w)
    as [s w'] eqn:Hloop.
  destruct (populate_file_loop_spec buf fd nbytes (Z.to_nat nbytes) 0 w e data
              s w' Hfd Happ Hwr Hfile ltac:(lia) Hloop)
    as (rs & Hok & _ & Hfs & Hcases).
  assert (Hpos : Forall (fun r => 0 < r) rs) by (by eapply writes_ok_pos).
  pose proof (writes_ok_normal _ fd _ _ _ _ Hok Hos) as Hfull.
  destruct Hcases as [(-> & Hdone & Htr)|[(_ & _ & Herr & _)|(_ & Hlt & _ & Hz & _)]].
  - exists w', rs. split_and!; try done.
    + destruct Hdone as [[Hle ->]|[Hlt Htot]].
      * rewrite Z.max_l by lia. rewrite Z.div_small; [done|].
        unfold sizeof_fsp_buf. lia.
      * rewrite Z.max_r by lia.
        destruct (full_writes_chunks buf fd _ rs 0 Hfull Hpos) as [_ Hl];
          [done|lia|].
        by rewrite Z.sub_0_r in Hl.
    + rewrite Hfs. do 3 f_equal. unfold periodic.
      destruct Hdone as [[Hle ->]|[Hlt Htot]].
      * by rewrite Z.max_l by lia.
      * rewrite Z.max_r by lia.
        destruct (full_writes_chunks buf fd _ rs 0 Hfull Hpos) as [Hc _];
          [done|lia|].
        by rewrite Z.sub_0_r in Hc.
  - rewrite Hos in Herr by lia. done.
  - rewrite Hos in Hz by lia. cbn [granted] in Hz. rewrite MIN_spec in Hz.
    unfold sizeof_fsp_buf in Hz. lia.
Qed.

(** ** Descriptors *)

Lemma alloc_fd_fresh (tab : gmap Z ofile) :
  tab !! alloc_fd tab = None /\ 0 <= alloc_fd tab.
Proof.
  unfold alloc_fd. split; [|lia].
  set (X := set_map Z.to_nat (dom tab) : gset nat).
  pose proof (is_fresh X) as Hfresh.
  apply not_elem_of_dom. intros Hin. apply Hfresh. unfold X.
  apply elem_of_map. exists (Z.of_nat (fresh X)).
  split; [by rewrite Nat2Z.id|done].
Qed.

Lemma mkdirp_fdtab (p : string) (w : world) :
  w_fdtab (snd (mkdirp p w)) = w_fdtab w.
Proof.
  unfold mkdirp. destruct (w_os w (tick w)); [|done|];
    by destruct (w_fs w !! p).
Qed.

Lemma open_fdtab (p : string) (fl : Z) (w : world) :
  (fst (open p fl w) = -1 /\ w_fdtab (snd (open p fl w)) = w_fdtab w) \/
  (0 <= fst (open p fl w) /\
   w_fdtab w !! fst (open p fl w) = None /\
   exists e,
     w_fdtab (snd (open p fl w)) = <[fst (open p fl w) := e]> (w_fdtab w)).
Proof.
  destruct (alloc_fd_fresh (w_fdtab w)) as [Hnone Hpos].
  unfold open.
  destruct (w_os w (tick w)); [|by left|];
    (destruct (w_fs w !! p) as [[|data]|];
     [by left
     |destruct (has_flag fl O_TRUNC); right; cbn [fst snd record w_fdtab]; eauto
     |destruct (has_flag fl O_CREAT && parent_is_dir (w_fs w) p);
      [right; cbn [fst snd record w_fdtab]; eauto|by left]]).
Qed.

Lemma fstat_fdtab (fd : Z) (w : world) :
  w_fdtab (snd (fstat fd w)) = w_fdtab w.
Proof.
  unfold fstat. destruct (w_os w (tick w)); [|done|];
    (destruct (w_fdtab w !! fd) as [e|]; [|done];
     by destruct (w_fs w !! of_path e) as [[|data]|]).
Qed.

Lemma write_fdtab (fd : Z) (buf : Z -> Z) (n : Z) (w : world) :
  delete fd (w_fdtab (snd (write fd buf n w))) = delete fd (w_fdtab w).
Proof.
  unfold write. destruct (w_os w (tick w)); [|done|];
    (destruct (w_fdtab w !! fd) as [e|]; [|done];
     destruct (w_fs w !! of_path e) as [[|data]|]; [done| |done];
     destruct (of_writable e); [|done];
     cbn [snd record w_fdtab]; apply delete_insert_eq).
Qed.

Lemma populate_file_loop_fdtab (buf : Z -> Z) (fd nbytes : Z) (fuel : nat) :
  forall nwritten w,
    delete fd (w_fdtab (snd (populate_file_loop fuel buf fd nbytes nwritten w)))
    = delete fd (w_fdtab w).
Proof.
  induction fuel as [|fuel IH]; intros nwritten w; cbn [populate_file_loop];
    destruct (nwritten <? nbytes); try done.
  pose proof (write_fdtab fd buf (MIN (nbytes - nwritten) sizeof_fsp_buf) w)
    as Hw.
  destruct (write fd buf _ w) as [result w1]. cbn [snd] in Hw.
  destruct (result =? 0); [done|]. destruct (result =? -1); [done|].
  by rewrite IH.
Qed.

Lemma fspopulate_body_fdtab (buf : Z -> Z) (fsp : fspopulate_t) (c : counters)
    (w : world) (o : option status) (w' : world) :
  fspopulate_body buf fsp c w = (o, w') ->
  (o = None \/ exists rv, o = Some (Returned rv)) ->
  w_fdtab w' = w_fdtab w.
Proof.
  unfold fspopulate_body. intros Hbody Ho.
  destruct (if bi c <? fsp_nsubdirs fsp then _ else _)
    as [mkdir_failed w0] eqn:Hdir.
  assert (Hw0 : w_fdtab w0 = w_fdtab w).
  { destruct (bi c <? fsp_nsubdirs fsp); [|by simplify_eq].
    pose proof (mkdirp_fdtab (subdir_path fsp (di c)) w) as Hm.
    destruct (mkdirp _ w) as [[ret errno] wm]. by simplify_eq. }
  destruct mkdir_failed; [by simplify_eq|].
  destruct (fsp_nsubdirs fsp =? 0).
  { simplify_eq. destruct Ho as [|[? ?]]; done. }
  pose proof (open_fdtab (file_path fsp (di c) (bi c))
                (Z.lor (Z.lor O_APPEND O_WRONLY) O_CREAT) w0) as Hopen.
  destruct (open _ _ w0) as [fd w1]. cbn [fst snd] in Hopen.
  destruct (Z.ltb_spec fd 0) as [Hneg|Hfd].
  { simplify_eq. destruct Hopen as [[_ ->]|[? _]]; [done|lia]. }
  destruct Hopen as [[? _]|(_ & Hnone & e & Hw1)]; [lia|].
  pose proof (fstat_fdtab fd w1) as Hfstat.
  destruct (fstat fd w1) as [[ret st_size] w2]. cbn [snd] in Hfstat.
  assert (Hclose : forall w3, delete fd (w_fdtab w3) = delete fd (w_fdtab w2) ->
                              w_fdtab (close fd w3) = w_fdtab w).
  { intros w3 Hw3. cbn [close record w_fdtab].
    by rewrite Hw3, Hfstat, Hw1, delete_insert_eq, delete_id. }
  destruct (negb (ret =? 0)); [simplify_eq; by apply Hclose|].
  pose proof (populate_file_loop_fdtab buf fd
                (expected_size fsp c - st_size)
                (Z.to_nat (expected_size fsp c - st_size)) 0 w2) as Hpop.
  unfold populate_file in Hbody.
  destruct (populate_file_loop _ buf fd _ 0 w2) as [err w3]. cbn [snd] in Hpop.
  destruct err as [rv| | |].
  - destruct (Z.eq_dec rv 0) as [->|Hrv].
    + simplify_eq. by apply Hclose.
    + assert (w' = close fd w3) as ->.
      { destruct rv; try done; by simplify_eq. }
      by apply Hclose.
  - simplify_eq. destruct Ho as [|[? ?]]; done.
  - simplify_eq. destruct Ho as [|[? ?]]; done.
  - simplify_eq. destruct Ho as [|[? ?]]; done.
Qed.

Lemma fspopulate_loop_fdtab (buf : Z -> Z) (fsp : fspopulate_t) (fuel : nat) :
  forall c w rv c' w',
    fspopulate_loop fuel buf fsp c w = (Returned rv, c', w') ->
    w_fdtab w' = w_fdtab w.
Proof.
  induction fuel as [|fuel IH]; intros c w rv c' w' Hloop;
    cbn [fspopulate_loop] in Hloop;
    destruct (totwritten c <? fsp_totsize fsp); try by simplify_eq.
  destruct (fspopulate_body buf fsp c w) as [[s|] w1] eqn:Hbody.
  - simplify_eq. eapply fspopulate_body_fdtab; [done|]. right. by eexists.
  - rewrite (IH _ _ _ _ _ Hloop).
    eapply fspopulate_body_fdtab; [done|]. by left.
Qed.

(** X8: no descriptor is left open: whenever [fspopulate] returns, with 0 or
    with -1, the descriptors open in the process are those that were open
    before the call, since every path out of the loop body that follows a
    successful [open] goes through [close]; the same holds for [main]. *)
Theorem descriptors_closed (buf : Z -> Z) (fsp : fspopulate_t) (w : world)
    (rv : Z) (w' : world) :
  fspopulate buf fsp w = (Returned rv, w') ->
  w_fdtab w' = w_fdtab w /\
  forall g totsz path w0 rv0 w0',
    main g totsz path w0 = (Returned rv0, w0') ->
    w_fdtab w0' = w_fdtab w0.
Proof.
  assert (H : forall buf fsp w rv w',
             fspopulate buf fsp w = (Returned rv, w') ->
             w_fdtab w' = w_fdtab w).
  { clear. intros buf fsp w rv w'. unfold fspopulate. intros Hrun.
    destruct (fsp_dryrun fsp); [by simplify_eq|].
    pose proof (mkdirp_fdtab (fsp_path fsp) w) as Hm.
    destruct (mkdirp (fsp_path fsp) w) as [[ret errno] w0]. cbn [snd] in Hm.
    destruct (negb (ret =? 0) && negb (errno =? EEXIST)); [by simplify_eq|].
    destruct (fspopulate_loop _ buf fsp start w0) as [[s c'] w1] eqn:Hloop.
    simplify_eq. rewrite <- Hm. by eapply fspopulate_loop_fdtab. }
  intros Hrun. split; [by eapply H|].
  intros g totsz path w0 rv0 w0'. unfold main. intros Hmain.
  destruct (fspopulate _ _ w0) as [s w1] eqn:Hrun0.
  destruct s as [rv1| | |]; simplify_eq. by eapply H.
Qed.

(** ** The paths a run touches *)

Lemma file_task_touched os buf t p e fs o evs fs' :
  file_task os buf t p e fs o evs fs' ->
  fs' = fs \/ exists data, fs' !! p = Some (Reg data).
Proof.
  inversion 1; subst; [by left|right..].
  - eexists. by apply touch_content.
  - eexists. by apply append_at_touch_lookup.
  - eexists. by apply append_at_touch_lookup.
  - eexists. by apply append_at_touch_lookup.
Qed.

Lemma dir_step_touched fsp c fs (q : string) :
  dir_step fsp c fs !! q = fs !! q \/
  (q = subdir_path fsp (di c) /\ bi c < fsp_nsubdirs fsp /\
   dir_step fsp c fs !! q = Some Dir).
Proof.
  unfold dir_step, make_dir.
  destruct (Z.ltb_spec (bi c) (fsp_nsubdirs fsp)); [|by left].
  destruct (fs !! subdir_path fsp (di c)) eqn:E; [by left|].
  destruct (decide (q = subdir_path fsp (di c))) as [->|Hne].
  - right. by rewrite lookup_insert_eq.
  - left. by rewrite lookup_insert_ne.
Qed.

Lemma iteration_touched os buf fsp t c fs o evs fs' (q : string) :
  iteration os buf fsp t c fs o evs fs' ->
  fs' !! q = fs !! q \/ made fsp c fs' q.
Proof.
  inversion 1 as [|? ? ? Hos Hft]; subst; [by left|]. unfold made.
  destruct (decide (q = task_path fsp c)) as [->|Hne].
  - destruct (file_task_touched _ _ _ _ _ _ _ _ _ Hft) as [->|Hreg].
    + destruct (dir_step_touched fsp c fs (task_path fsp c))
        as [?|(? & ? & ?)]; [by left|by right; right].
    + right. by left.
  - rewrite (file_task_frame _ _ _ _ _ _ _ _ _ q Hft Hne).
    destruct (dir_step_touched fsp c fs q) as [?|(? & ? & ?)];
      [by left|by right; right].
Qed.

Lemma made_same (fsp : fspopulate_t) (c : counters)
    (fs fs' : gmap string node) (q : string) :
  fs' !! q = fs !! q -> made fsp c fs q -> made fsp c fs' q.
Proof. unfold made. intros ->. done. Qed.

Lemma run_touched os buf fsp fuel t c fs s evs c' fs' (q : string) :
  run os buf fsp fuel t c fs s evs c' fs' ->
  fs' !! q = fs !! q \/
  exists ck, ck ∈ plan_from fuel fsp c /\ made fsp ck fs' q.
Proof.
  induction 1 as [| |????????Hlt Hit|?????????? Hlt Hit Hrun IH];
    [by left|by left| |].
  - destruct (iteration_touched _ _ _ _ _ _ _ _ _ q Hit) as [|Hm];
      [by left|right].
    exists c. rewrite plan_from_unfold, (proj2 (Z.ltb_lt _ _) Hlt).
    split; [apply list_elem_of_here|done].
  - rewrite (plan_from_unfold (S fuel)), (proj2 (Z.ltb_lt _ _) Hlt).
    destruct IH as [IH|(ck & Hck & Hm)].
    + destruct (iteration_touched _ _ _ _ _ _ _ _ _ q Hit) as [E|Hm];
        [left; congruence|right].
      exists c. split; [apply list_elem_of_here|by eapply made_same].
    + right. exists ck. split; [by apply list_elem_of_further|done].
Qed.




(** ** Picking up after a failure *)

Lemma plan_from_on_track (fsp : fspopulate_t) (fuel : nat) (c ck : counters) :
  valid_config fsp -> on_track fsp c -> ck ∈ plan_from fuel fsp c ->
  on_track fsp ck.
Proof.
  intros Hv Htrack Hck. apply list_elem_of_lookup in Hck as [i Hi].
  by destruct (plan_from_lookup fsp fuel Hv c i ck Htrack Hi).
Qed.

Lemma run_tidy os buf fsp fuel t c fs s evs c' fs' :
  valid_config fsp ->
  run os buf fsp fuel t c fs s evs c' fs' ->
  on_track fsp c -> tidy fsp fs -> tidy fsp fs'.
Proof.
  intros Hv Hrun Htrack [Hfiles Hdirs].
  assert (Hck : forall ck, ck ∈ plan_from fuel fsp c ->
                           0 <= bi ck /\ 0 <= di ck).
  { intros ck Hin.
    pose proof (plan_from_on_track fsp fuel c ck Hv Htrack Hin) as Hon.
    destruct (on_track_bi_bound fsp ck Hv Hon) as (? & ? & _). lia. }
  split.
  - intros d b Hd Hb.
    destruct (run_touched _ _ _ _ _ _ _ _ _ _ _ (file_path fsp d b) Hrun)
      as [->|(ck & Hin & [[_ [data ->]]|(Heq & _ & _)])]; [by apply Hfiles|done|].
    destruct (Hck ck Hin) as [_ Hdi].
    destruct (file_path_ne_subdir fsp d b (di ck) Hv Hd Hb Hdi Heq).
  - intros d data Hd.
    destruct (run_touched _ _ _ _ _ _ _ _ _ _ _ (subdir_path fsp d) Hrun)
      as [->|(ck & Hin & [[Heq _]|(_ & _ & ->)])]; [by apply Hdirs| |done].
    destruct (Hck ck Hin) as [Hbi Hdi]. symmetry in Heq.
    destruct (file_path_ne_subdir fsp (di ck) (bi ck) d Hv Hdi Hbi Hd Heq).
Qed.

Lemma fspopulate_tidy (buf : Z -> Z) (fsp : fspopulate_t) (w : world)
    (s : status) (w' : world) :
  valid_config fsp -> tidy fsp (w_fs w) ->
  fspopulate buf fsp w = (s, w') -> tidy fsp (w_fs w').
Proof.
  intros Hv Htidy Hrun.
  assert (Hn : fsp_nsubdirs fsp <> 0) by (destruct Hv as (_ & _ & ? & _); lia).
  destruct (fsp_dryrun fsp) eqn:Hdry.
  { unfold fspopulate in Hrun. rewrite Hdry in Hrun. by simplify_eq. }
  apply fspopulate_run in Hrun; [|done..].
  destruct Hrun as [_ [(_ & _ & -> & _)|(_ & evs & c' & Hr & _)]]; [done|].
  eapply run_tidy; [done|exact Hr|by apply (on_track_start)|].
  by apply tidy_make_root.
Qed.

Lemma plan_task_path_inj (fsp : fspopulate_t) (c1 c2 : counters) :
  valid_config fsp -> c1 ∈ plan fsp -> c2 ∈ plan fsp ->
  task_path fsp c1 = task_path fsp c2 -> c1 = c2.
Proof.
  intros Hv H1 H2 Heq.
  apply list_elem_of_lookup in H1 as [i1 H1].
  apply list_elem_of_lookup in H2 as [i2 H2].
  destruct (plan_lookup fsp i1 c1 Hv H1) as (Hon1 & Hb1 & _).
  destruct (plan_lookup fsp i2 c2 Hv H2) as (Hon2 & Hb2 & _).
  pose proof (task_path_inj fsp c1 c2 Hv Hon1 Hon2 Heq) as Hbi.
  assert (i1 = i2) as -> by lia. congruence.
Qed.

Lemma iteration_size os buf fsp t c fs o evs fs' :
  iteration os buf fsp t c fs o evs fs' ->
  size_at fs' (task_path fsp c)
  <= Z.max (size_at fs (task_path fsp c)) (expected_size fsp c).
Proof.
  inversion 1 as [|? ? ? Hos Hft]; subst; [lia|].
  destruct (file_task_content _ _ _ _ _ _ _ _ _ Hft)
    as (fd & rs & Hb & Hcont & Htot & _).
  rewrite size_at_dir_step, content_dir_step in *.
  rewrite (size_at_content fs'), Hcont, length_app, Nat2Z.inj_add,
    <- size_at_content.
  rewrite chunks_length; [lia|].
  eapply Forall_impl; [exact Hb|]. cbn. lia.
Qed.

Lemma iteration_fits os buf fsp t c fs o evs fs' :
  valid_config fsp -> c ∈ plan fsp ->
  iteration os buf fsp t c fs o evs fs' ->
  fits fsp fs -> fits fsp fs'.
Proof.
  intros Hv Hc Hit Hfits ck Hck.
  destruct (decide (task_path fsp ck = task_path fsp c)) as [Heq|Hne].
  - assert (ck = c) as -> by (by eapply plan_task_path_inj).
    pose proof (iteration_size _ _ _ _ _ _ _ _ _ Hit).
    pose proof (Hfits c Hc). lia.
  - rewrite size_at_content.
    rewrite (frame_content fs fs' (task_path fsp ck));
      [rewrite <- size_at_content; by apply Hfits|].
    by eapply iteration_frame.
Qed.

Lemma run_fits os buf fsp fuel t c fs s evs c' fs' :
  valid_config fsp ->
  run os buf fsp fuel t c fs s evs c' fs' ->
  (forall ck, ck ∈ plan_from fuel fsp c -> ck ∈ plan fsp) ->
  fits fsp fs -> fits fsp fs'.
Proof.
  intros Hv.
  induction 1 as [| |????????Hlt Hit|?????????? Hlt Hit Hrun IH];
    intros Hsub Hfits; [done|done| |].
  - eapply iteration_fits; [done| |exact Hit|done].
    apply Hsub. rewrite plan_from_unfold, (proj2 (Z.ltb_lt _ _) Hlt).
    apply list_elem_of_here.
  - rewrite (plan_from_unfold (S fuel)), (proj2 (Z.ltb_lt _ _) Hlt) in Hsub.
    apply IH.
    + intros ck Hck. apply Hsub. by apply list_elem_of_further.
    + eapply iteration_fits; [done| |exact Hit|done].
      apply Hsub. apply list_elem_of_here.
Qed.

Lemma fspopulate_fits (buf : Z -> Z) (fsp : fspopulate_t) (w : world)
    (s : status) (w' : world) :
  valid_config fsp -> fits fsp (w_fs w) ->
  fspopulate buf fsp w = (s, w') -> fits fsp (w_fs w').
Proof.
  intros Hv Hfits Hrun.
  assert (Hn : fsp_nsubdirs fsp <> 0) by (destruct Hv as (_ & _ & ? & _); lia).
  destruct (fsp_dryrun fsp) eqn:Hdry.
  { unfold fspopulate in Hrun. rewrite Hdry in Hrun. by simplify_eq. }
  apply fspopulate_run in Hrun; [|done..].
  destruct Hrun as [_ [(_ & _ & -> & _)|(_ & evs & c' & Hr & _)]]; [done|].
  eapply run_fits; [done|exact Hr|done|].
  intros c Hc. rewrite size_at_content, content_make_dir, <- size_at_content.
  by apply Hfits.
Qed.

(** X10: a run that fails part of the way can be picked up: on a tree where
    nothing is in the way of the planned paths and no planned file is
    longer than planned (an empty tree for one), a run of [fspopulate]
    that ends in any way leaves a tree of the same kind, and a later run
    on that tree during which no system call fails and no [write] returns
    0 completes it: it returns 0 and every planned file has exactly its
    expected size, all that was in the tree at the start being still
    there. *)
Theorem resume_after_failure (buf : Z -> Z) (fsp : fspopulate_t)
    (w : world) (s1 : status) (w1 w2 : world) :
  valid_config fsp -> fsp_dryrun fsp = false ->
  tidy fsp (w_fs w) -> fits fsp (w_fs w) ->
  fspopulate buf fsp w = (s1, w1) ->
  w_fs w2 = w_fs w1 -> benign (w_os w2) ->
  tidy fsp (w_fs w1) /\ fits fsp (w_fs w1) /\
  exists w3,
    fspopulate buf fsp w2 = (Returned 0, w3) /\
    (forall c, c ∈ plan fsp ->
       exists data,
         w_fs w3 !! task_path fsp c = Some (Reg data) /\
         Z.of_nat (length data) = expected_size fsp c) /\
    total ((fun c => size_at (w_fs w3) (task_path fsp c)) <$> plan fsp)
    = fsp_totsize fsp /\
    extends (w_fs w) (w_fs w3).
Proof.
  intros Hv Hdry Htidy Hfits Hrun1 Hfs Hben.
  assert (Hn : fsp_nsubdirs fsp <> 0) by (destruct Hv as (_ & _ & ? & _); lia).
  pose proof (fspopulate_tidy buf fsp w s1 w1 Hv Htidy Hrun1) as Htidy1.
  pose proof (fspopulate_fits buf fsp w s1 w1 Hv Hfits Hrun1) as Hfits1.
  split; [done|]. split; [done|].
  destruct (fspopulate_benign buf fsp w2 Hv Hdry Hben) as (w3 & Hrun2 & _).
  { by rewrite Hfs. }
  exists w3. split; [done|].
  destruct (fspopulate_exact_sizes buf fsp w2 w3 Hv Hdry Hrun2)
    as [Hsizes Hsum].
  { rewrite Hfs. exact Hfits1. }
  split_and!; [done|done|].
  eapply extends_trans; [by eapply fspopulate_extends|].
  rewrite <- Hfs. by eapply fspopulate_extends.
Qed.

(** ** The plan of the default policy *)

Lemma default_config_fields (totsz : Z) (path : string) :
  0 <= totsz < 2 ^ 54 ->
  fsp_totsize (main_config totsz path) = totsz /\
  fsp_bulksize (main_config totsz path) = totsz / 1024 /\
  0 <= totsz / 1024 /\ 768 * (totsz / 1024) <= totsz /\
  (0 < totsz -> 768 * (totsz / 1024) < totsz).
Proof.
  intros Hr.
  assert (H54 : 2 ^ 54 < 2 ^ 63) by reflexivity.
  assert (0 <= totsz / 1024) by (apply Z.div_pos; lia).
  assert (1024 * (totsz / 1024) <= totsz) by (apply Z.mul_div_le; lia).
  split_and!; try lia.
  - apply to_off_t_small. lia.
  - cbn [fsp_bulksize main_config]. apply to_off_t_small. lia.
Qed.

Lemma bulk_phase (totsz : Z) (path : string) (k : nat) :
  0 < totsz < 2 ^ 54 ->
  forall (n : nat) (i : Z),
    0 <= i -> i + Z.of_nat n = 768 ->
    plan_from (n + k) (main_config totsz path) (bulk_entry (totsz / 1024) i)
    = (bulk_entry (totsz / 1024) <$> seqZ i (Z.of_nat n))
      ++ plan_from k (main_config totsz path)
           (standard_entry (totsz / 1024) 0).
Proof.
  intros Hr.
  destruct (default_config_fields totsz path) as (Htot & Hbulk & Hb & _ & Hlt);
    [lia|]. specialize (Hlt ltac:(lia)).
  induction n as [|n IH]; intros i Hi Hsum.
  - rewrite seqZ_nil by lia. cbn [fmap list_fmap app Nat.add].
    replace i with 768 by lia. f_equal.
    unfold bulk_entry, standard_entry. f_equal; lia.
  - cbn [Nat.add]. rewrite (plan_from_unfold (S (n + k))). cbn [totwritten bulk_entry].
    rewrite Htot. rewrite (proj2 (Z.ltb_lt (i * (totsz / 1024)) totsz)) by nia.
    rewrite (seqZ_cons i) by lia. rewrite fmap_cons.
    cbn [app]. f_equal.
    replace (Z.pred (Z.of_nat (S n))) with (Z.of_nat n) by lia.
    rewrite <- IH by lia. f_equal.
    unfold advance, expected_size, nominal_size, bulk_entry.
    cbn [totwritten di bi].
    rewrite Hbulk, Htot.
    change (fsp_nbulk (main_config totsz path)) with 768.
    change (fsp_nsubdirs (main_config totsz path)) with 256.
    rewrite (proj2 (Z.ltb_lt i 768)) by lia.
    rewrite MIN_spec, Z.min_l by nia.
    rewrite to_int_small by (unfold INT_MAX; lia).
    rewrite Z.rem_mod_nonneg
      by (pose proof (Z.mod_pos_bound i 256 ltac:(lia)); lia).
    rewrite Zplus_mod_idemp_l. f_equal. lia.
Qed.

Lemma standard_count (totsz : Z) :
  0 < totsz < 2 ^ 54 ->
  let rest := totsz - 768 * (totsz / 1024) in
  let n := (rest + 10485759) / 10485760 in
  0 < rest <= totsz /\ 1 <= n <= 1717986919 /\
  (n - 1) * 10485760 < rest <= n * 10485760.
Proof.
  intros Hr rest n.
  assert (0 <= totsz / 1024) by (apply Z.div_pos; lia).
  assert (1024 * (totsz / 1024) <= totsz) by (apply Z.mul_div_le; lia).
  assert (Hrest : 0 < rest <= totsz) by (unfold rest; lia).
  pose proof (Z.mul_div_le (rest + 10485759) 10485760 ltac:(lia)) as H1.
  pose proof (Z.mul_succ_div_gt (rest + 10485759) 10485760 ltac:(lia)) as H2.
  fold n in H1, H2.
  assert (n <= (2 ^ 54 + 10485759) / 10485760)
    by (apply Z.div_le_mono; lia).
  assert ((2 ^ 54 + 10485759) / 10485760 = 1717986919) by reflexivity.
  lia.
Qed.

Lemma standard_phase (totsz : Z) (path : string) :
  0 < totsz < 2 ^ 54 ->
  let rest := totsz - 768 * (totsz / 1024) in
  let n := (rest + 10485759) / 10485760 in
  forall (fuel : nat) (j : Z),
    0 <= j <= n -> n - j <= Z.of_nat fuel ->
    plan_from fuel (main_config totsz path)
      (standard_entry (totsz / 1024) j)
    = standard_entry (totsz / 1024) <$> seqZ j (n - j).
Proof.
  intros Hr rest n.
  destruct (default_config_fields totsz path) as (Htot & Hbulk & Hb & _ & _);
    [lia|].
  destruct (standard_count totsz Hr) as (Hrest & Hn & Hlast).
  fold rest in Hrest, Hlast. fold n in Hn, Hlast.
  induction fuel as [|fuel IH]; intros j Hj Hfuel.
  - assert (j = n) as -> by lia. rewrite Z.sub_diag, seqZ_nil by lia.
    apply plan_from_done. rewrite Htot. cbn [totwritten standard_entry].
    unfold rest in Hlast. lia.
  - destruct (Z.eq_dec j n) as [->|Hne].
    { rewrite Z.sub_diag, seqZ_nil by lia.
      apply plan_from_done. rewrite Htot. cbn [totwritten standard_entry].
      unfold rest in Hlast. lia. }
    rewrite plan_from_unfold. cbn [totwritten standard_entry]. rewrite Htot.
    rewrite (proj2 (Z.ltb_lt _ totsz)) by (unfold rest in Hlast; nia).
    rewrite (seqZ_cons j) by lia. rewrite fmap_cons. f_equal.
    replace (Z.pred (n - j)) with (n - Z.succ j) by lia.
    assert (Hexp : expected_size (main_config totsz path)
                     (standard_entry (totsz / 1024) j)
                   = Z.min 10485760 (rest - j * 10485760)).
    { unfold expected_size, nominal_size. cbn [totwritten bi standard_entry].
      rewrite Htot.
      change (fsp_nbulk (main_config totsz path)) with 768.
      rewrite (proj2 (Z.ltb_ge (768 + j) 768)) by lia.
      change (10 * 1024 * 1024) with 10485760.
      rewrite MIN_spec. unfold rest. f_equal. lia. }
    destruct (Z.eq_dec (Z.succ j) n) as [Hlastj|Hmore].
    + rewrite <- Hlastj at 1. rewrite Z.sub_diag, seqZ_nil by lia.
      apply plan_from_done. rewrite Htot. unfold advance. cbn [totwritten].
      rewrite Hexp. cbn [totwritten standard_entry]. unfold rest in *. lia.
    + rewrite <- IH by lia. f_equal.
      unfold advance. rewrite Hexp. unfold standard_entry.
      cbn [totwritten di bi].
      change (fsp_nsubdirs (main_config totsz path)) with 256.
      rewrite Z.min_l by nia.
      rewrite to_int_small by (unfold INT_MAX; lia).
      rewrite Z.rem_mod_nonneg
        by (pose proof (Z.mod_pos_bound j 256 ltac:(lia)); lia).
      rewrite Zplus_mod_idemp_l. f_equal; lia.
Qed.

Lemma default_plan (totsz : Z) (path : string) :
  0 < totsz < 2 ^ 54 ->
  let fsp := main_config totsz path in
  let b := totsz / 1024 in
  let rest := totsz - 768 * b in
  let n := (rest + 10485759) / 10485760 in
  plan fsp
  = (bulk_entry b <$> seqZ 0 768) ++ (standard_entry b <$> seqZ 0 n) /\
  Z.of_nat (length (plan fsp)) = 768 + n.
Proof.
  intros Hr fsp b rest n.
  destruct (default_config_fields totsz path) as (Htot & _); [lia|].
  destruct (standard_count totsz Hr) as (Hrest & Hn & Hlast).
  fold b in Hrest, Hlast. fold rest in Hrest, Hlast.
  fold n in Hn, Hlast. fold fsp in Htot.
  assert (Hplan : plan fsp
                  = (bulk_entry b <$> seqZ 0 768)
                    ++ (standard_entry b <$> seqZ 0 n)).
  { unfold plan, max_files. rewrite Htot.
    change (fsp_nbulk fsp) with 768.
    rewrite (Z.max_r 0 768), (Z.max_r 0 totsz) by lia.
    pose proof (Z.mul_succ_div_gt (totsz + sizeof_fsp_buf - 1) sizeof_fsp_buf
                  ltac:(unfold sizeof_fsp_buf; lia)) as Hq.
    set (q := (totsz + sizeof_fsp_buf - 1) / sizeof_fsp_buf) in *.
    assert (Hnq : n <= q) by (unfold sizeof_fsp_buf in Hq; lia).
    replace (Z.to_nat (768 + q)) with (768 + Z.to_nat q)%nat by lia.
    change start with (bulk_entry b 0).
    pose proof (bulk_phase totsz path (Z.to_nat q) Hr 768 0) as Hbp.
    pose proof (standard_phase totsz path Hr (Z.to_nat q) 0) as Hsp.
    cbv zeta in Hsp. fold b in Hbp, Hsp. fold rest in Hsp. fold n in Hsp.
    fold fsp in Hbp, Hsp.
    rewrite Hbp, Hsp by lia. by rewrite Z.sub_0_r. }
  split; [done|].
  rewrite Hplan, length_app, !length_fmap, !length_seqZ. lia.
Qed.

(** X11: the policy of [main] spelt out, for a total from 1 byte up to
    [2 ^ 54]: the plan is 768 bulk files of [totsz / 1024] bytes each,
    which make up three quarters of the total to within 1024 bytes,
    followed by files of 10 MiB, as many as it takes to cover the rest,
    of which only the last can be shorter; the file counter stays within
    an [int]. *)
Theorem default_policy_plan (totsz : Z) (path : string) :
  0 < totsz < 2 ^ 54 ->
  let fsp := main_config totsz path in
  let b := totsz / 1024 in
  let rest := totsz - 768 * b in
  let n := (rest + 10485759) / 10485760 in
  plan fsp
  = (bulk_entry b <$> seqZ 0 768) ++ (standard_entry b <$> seqZ 0 n) /\
  Z.of_nat (length (plan fsp)) = 768 + n /\ 768 + n <= INT_MAX /\
  (forall i, 0 <= i < 768 -> expected_size fsp (bulk_entry b i) = b) /\
  (forall j, 0 <= j < n - 1 ->
             expected_size fsp (standard_entry b j) = 10485760) /\
  expected_size fsp (standard_entry b (n - 1)) = rest - (n - 1) * 10485760 /\
  0 < rest - (n - 1) * 10485760 <= 10485760 /\
  3 * totsz - 3072 < 4 * (768 * b) <= 3 * totsz.
Proof.
  intros Hr fsp b rest n.
  destruct (default_config_fields totsz path) as (Htot & Hbulk & Hb & Hle & Hlt);
    [lia|]. specialize (Hlt ltac:(lia)).
  destruct (standard_count totsz Hr) as (Hrest & Hn & Hlast).
  fold b in Hbulk, Hb, Hle, Hlt, Hrest, Hlast. fold rest in Hrest, Hlast.
  fold n in Hn, Hlast. fold fsp in Htot, Hbulk.
  destruct (default_plan totsz path Hr) as [Hplan Hlen].
  fold fsp b in Hplan, Hlen. fold rest in Hplan, Hlen. fold n in Hplan, Hlen.
  assert (Hexp_b : forall i, 0 <= i < 768 ->
             expected_size fsp (bulk_entry b i) = b).
  { intros i Hi. unfold expected_size, nominal_size.
    cbn [totwritten bi bulk_entry]. rewrite Htot, Hbulk.
    change (fsp_nbulk fsp) with 768.
    rewrite (proj2 (Z.ltb_lt i 768)) by lia.
    rewrite MIN_spec, Z.min_l; [done|nia]. }
  assert (Hexp_s : forall j, 0 <= j ->
             expected_size fsp (standard_entry b j)
             = Z.min 10485760 (rest - j * 10485760)).
  { intros j Hj. unfold expected_size, nominal_size.
    cbn [totwritten bi standard_entry]. rewrite Htot.
    change (fsp_nbulk fsp) with 768.
    rewrite (proj2 (Z.ltb_ge (768 + j) 768)) by lia.
    change (10 * 1024 * 1024) with 10485760.
    rewrite MIN_spec. unfold rest. f_equal. lia. }
  split_and!; try done; try lia.
  - unfold INT_MAX. lia.
  - intros j Hj. rewrite Hexp_s by lia. lia.
  - rewrite Hexp_s by lia. lia.
  - pose proof (Z.mul_succ_div_gt totsz 1024 ltac:(lia)) as Hhi.
    fold b in Hhi. lia.
  - pose proof (Z.mul_div_le totsz 1024 ltac:(lia)) as Hlo.
    fold b in Hlo. lia.
Qed.

(** ** Path names that do not fit *)

Lemma string_take_length (n : nat) (s : string) :
  String.length (string_take n s) = Nat.min n (String.length s).
Proof.
  revert s. induction n as [|n IH]; intros [|c s]; cbn; try done.
  by rewrite IH.
Qed.

Lemma string_take_app_exact (a b : string) :
  string_take (String.length a) (a +:+ b) = a.
Proof.
  induction a as [|c a IH]; [by destruct b|].
  rewrite string_app_cons. cbn [String.length string_take]. by rewrite IH.
Qed.

Lemma snprintf_full (size : Z) (a b : string) :
  String.length a = Z.to_nat (size - 1) -> snprintf size (a +:+ b) = a.
Proof. intros H. unfold snprintf. rewrite <- H. apply string_take_app_exact. Qed.

Lemma long_path_collapses (totsz : Z) (path : string) :
  PATH_MAX - 1 <= Z.of_nat (String.length path) ->
  let fsp := main_config totsz path in
  String.length (fsp_path fsp) = Z.to_nat (PATH_MAX - 1) /\
  forall d b,
    subdir_path fsp d = fsp_path fsp /\
    file_path fsp d b = fsp_path fsp.
Proof.
  intros Hlen fsp.
  assert (Hroot : String.length (fsp_path fsp) = Z.to_nat (PATH_MAX - 1)).
  { cbn [fsp_path fsp main_config]. unfold snprintf.
    rewrite string_take_length. lia. }
  split; [done|]. intros d b. unfold subdir_path, file_path.
  split.
  - by apply snprintf_full.
  - by apply snprintf_full.
Qed.

(** X12: the path names are built with [snprintf] into buffers of [PATH_MAX]
    bytes and the result is not checked.  When the path argument has
    [PATH_MAX - 1] characters or more, the root is its first
    [PATH_MAX - 1] characters and every directory and file name the loop
    builds is cut down to the root itself; then, for a positive total
    and a root that is not a regular file, the first [open] is applied to
    the root directory and fails: the program exits with status 1 after
    at most three system calls, none of them a [write], and no regular
    file has been created or changed. *)
Theorem long_root_path (g : generator) (totsz : Z) (path : string)
    (w : world) (s : status) (w' : world) :
  PATH_MAX - 1 <= Z.of_nat (String.length path) ->
  0 < totsz < 2 ^ 63 ->
  (forall data, w_fs w !! snprintf PATH_MAX path <> Some (Reg data)) ->
  main g totsz path w = (s, w') ->
  let fsp := main_config totsz path in
  (forall d b,
     subdir_path fsp d = fsp_path fsp /\
     file_path fsp d b = fsp_path fsp) /\
  s = Returned EXIT_FAILURE /\
  (w_fs w' = w_fs w \/ w_fs w' = make_dir (fsp_path fsp) (w_fs w)) /\
  exists evs,
    w_trace w' = rev evs ++ w_trace w /\
    (length evs <= 3)%nat /\ writes evs = [].
Proof.
  intros Hlen Hsz Hroot Hmain fsp.
  destruct (long_path_collapses totsz path Hlen) as [_ Hpaths].
  fold fsp in Hpaths. split; [done|].
  assert (Htot : fsp_totsize fsp = totsz) by (apply to_off_t_small; lia).
  assert (Hdir : make_dir (fsp_path fsp) (w_fs w) !! fsp_path fsp = Some Dir).
  { unfold make_dir. destruct (w_fs w !! fsp_path fsp) as [[|data]|] eqn:E.
    - done.
    - by destruct (Hroot data).
    - by rewrite lookup_insert_eq. }
  assert (Hstep : dir_step fsp start (make_dir (fsp_path fsp) (w_fs w))
                  = make_dir (fsp_path fsp) (w_fs w)).
  { unfold dir_step. destruct (bi start <? fsp_nsubdirs fsp); [|done].
    rewrite (proj1 (Hpaths (di start) 0)). apply make_dir_existing.
    by rewrite Hdir. }
  assert (Hopen : openable (make_dir (fsp_path fsp) (w_fs w))
                    (task_path fsp start) = false).
  { unfold openable, task_path. rewrite (proj2 (Hpaths _ _)). by rewrite Hdir. }
  unfold main in Hmain. fold fsp in Hmain.
  destruct (fspopulate _ fsp w) as [s0 w0] eqn:Hrun.
  assert (Hdry : fsp_dryrun fsp = false) by done.
  assert (Hnsub : fsp_nsubdirs fsp <> 0) by done.
  assert (Hnbulk : fsp_nbulk fsp = 768) by done.
  clearbody fsp. subst totsz.
  assert (Hs0 : s0 = Returned (-1) /\
                (w_fs w0 = w_fs w \/
                 w_fs w0 = make_dir (fsp_path fsp) (w_fs w)) /\
                exists evs,
                  w_trace w0 = rev evs ++ w_trace w /\
                  (length evs <= 3)%nat /\ writes evs = []).
  { apply fspopulate_run in Hrun; [|done..].
    destruct Hrun as [_ [(_ & -> & -> & Htr)|(_ & evs & c' & Hr & Htr)]].
    { split_and!; [done|by left|].
      exists [EvMkdirp (fsp_path fsp) (-1) EACCES].
      split_and!; [exact Htr|cbn [length]; lia|done]. }
    assert (Hev : writes [mkdirp_event (fsp_path fsp) (w_fs w)] = [])
      by apply writes_mkdirp_event.
    assert (Hiter : forall o evs1 fs1,
               iteration (w_os w) (init_buffer g (fun _ => 0) sizeof_fsp_buf)
                 fsp (S (tick w)) start
                 (make_dir (fsp_path fsp) (w_fs w)) o evs1 fs1 ->
               o = Some (Returned (-1)) /\
               fs1 = make_dir (fsp_path fsp) (w_fs w) /\
               (length evs1 <= 2)%nat /\ writes evs1 = []).
    { intros o evs1 fs1 Hit.
      inversion Hit as [|? ? ? Hos Hft]; subst;
        [split_and!; [done|done|cbn [length]; lia|done]|].
      rewrite Hstep in Hft.
      inversion Hft as [Hfail| | | |]; subst;
        try (match goal with
             | H : openable _ _ = true |- _ => by rewrite Hopen in H
             end).
      split_and!; [done|done| |].
      - rewrite length_app. unfold dir_events.
        destruct (bi start <? fsp_nsubdirs fsp); cbn [length]; lia.
      - by rewrite writes_app, writes_dir_events. }
    inversion Hr as [? ? ? ? Hge| |? ? ? ? ? ? ? Hlt Hit|? ? ? ? ? ? ? ? ? ? Hlt Hit Hrest];
      subst.
    - cbn [totwritten start] in Hge. lia.
    - pose proof (max_files_nonneg fsp) as Hmax. unfold max_files in *.
      rewrite Hnbulk in *.
      assert (0 <= (Z.max 0 (fsp_totsize fsp) + sizeof_fsp_buf - 1)
                   / sizeof_fsp_buf)
        by (apply Z.div_pos; unfold sizeof_fsp_buf; lia).
      lia.
    - destruct (Hiter _ _ _ Hit) as (Hs & -> & Hl & Hw). simplify_eq.
      split_and!; [done|by right|].
      eexists. split; [exact Htr|]. split; [cbn [length]; lia|].
      change (mkdirp_event (fsp_path fsp) (w_fs w) :: evs)
        with ([mkdirp_event (fsp_path fsp) (w_fs w)] ++ evs).
      by rewrite writes_app, Hev, Hw.
    - by destruct (Hiter _ _ _ Hit) as (? & _). }
  destruct Hs0 as (-> & Hfs & Hevs). by simplify_eq.
Qed.

(** ** From the command line to the tree *)

Lemma main_config_valid (totsz : Z) (path : string) :
  0 <= totsz < 2 ^ 54 ->
  Z.of_nat (String.length path) + 30 <= PATH_MAX ->
  valid_config (main_config totsz path) /\
  fsp_path (main_config totsz path) = path.
Proof.
  intros Hr Hlen.
  destruct (default_config_fields totsz path Hr) as (Htot & Hbulk & Hb & _).
  assert (Hpath : fsp_path (main_config totsz path) = path).
  { cbn [fsp_path main_config]. apply snprintf_fits. lia. }
  split; [|done]. unfold valid_config.
  rewrite Htot, Hbulk, Hpath. unfold max_files. rewrite Htot.
  change (fsp_nbulk (main_config totsz path)) with 768.
  change (fsp_nsubdirs (main_config totsz path)) with 256.
  assert ((Z.max 0 totsz + sizeof_fsp_buf - 1) / sizeof_fsp_buf
          <= (2 ^ 54 + sizeof_fsp_buf - 1) / sizeof_fsp_buf)
    by (apply Z.div_le_mono; unfold sizeof_fsp_buf; lia).
  assert ((2 ^ 54 + sizeof_fsp_buf - 1) / sizeof_fsp_buf = 1717986919)
    by reflexivity.
  unfold INT_MAX. lia.
Qed.

(** X13: from the command line to the tree: given a size in decimal with or
    without a unit letter, that comes to between 1 byte and [2 ^ 54], and
    a path that leaves room for the names below it, on an empty tree and
    when no system call fails and no [write] returns 0, [main] exits with
    status 0, the root is the path as given, every planned file has
    exactly its expected size, and the sizes add up to the size asked
    for. *)
Theorem command_line_to_tree (g : generator) (a0 path : string)
    (more : list string) (w : world) (n e : Z) (sfx : string) :
  (e, sfx) ∈ size_suffixes -> 0 < n -> n * 1024 ^ e < 2 ^ 54 ->
  Z.of_nat (String.length path) + 30 <= PATH_MAX ->
  w_fs w = ∅ -> benign (w_os w) ->
  let fsp := main_config (n * 1024 ^ e) path in
  exists w',
    main_argv g (a0 :: (decimal n +:+ sfx) :: path :: more) w
    = (Returned EXIT_SUCCESS, w') /\
    fsp_path fsp = path /\
    w_fs w' !! path = Some Dir /\
    (forall c, c ∈ plan fsp ->
       exists data,
         w_fs w' !! task_path fsp c = Some (Reg data) /\
         Z.of_nat (length data) = expected_size fsp c) /\
    total ((fun c => size_at (w_fs w') (task_path fsp c)) <$> plan fsp)
    = n * 1024 ^ e.
Proof.
  intros He Hn Hsz Hlen Hempty Hben fsp.
  assert (He' : 0 <= e <= 4).
  { unfold size_suffixes in He.
    repeat (apply elem_of_cons in He as [He|He]; [simplify_eq; lia|]).
    by apply elem_of_nil in He. }
  assert (Hpow : 1 <= 1024 ^ e)
    by (pose proof (Z.pow_pos_nonneg 1024 e ltac:(lia) ltac:(lia)); lia).
  assert (H54 : 2 ^ 54 < 2 ^ 64) by reflexivity.
  assert (Hn64 : 0 < n < 2 ^ 64) by nia.
  assert (Hparse : strtoull (decimal n +:+ sfx) = (n, sfx)).
  { apply strtoull_decimal; [done|]. by eapply size_suffixes_no_digit. }
  rewrite (main_argv_accepts g a0 _ path more w n sfx e Hparse He).
  rewrite Z.mod_small by nia.
  destruct (main_config_valid (n * 1024 ^ e) path) as [Hv Hpath]; [nia|done|].
  fold fsp in Hv, Hpath.
  assert (Htot : fsp_totsize fsp = n * 1024 ^ e)
    by (apply (default_config_fields); nia).
  unfold main. fold fsp.
  destruct (fspopulate_benign (init_buffer g (fun _ => 0) sizeof_fsp_buf)
              fsp w Hv eq_refl Hben) as (w' & Hrun & _).
  { rewrite Hempty. apply tidy_empty. }
  rewrite Hrun. exists w'. split; [done|]. split; [done|].
  destruct (fspopulate_exact_sizes _ fsp w w' Hv eq_refl Hrun)
    as [Hsizes Hsum].
  { intros c Hc. rewrite Hempty. by apply empty_tree_fresh. }
  split_and!; [|done|by rewrite Hsum].
  pose proof (fspopulate_extends _ fsp w (Returned 0) w'
                ltac:(done) Hrun) as Hext.
  apply fspopulate_run in Hrun; [|done..].
  destruct Hrun as [_ [(_ & ? & _)|(_ & evs & c' & Hr & _)]]; [done|].
  apply run_extends in Hr. specialize (Hr path).
  unfold make_dir in Hr. rewrite Hpath, Hempty, lookup_empty in Hr.
  by rewrite lookup_insert_eq in Hr.
Qed.

(** ** Directories come first *)

Lemma dirs_first_mono (evs : list event) :
  forall seen seen',
    (forall d, d ∈ seen -> d ∈ seen') ->
    dirs_first seen evs -> dirs_first seen' evs.
Proof.
  induction evs as [|e evs IH]; intros seen seen' Hsub H; [done|].
  destruct e; cbn [dirs_first] in *; try by eapply IH.
  - eapply IH; [|exact H]. intros d Hd.
    apply elem_of_cons in Hd as [->|Hd];
      [apply list_elem_of_here|by apply list_elem_of_further, Hsub].
  - destruct H as [(d & Hd & Hp) H]. split; [|by eapply IH].
    exists d. split; [by apply Hsub|done].
Qed.

Lemma dirs_first_app (l1 l2 : list event) :
  forall seen,
    dirs_first seen l1 -> dirs_first (mkdirs l1 ++ seen) l2 ->
    dirs_first seen (l1 ++ l2).
Proof.
  induction l1 as [|e l1 IH]; intros seen H1 H2; [done|].
  destruct e; cbn [dirs_first app] in *;
    try (by apply IH);
    try (destruct H1 as [Hd H1]; split; [done|]; by apply IH).
  apply IH; [done|]. eapply dirs_first_mono; [|exact H2].
  intros d Hd. change (mkdirs (EvMkdirp path ret errno :: l1))
    with (path :: mkdirs l1) in Hd.
  apply elem_of_app. apply elem_of_cons in Hd as [->|Hd].
  - right. apply list_elem_of_here.
  - apply elem_of_app in Hd as [Hd|Hd]; [by left|].
    right. by apply list_elem_of_further.
Qed.

Lemma dirs_first_quiet (evs : list event) :
  forall seen, opens evs = [] -> dirs_first seen evs.
Proof.
  induction evs as [|e evs IH]; intros seen Ho; [done|].
  destruct e; cbn [dirs_first]; try done; by apply IH.
Qed.

Lemma file_task_events os buf t p e fs o evs fs' :
  file_task os buf t p e fs o evs fs' ->
  exists fl r rest, evs = EvOpen p fl r :: rest /\ opens rest = [].
Proof.
  intros Hft. pose proof (file_task_opens _ _ _ _ _ _ _ _ _ Hft) as Ho.
  inversion Hft; subst; cbn [app] in *; do 3 eexists;
    (split; [reflexivity|]);
    change (opens (EvOpen p open_flags ?r :: ?l)) with (p :: opens l) in Ho;
    by simplify_eq.
Qed.

Lemma iteration_dirs_first os buf fsp t c fs o evs fs' (seen : list string) :
  valid_config fsp -> on_track fsp c ->
  (fsp_nsubdirs fsp <= bi c -> subdir_path fsp (di c) ∈ seen) ->
  iteration os buf fsp t c fs o evs fs' ->
  dirs_first seen evs.
Proof.
  intros Hv Htrack Hseen Hit.
  destruct (on_track_bi_bound fsp c Hv Htrack) as (Hbi & Hdi & _).
  inversion Hit as [|? ? ? Hos Hft]; subst; [done|].
  destruct (file_task_events _ _ _ _ _ _ _ _ _ Hft)
    as (fl & r & rest & -> & Hquiet).
  apply dirs_first_app.
  - apply dirs_first_quiet. apply opens_dir_events.
  - cbn [dirs_first]. split; [|by apply dirs_first_quiet].
    exists (subdir_path fsp (di c)). split.
    + rewrite mkdirs_dir_events.
      destruct (Z.ltb_spec (bi c) (fsp_nsubdirs fsp));
        [apply list_elem_of_here|by apply Hseen].
    + apply dirname_file_path; [done|lia..].
Qed.

Lemma run_dirs_first os buf fsp fuel t c fs s evs c' fs' :
  valid_config fsp ->
  run os buf fsp fuel t c fs s evs c' fs' ->
  on_track fsp c ->
  forall seen,
    (forall d, 0 <= d < Z.min (bi c) (fsp_nsubdirs fsp) ->
               subdir_path fsp d ∈ seen) ->
    dirs_first seen evs.
Proof.
  intros Hv.
  assert (Hhere : forall (c : counters) (seen : list string), on_track fsp c ->
            (forall d, 0 <= d < Z.min (bi c) (fsp_nsubdirs fsp) ->
                       subdir_path fsp d ∈ seen) ->
            fsp_nsubdirs fsp <= bi c -> subdir_path fsp (di c) ∈ seen).
  { intros c0 seen Htrack Hseen Hge. apply Hseen.
    destruct (on_track_bi_bound fsp c0 Hv Htrack) as (_ & Hdi & Hlt). lia. }
  induction 1 as [| |????????Hlt Hit|?????????? Hlt Hit Hrun IH];
    intros Htrack seen Hseen; [done|done| |].
  - eapply iteration_dirs_first; [done|exact Htrack| |exact Hit]. by apply Hhere.
  - destruct (on_track_advance fsp c Hv Htrack Hlt) as [Htrack' Hbi].
    apply dirs_first_app.
    + eapply iteration_dirs_first; [done|exact Htrack| |exact Hit]. by apply Hhere.
    + apply IH; [done|]. intros d Hd. rewrite Hbi in Hd.
      apply elem_of_app.
      destruct (Z.lt_ge_cases d (bi c)) as [Hold|Hnew].
      * right. apply Hseen. lia.
      * left. assert (d = bi c) as -> by lia.
        rewrite (iteration_mkdirs _ _ _ _ _ _ _ _ _ Hit).
        rewrite (proj2 (Z.ltb_lt (bi c) (fsp_nsubdirs fsp))) by lia.
        destruct Htrack as (Hb0 & Hdi & _).
        rewrite Hdi, Z.mod_small by lia. apply list_elem_of_here.
Qed.

(** X14: the order of the calls: when it is not a dry run, the first system
    call of [fspopulate] is the [mkdirp] of the root, and no file is
    opened before a [mkdirp] of the directory it lies in: creating a
    directory only while the file counter is below [fsp_nsubdirs] is
    enough, because a later file goes into directory [bi % fsp_nsubdirs],
    which an earlier iteration created. *)
Theorem directories_first (buf : Z -> Z) (fsp : fspopulate_t) (w : world)
    (s : status) (w' : world) :
  valid_config fsp -> fsp_dryrun fsp = false ->
  fspopulate buf fsp w = (s, w') ->
  exists ret errno evs,
    w_trace w' = rev (EvMkdirp (fsp_path fsp) ret errno :: evs) ++ w_trace w /\
    dirs_first [] (EvMkdirp (fsp_path fsp) ret errno :: evs).
Proof.
  intros Hv Hdry Hrun.
  assert (Hn : fsp_nsubdirs fsp <> 0) by (destruct Hv as (_ & _ & ? & _); lia).
  apply fspopulate_run in Hrun; [|done..].
  destruct Hrun as [_ [(_ & _ & _ & Htr)|(_ & evs & c' & Hr & Htr)]].
  - exists (-1), EACCES, []. split; [exact Htr|done].
  - assert (Hev : exists ret errno,
               mkdirp_event (fsp_path fsp) (w_fs w)
               = EvMkdirp (fsp_path fsp) ret errno).
    { unfold mkdirp_event. destruct (w_fs w !! fsp_path fsp); eauto. }
    destruct Hev as (ret & errno & Hev). rewrite Hev in Htr.
    exists ret, errno, evs. split; [exact Htr|]. cbn [dirs_first].
    eapply run_dirs_first; [done|exact Hr|by apply (on_track_start)|].
    intros d Hd. cbn [bi start] in Hd. lia.
Qed.

(** ** How far a run got *)

Lemma run_in_order os buf fsp fuel t c fs s evs c' fs' :
  valid_config fsp ->
  run os buf fsp fuel t c fs s evs c' fs' ->
  on_track fsp c ->
  (forall ck, ck ∈ plan_from fuel fsp c ->
     size_at fs (task_path fsp ck) <= expected_size fsp ck) ->
  exists finished pending,
    plan_from fuel fsp c = finished ++ pending /\
    (s = Returned 0 -> pending = []) /\
    (forall ck, ck ∈ finished ->
       size_at fs' (task_path fsp ck) = expected_size fsp ck) /\
    (forall ck, ck ∈ drop 1 pending ->
       content fs' (task_path fsp ck) = content fs (task_path fsp ck)).
Proof.
  intros Hv.
  induction 1 as [| |????????Hlt Hit|?????????? Hlt Hit Hrun IH];
    intros Htrack Hfits.
  - exists [], []. rewrite plan_from_done by done.
    split_and!; [done|done|..]; intros ck Hck; by apply elem_of_nil in Hck.
  - exists [], []. rewrite plan_from_unfold.
    destruct (_ <? _);
      (split_and!; [done|done|..]; intros ck Hck; by apply elem_of_nil in Hck).
  - exists [], (plan_from (S fuel) fsp c).
    split_and!; [done| |intros ck Hck; by apply elem_of_nil in Hck|].
    + intros ->. apply iteration_status in Hit. by destruct Hit.
    + rewrite plan_from_unfold, (proj2 (Z.ltb_lt _ _) Hlt). cbn [drop].
      intros ck Hck. apply frame_content.
      eapply iteration_frame; [exact Hit|].
      intros Heq. symmetry in Heq. revert Heq.
      by eapply plan_from_paths_fresh.
  - destruct (on_track_advance fsp c Hv Htrack Hlt) as [Htrack' Hbi].
    rewrite (plan_from_unfold (S fuel)), (proj2 (Z.ltb_lt _ _) Hlt) in Hfits
      |- *.
    assert (Hframe : forall ck, ck ∈ plan_from fuel fsp (advance fsp c) ->
              content fs1 (task_path fsp ck)
              = content fs (task_path fsp ck)).
    { intros ck Hck. apply frame_content.
      eapply iteration_frame; [done|].
      intros Heq. symmetry in Heq. revert Heq.
      by eapply plan_from_paths_fresh. }
    destruct IH as (finished & pending & Hplan & Hok & Hfin & Hpend); [done| |].
    { intros ck Hck. rewrite size_at_content, (Hframe ck Hck),
        <- size_at_content.
      apply Hfits. by apply list_elem_of_further. }
    exists (c :: finished), pending. rewrite Hplan.
    split_and!; [done|done| |].
    + intros ck Hck. apply elem_of_cons in Hck as [->|Hck]; [|by apply Hfin].
      destruct (iteration_done _ _ _ _ _ _ _ _ Hit)
        as (rs & Hpos & Htot & Hlook & _).
      pose proof (Hfits c ltac:(apply list_elem_of_here)) as Hle.
      destruct (run_frame _ _ _ _ _ _ _ _ _ _ _ (task_path fsp c) Hrun)
        as [Heq|[Hnone _]]; [|
          |by rewrite Hlook in Hnone].
      { intros ck Hck. by eapply plan_from_paths_fresh. }
      unfold size_at at 1. rewrite Heq, Hlook, length_app, Nat2Z.inj_add.
      rewrite chunks_length
        by (eapply Forall_impl; [exact Hpos|]; cbn; lia).
      rewrite <- size_at_content, Htot. unfold shortfall. lia.
    + intros ck Hck. rewrite (Hpend ck Hck). apply Hframe.
      rewrite Hplan. apply elem_of_app. right.
      by apply (subseteq_drop 1 pending).
Qed.

(** X15: files are completed in the order of the plan: on a tree where
    no planned file is longer than planned, however a run of [fspopulate]
    ends, the plan splits into the files the run has finished, each now
    of exactly its expected size, and the files still pending, of which
    all but the first are as they were before the run; when the run
    returns 0 nothing is pending. *)
Theorem files_completed_in_order (buf : Z -> Z) (fsp : fspopulate_t)
    (w : world) (s : status) (w' : world) :
  valid_config fsp -> fsp_dryrun fsp = false -> fits fsp (w_fs w) ->
  fspopulate buf fsp w = (s, w') ->
  exists finished pending,
    plan fsp = finished ++ pending /\
    (s = Returned 0 -> pending = []) /\
    (forall c, c ∈ finished ->
       size_at (w_fs w') (task_path fsp c) = expected_size fsp c) /\
    (forall c, c ∈ drop 1 pending ->
       content (w_fs w') (task_path fsp c)
       = content (w_fs w) (task_path fsp c)).
Proof.
  intros Hv Hdry Hfits Hrun.
  assert (Hn : fsp_nsubdirs fsp <> 0) by (destruct Hv as (_ & _ & ? & _); lia).
  apply fspopulate_run in Hrun; [|done..].
  destruct Hrun as [_ [(_ & -> & -> & _)|(_ & evs & c' & Hr & _)]].
  - exists [], (plan fsp).
    split_and!; [done|done|intros c Hc; by apply elem_of_nil in Hc|done].
  - destruct (run_in_order _ _ _ _ _ _ _ _ _ _ _ Hv Hr (on_track_start _ Hv))
      as (finished & pending & Hplan & Hok & Hfin & Hpend).
    { intros c Hc. rewrite size_at_content, content_make_dir,
        <- size_at_content. by apply Hfits. }
    exists finished, pending. split_and!; [done|done|done|].
    intros c Hc. by rewrite (Hpend c Hc), content_make_dir.
Qed.

End Fspopulate.

(** * Instances

    The theorems above applied to concrete runs: [PATH_MAX] is 1024, the
    tree starts empty, and the small configuration asks for 8 bytes in two
    bulk files of 3 bytes and two subdirectories. *)

Lemma population_terminates_witness :
  let g := {| prng := Z; srand := fun seed => seed;
              rand := fun s =>
                let s' := (s * 1103515245 + 12345) mod 2 ^ 32 in
                ((s' / 65536) mod 32768, s') |} in
  let fsp := {| fsp_path := "r"; fsp_totsize := 8; fsp_nbulk := 2;
                fsp_bulksize := 3; fsp_nsubdirs := 2; fsp_dryrun := false |} in
  let w := {| w_os := fun _ => Normal; w_fs := ∅; w_fdtab := ∅;
              w_trace := [] |} in
  let r := fspopulate 1024 (fun i => i) fsp w in
  valid_config 1024 fsp /\
  fspopulate 1024 (fun i => i) fsp w = (fst r, snd r) /\
  (fst r = Returned 0 \/ fst r = Returned (-1) \/ fst r = Aborted) /\
  main 1024 g 0 "r" w
  = (Returned EXIT_SUCCESS,
     record (mkdirp_event (snprintf 1024 "r") ∅)
       (make_dir (snprintf 1024 "r") ∅) ∅ w).
Proof.
  intros g fsp w r.
  assert (Hv : valid_config 1024 fsp) by (vm_compute; intuition discriminate).
  assert (Hrun : fspopulate 1024 (fun i => i) fsp w = (fst r, snd r))
    by apply surjective_pairing.
  destruct (population_terminates 1024 (fun i => i) fsp w (fst r) (snd r)
              Hv Hrun) as (Hs & _ & _ & _ & Hmain).
  split_and!; [exact Hv|exact Hrun|exact Hs|].
  apply (Hmain g "r" w). discriminate.
Defined.

Lemma rerun_writes_shortfall_witness :
  let fsp := {| fsp_path := "r"; fsp_totsize := 8; fsp_nbulk := 2;
                fsp_bulksize := 3; fsp_nsubdirs := 2; fsp_dryrun := false |} in
  let w := {| w_os := fun _ => Normal; w_fs := ∅; w_fdtab := ∅;
              w_trace := [] |} in
  let w1 := snd (fspopulate 1024 (fun i => i) fsp w) in
  valid_config 1024 fsp /\ fsp_dryrun fsp = false /\
  fspopulate 1024 (fun i => i) fsp w = (Returned 0, w1) /\
  forall w2 s w3,
    w_fs w2 = w_fs w1 -> fspopulate 1024 (fun i => i) fsp w2 = (s, w3) ->
    w_fs w3 = w_fs w1 /\
    exists evs,
      w_trace w3 = rev evs ++ w_trace w2 /\
      writes evs = [] /\ bytes_written evs = 0.
Proof.
  intros fsp w w1.
  assert (Hv : valid_config 1024 fsp) by (vm_compute; intuition discriminate).
  assert (Hrun : fspopulate 1024 (fun i => i) fsp w = (Returned 0, w1))
    by (vm_compute; reflexivity).
  split_and!; [exact Hv|reflexivity|exact Hrun|].
  exact (proj2 (proj2 (proj2
           (rerun_writes_shortfall 1024 (fun i => i) fsp w w1 Hv eq_refl
              Hrun)))).
Defined.



Lemma expected_size_policy_witness :
  let pre := (fun i => {| totwritten := 0; di := i mod 256; bi := i |})
               <$> seqZ 0 768 in
  let c := {| totwritten := 0; di := 0; bi := 768 |} in
  0 <= 5 < 2 ^ 64 /\
  plan (main_config 1024 5 "r") = pre ++ c :: [] /\
  expected_size (main_config 1024 5 "r") c = Z.min 10485760 (5 - 0).
Proof.
  intros pre c.
  assert (Hr : 0 <= 5 < 2 ^ 64) by (split; [discriminate|reflexivity]).
  assert (Hplan : plan (main_config 1024 5 "r") = pre ++ c :: [])
    by (vm_compute; reflexivity).
  split_and!; [exact (proj1 Hr)|exact (proj2 Hr)|exact Hplan|].
  exact (proj1 (proj2 (proj2 (expected_size_policy 1024 5 "r" pre c [] Hr
                                Hplan)))).
Defined.

Lemma deterministic_layout_witness :
  let fsp := {| fsp_path := "r"; fsp_totsize := 8; fsp_nbulk := 2;
                fsp_bulksize := 3; fsp_nsubdirs := 2; fsp_dryrun := false |} in
  let w1 := {| w_os := fun _ => Normal; w_fs := ∅; w_fdtab := ∅;
               w_trace := [] |} in
  let w2 := {| w_os := fun _ => Short 1; w_fs := ∅; w_fdtab := ∅;
               w_trace := [] |} in
  let w1' := snd (fspopulate 1024 (fun i => i) fsp w1) in
  let w2' := snd (fspopulate 1024 (fun i => i) fsp w2) in
  valid_config 1024 fsp /\ fsp_dryrun fsp = false /\ w_fs w1 = w_fs w2 /\
  fspopulate 1024 (fun i => i) fsp w1 = (Returned 0, w1') /\
  fspopulate 1024 (fun i => i) fsp w2 = (Returned 0, w2') /\
  same_shape (w_fs w1') (w_fs w2').
Proof.
  intros fsp w1 w2 w1' w2'.
  assert (Hv : valid_config 1024 fsp) by (vm_compute; intuition discriminate).
  assert (Hrun1 : fspopulate 1024 (fun i => i) fsp w1 = (Returned 0, w1'))
    by (vm_compute; reflexivity).
  assert (Hrun2 : fspopulate 1024 (fun i => i) fsp w2 = (Returned 0, w2'))
    by (vm_compute; reflexivity).
  destruct (deterministic_layout 1024 (fun i => i) fsp w1 w2 w1' w2' Hv
              eq_refl eq_refl Hrun1 Hrun2)
    as (_ & evs1 & evs2 & _ & _ & _ & _ & Hshape & _).
  split_and!; [exact Hv|reflexivity|reflexivity|exact Hrun1|exact Hrun2
              |exact Hshape].
Defined.

Lemma append_only_writer_witness :
  let fsp := {| fsp_path := "r"; fsp_totsize := 8; fsp_nbulk := 2;
                fsp_bulksize := 3; fsp_nsubdirs := 2; fsp_dryrun := false |} in
  let w := {| w_os := fun _ => Normal;
              w_fs := {[ "r" := Dir; "r/dir000000/file000000" := Reg [7] ]};
              w_fdtab := ∅; w_trace := [] |} in
  let r := fspopulate_body 1024 (fun i => i) fsp start w in
  fsp_nsubdirs fsp <> 0 /\
  fspopulate_body 1024 (fun i => i) fsp start w = (None, snd r) /\
  extends (w_fs w) (w_fs (snd r)) /\
  (forall q, q <> task_path 1024 fsp start ->
             content (w_fs (snd r)) q = content (w_fs w) q) /\
  exists evs rs,
    w_trace (snd r) = rev evs ++ w_trace w /\
    opens evs = ["r/dir000000/file000000"] /\
    content (w_fs (snd r)) "r/dir000000/file000000"
    = [7] ++ chunks (fun i => i) rs /\
    Z.of_nat (length (chunks (fun i => i) rs)) = 2.
Proof.
  intros fsp w r.
  assert (Hn : fsp_nsubdirs fsp <> 0) by discriminate.
  assert (Hrun : fspopulate_body 1024 (fun i => i) fsp start w
                 = (None, snd r)) by (vm_compute; reflexivity).
  assert (Hben : benign (w_os w)) by (intros k; split; discriminate).
  assert (Hop : openable (dir_step 1024 fsp start (w_fs w))
                  (task_path 1024 fsp start) = true)
    by (vm_compute; reflexivity).
  destruct (append_only_writer 1024 (fun i => i) fsp start w None (snd r)
              Hn Hrun)
    as (_ & _ & Hext & Hframe & evs & fd & rs & Htr & _ & _ & _ & _ & _ & _
        & _ & _ & Hdone).
  destruct (Hdone Hben Hop) as (_ & Hopens & Hcont & Hlen).
  split_and!; [exact Hn|exact Hrun|exact Hext|exact Hframe|].
  exists evs, rs.
  split_and!; [exact Htr|exact Hopens|exact Hcont|exact Hlen].
Defined.

Lemma directory_creation_witness :
  let fsp := {| fsp_path := "r"; fsp_totsize := 8; fsp_nbulk := 2;
                fsp_bulksize := 3; fsp_nsubdirs := 2; fsp_dryrun := false |} in
  valid_config 1024 fsp /\
  forall w w',
    fspopulate 1024 (fun i => i) fsp w = (Returned 0, w') ->
    exists evs,
      w_trace w' = rev evs ++ w_trace w /\
      mkdirs evs
      = "r" :: (subdir_path 1024 fsp
                  <$> seqZ 0 (Z.min (Z.of_nat (length (plan fsp))) 2)).
Proof.
  intros fsp.
  assert (Hv : valid_config 1024 fsp) by (vm_compute; intuition discriminate).
  split; [exact Hv|].
  intros w w'.
  exact (proj2 (directory_creation 1024 (fun i => i) fsp Hv) w w' eq_refl).
Defined.


Lemma fail_fast_witness :
  let g := {| prng := Z; srand := fun seed => seed;
              rand := fun s =>
                let s' := (s * 1103515245 + 12345) mod 2 ^ 32 in
                ((s' / 65536) mod 32768, s') |} in
  let w := {| w_os := fun k => match k with 3%nat => Error | _ => Normal end;
              w_fs := ∅; w_fdtab := ∅; w_trace := [] |} in
  let r := main 1024 g 5 "r" w in
  main 1024 g 5 "r" w = (fst r, snd r) /\
  extends (w_fs w) (w_fs (snd r)) /\
  exists good tail,
    w_trace (snd r) = rev (good ++ tail) ++ w_trace w /\
    Forall (fun e => clean e = true) good.
Proof.
  intros g w r.
  assert (Hrun : main 1024 g 5 "r" w = (fst r, snd r))
    by apply surjective_pairing.
  destruct (fail_fast 1024 g 5 "r" w (fst r) (snd r) Hrun)
    as (good & tail & Htr & Hgood & _ & _ & _ & Hext & _).
  split_and!; [exact Hrun|exact Hext|].
  exists good, tail. split; [exact Htr|exact Hgood].
Defined.

Lemma tiny_total_default_policy_witness :
  let g := {| prng := Z; srand := fun seed => seed;
              rand := fun s =>
                let s' := (s * 1103515245 + 12345) mod 2 ^ 32 in
                ((s' / 65536) mod 32768, s') |} in
  let w := {| w_os := fun _ => Normal; w_fs := ∅; w_fdtab := ∅;
              w_trace := [] |} in
  0 < 5 < 1024 /\ Z.of_nat (String.length "r") + 30 <= 1024 /\
  w_fs w = ∅ /\ benign (w_os w) /\
  exists w',
    main 1024 g 5 "r" w = (Returned EXIT_SUCCESS, w') /\
    exists data,
      w_fs w' !! file_path 1024 (main_config 1024 5 "r") 0 768
      = Some (Reg data) /\
      Z.of_nat (length data) = 5.
Proof.
  intros g w.
  assert (H1 : 0 < 5 < 1024) by (split; reflexivity).
  assert (H2 : Z.of_nat (String.length "r") + 30 <= 1024) by discriminate.
  assert (H3 : benign (w_os w)) by (intros k; split; discriminate).
  destruct (tiny_total_default_policy 1024 g 5 "r" w H1 H2 eq_refl H3)
    as (_ & _ & _ & w' & Hmain & _ & _ & Hlast & _).
  split_and!; [exact (proj1 H1)|exact (proj2 H1)|exact H2|reflexivity|exact H3|].
  exists w'. split; [exact Hmain|exact Hlast].
Defined.

(** C4, as stated, fails: under the default policy with a total of 3
    bytes and the sample generator of the C standard, a run in which every
    [write] transfers one byte at a time and a run in which every [write]
    is complete both succeed on an empty tree, and they leave different
    bytes in the last file, since every [write] call of [populate_file]
    starts at the first byte of the buffer. *)
Lemma byte_identical_counterexample :
  let g := {| prng := Z; srand := fun seed => seed;
              rand := fun s =>
                let s' := (s * 1103515245 + 12345) mod 2 ^ 32 in
                ((s' / 65536) mod 32768, s') |} in
  ~ (forall w1 w2 w1' w2' : world,
       w_fs w1 = ∅ -> w_fs w2 = ∅ ->
       main 1024 g 3 "r" w1 = (Returned EXIT_SUCCESS, w1') ->
       main 1024 g 3 "r" w2 = (Returned EXIT_SUCCESS, w2') ->
       w_fs w1' = w_fs w2').
Proof.
  intros g H.
  set (w1 := {| w_os := fun _ => Normal; w_fs := ∅; w_fdtab := ∅;
                w_trace := [] |}).
  set (w2 := {| w_os := fun _ => Short 1; w_fs := ∅; w_fdtab := ∅;
                w_trace := [] |}).
  pose proof (main_fill_pattern 1024 g 3 "r" w1) as M1.
  pose proof (main_fill_pattern 1024 g 3 "r" w2) as M2.
  assert (F1 : fst (fspopulate 1024 (fill_pattern g sizeof_fsp_buf)
                      (main_config 1024 3 "r") w1) = Returned 0)
    by (vm_compute; reflexivity).
  assert (F2 : fst (fspopulate 1024 (fill_pattern g sizeof_fsp_buf)
                      (main_config 1024 3 "r") w2) = Returned 0)
    by (vm_compute; reflexivity).
  assert (L1 : w_fs (snd (fspopulate 1024 (fill_pattern g sizeof_fsp_buf)
                            (main_config 1024 3 "r") w1))
               !! "r/dir000000/file000768" = Some (Reg [-58; 126; -127]))
    by (vm_compute; reflexivity).
  assert (L2 : w_fs (snd (fspopulate 1024 (fill_pattern g sizeof_fsp_buf)
                            (main_config 1024 3 "r") w2))
               !! "r/dir000000/file000768" = Some (Reg [-58; -58; -58]))
    by (vm_compute; reflexivity).
  destruct (fspopulate 1024 (fill_pattern g sizeof_fsp_buf)
              (main_config 1024 3 "r") w1) as [s1 v1].
  destruct (fspopulate 1024 (fill_pattern g sizeof_fsp_buf)
              (main_config 1024 3 "r") w2) as [s2 v2].
  cbn [fst snd] in F1, F2, L1, L2. subst s1 s2.
  specialize (H w1 w2 v1 v2 eq_refl eq_refl M1 M2).
  rewrite H, L2 in L1. discriminate L1.
Qed.

Lemma size_argument_scaling_witness :
  let g := {| prng := Z; srand := fun seed => seed;
              rand := fun s =>
                let s' := (s * 1103515245 + 12345) mod 2 ^ 32 in
                ((s' / 65536) mod 32768, s') |} in
  let w := {| w_os := fun _ => Normal; w_fs := ∅; w_fdtab := ∅;
              w_trace := [] |} in
  strtoull "0x10G" = (16, "G") /\ (3, "G") ∈ size_suffixes /\
  main_argv 1024 g ["fspopulate"; "0x10G"; "r"; "more"] w
  = main 1024 g ((16 * 1024 ^ 3) mod 2 ^ 64) "r" w.
Proof.
  intros g w.
  assert (H1 : strtoull "0x10G" = (16, "G")) by reflexivity.
  assert (H2 : (3, "G") ∈ size_suffixes) by (unfold size_suffixes; repeat constructor).
  split_and!; [exact H1|exact H2|].
  exact (proj2 (size_argument_scaling 1024 g "fspopulate" "0x10G" "r" ["more"]
                  w 16 "G" 3 H1 H2)).
Defined.

Lemma usage_exit_witness :
  let g := {| prng := Z; srand := fun seed => seed;
              rand := fun s =>
                let s' := (s * 1103515245 + 12345) mod 2 ^ 32 in
                ((s' / 65536) mod 32768, s') |} in
  let w := {| w_os := fun _ => Normal; w_fs := ∅; w_fdtab := ∅;
              w_trace := [] |} in
  no_nul (snd (strtoull (nth 1 ["fspopulate"; "5kb"; "r"] ""))) = true /\
  main_argv 1024 g ["fspopulate"; "5kb"; "r"] w = (Returned 2, w).
Proof.
  intros g w.
  assert (H1 : no_nul (snd (strtoull (nth 1 ["fspopulate"; "5kb"; "r"] "")))
               = true) by reflexivity.
  split; [exact H1|].
  apply (proj1 (usage_exit 1024 g ["fspopulate"; "5kb"; "r"] w H1)).
  right. vm_compute. intros H.
  repeat (apply elem_of_cons in H as [H|H]; [discriminate H|]).
  by apply elem_of_nil in H.
Defined.

Lemma decimal_size_argument_witness :
  let g := {| prng := Z; srand := fun seed => seed;
              rand := fun s =>
                let s' := (s * 1103515245 + 12345) mod 2 ^ 32 in
                ((s' / 65536) mod 32768, s') |} in
  let w := {| w_os := fun _ => Normal; w_fs := ∅; w_fdtab := ∅;
              w_trace := [] |} in
  0 <= 5 < 2 ^ 64 /\ (3, "g") ∈ size_suffixes /\
  strtoull (decimal 5 +:+ "g") = (5, "g") /\
  main_argv 1024 g ["fspopulate"; decimal 5 +:+ "g"; "r"] w
  = main 1024 g ((5 * 1024 ^ 3) mod 2 ^ 64) "r" w.
Proof.
  intros g w.
  assert (H1 : 0 <= 5 < 2 ^ 64) by (split; [discriminate|reflexivity]).
  assert (H2 : (3, "g") ∈ size_suffixes) by (unfold size_suffixes; repeat constructor).
  destruct (decimal_size_argument 1024 g "fspopulate" "r" [] w 5 3 "g" H1 H2)
    as [Hparse Hmain].
  split_and!; [exact (proj1 H1)|exact (proj2 H1)|exact H2|exact Hparse
              |exact Hmain].
Defined.

Lemma out_of_range_total_witness :
  let g := {| prng := Z; srand := fun seed => seed;
              rand := fun s =>
                let s' := (s * 1103515245 + 12345) mod 2 ^ 32 in
                ((s' / 65536) mod 32768, s') |} in
  let w := {| w_os := fun _ => Normal; w_fs := ∅; w_fdtab := ∅;
              w_trace := [] |} in
  0 <= 2 ^ 63 < 2 ^ 64 /\
  plan (main_config 1024 (2 ^ 63) "r") = [] /\
  main 1024 g (2 ^ 63) "r" w
  = (Returned EXIT_SUCCESS,
     record (mkdirp_event (snprintf 1024 "r") ∅) (make_dir (snprintf 1024 "r") ∅)
       ∅ w).
Proof.
  intros g w.
  assert (H1 : 0 <= 2 ^ 63 < 2 ^ 64) by (split; [discriminate|reflexivity]).
  destruct (out_of_range_total 1024 g (2 ^ 63) "r" w H1) as [Hplan Hmain].
  split_and!; [exact (proj1 H1)|exact (proj2 H1)| |].
  - apply Hplan. right. reflexivity.
  - apply Hmain; [right; reflexivity|discriminate].
Defined.

Lemma complete_writes_contents_witness :
  let fsp := {| fsp_path := "r"; fsp_totsize := 8; fsp_nbulk := 2;
                fsp_bulksize := 3; fsp_nsubdirs := 2; fsp_dryrun := false |} in
  let w := {| w_os := fun _ => Normal; w_fs := ∅; w_fdtab := ∅;
              w_trace := [] |} in
  let w' := snd (fspopulate 1024 (fun i => i) fsp w) in
  valid_config 1024 fsp /\ fsp_dryrun fsp = false /\
  fspopulate 1024 (fun i => i) fsp w = (Returned 0, w') /\
  exists evs,
    w_trace w' = rev evs ++ w_trace w /\
    (full_writes evs ->
     forall c, c ∈ plan fsp ->
       w_fs w' !! task_path 1024 fsp c
       = Some (Reg (content (w_fs w) (task_path 1024 fsp c)
                    ++ periodic (fun i => i) (shortfall 1024 fsp (w_fs w) c))) /\
       (w_fs w = ∅ ->
        w_fs w' !! task_path 1024 fsp c
        = Some (Reg (periodic (fun i => i) (expected_size fsp c))))).
Proof.
  intros fsp w w'.
  assert (Hv : valid_config 1024 fsp) by (vm_compute; intuition discriminate).
  assert (Hrun : fspopulate 1024 (fun i => i) fsp w = (Returned 0, w'))
    by (vm_compute; reflexivity).
  split_and!; [exact Hv|reflexivity|exact Hrun|].
  exact (complete_writes_contents 1024 (fun i => i) fsp w w' Hv eq_refl Hrun).
Defined.

Lemma populate_file_complete_witness :
  let e := {| of_path := "f"; of_append := true; of_writable := true;
              of_offset := 0 |} in
  let w := {| w_os := fun _ => Normal; w_fs := {[ "f" := Reg [7] ]};
              w_fdtab := {[ 3 := e ]}; w_trace := [] |} in
  w_fdtab w !! 3 = Some e /\ of_append e = true /\ of_writable e = true /\
  w_fs w !! of_path e = Some (Reg [7]) /\
  (forall k, (tick w <= k)%nat -> w_os w k = Normal) /\
  exists w' rs,
    populate_file (fun i => i) 3 4 w = (Returned 0, w') /\
    w_trace w' = rev (write_events 3 4 0 rs) ++ w_trace w /\
    full_writes (write_events 3 4 0 rs) /\
    Z.of_nat (length rs) = (Z.max 0 4 + sizeof_fsp_buf - 1) / sizeof_fsp_buf /\
    w_fs w'
    = <[of_path e := Reg ([7] ++ periodic (fun i => i) (Z.max 0 4))]> (w_fs w).
Proof.
  intros e w.
  assert (H1 : w_fdtab w !! 3 = Some e) by reflexivity.
  assert (H2 : w_fs w !! of_path e = Some (Reg [7])) by reflexivity.
  assert (H3 : forall k, (tick w <= k)%nat -> w_os w k = Normal)
    by (intros k _; reflexivity).
  split_and!; [exact H1|reflexivity|reflexivity|exact H2|exact H3|].
  exact (populate_file_complete (fun i => i) 3 4 w e [7] H1 eq_refl eq_refl
           H2 H3).
Defined.

Lemma descriptors_closed_witness :
  let fsp := {| fsp_path := "r"; fsp_totsize := 8; fsp_nbulk := 2;
                fsp_bulksize := 3; fsp_nsubdirs := 2; fsp_dryrun := false |} in
  let e := {| of_path := "f"; of_append := false; of_writable := false;
              of_offset := 0 |} in
  let w := {| w_os := fun k => match k with 7%nat => Error | _ => Normal end;
              w_fs := ∅; w_fdtab := {[ 0 := e ]}; w_trace := [] |} in
  let w' := snd (fspopulate 1024 (fun i => i) fsp w) in
  fspopulate 1024 (fun i => i) fsp w = (Returned (-1), w') /\
  w_fdtab w' = w_fdtab w.
Proof.
  intros fsp e w w'.
  assert (Hrun : fspopulate 1024 (fun i => i) fsp w = (Returned (-1), w'))
    by (vm_compute; reflexivity).
  split; [exact Hrun|].
  exact (proj1 (descriptors_closed 1024 (fun i => i) fsp w (-1) w' Hrun)).
Defined.


Lemma resume_after_failure_witness :
  let fsp := {| fsp_path := "r"; fsp_totsize := 8; fsp_nbulk := 2;
                fsp_bulksize := 3; fsp_nsubdirs := 2; fsp_dryrun := false |} in
  let w := {| w_os := fun k => match k with 7%nat => Error | _ => Normal end;
              w_fs := ∅; w_fdtab := ∅; w_trace := [] |} in
  let r := fspopulate 1024 (fun i => i) fsp w in
  let w2 := {| w_os := fun _ => Short 1; w_fs := w_fs (snd r); w_fdtab := ∅;
               w_trace := [] |} in
  valid_config 1024 fsp /\ fsp_dryrun fsp = false /\
  tidy 1024 fsp (w_fs w) /\ fits 1024 fsp (w_fs w) /\
  fspopulate 1024 (fun i => i) fsp w = (fst r, snd r) /\
  w_fs w2 = w_fs (snd r) /\ benign (w_os w2) /\
  fst r = Returned (-1) /\
  exists w3,
    fspopulate 1024 (fun i => i) fsp w2 = (Returned 0, w3) /\
    total ((fun c => size_at (w_fs w3) (task_path 1024 fsp c)) <$> plan fsp)
    = fsp_totsize fsp.
Proof.
  intros fsp w r w2.
  assert (Hv : valid_config 1024 fsp) by (vm_compute; intuition discriminate).
  assert (Htidy : tidy 1024 fsp (w_fs w)) by apply tidy_empty.
  assert (Hfits : fits 1024 fsp (w_fs w))
    by (intros c Hc; by apply empty_tree_fresh).
  assert (Hrun : fspopulate 1024 (fun i => i) fsp w = (fst r, snd r))
    by apply surjective_pairing.
  assert (Hben : benign (w_os w2)) by (intros k; split; discriminate).
  destruct (resume_after_failure 1024 (fun i => i) fsp w (fst r) (snd r) w2
              Hv eq_refl Htidy Hfits Hrun eq_refl Hben)
    as (_ & _ & w3 & Hrun2 & _ & Hsum & _).
  split_and!; [exact Hv|reflexivity|exact Htidy|exact Hfits|exact Hrun
              |reflexivity|exact Hben|vm_compute; reflexivity|].
  exists w3. split; [exact Hrun2|exact Hsum].
Defined.

Lemma default_policy_plan_witness :
  0 < 2 ^ 40 < 2 ^ 54 /\
  Z.of_nat (length (plan (main_config 1024 (2 ^ 40) "r"))) = 768 + 26215 /\
  expected_size (main_config 1024 (2 ^ 40) "r") (bulk_entry (2 ^ 30) 767)
  = 2 ^ 30 /\
  expected_size (main_config 1024 (2 ^ 40) "r") (standard_entry (2 ^ 30) 26214)
  = 4 * 1024 * 1024.
Proof.
  assert (Hr : 0 < 2 ^ 40 < 2 ^ 54) by (split; reflexivity).
  destruct (default_policy_plan 1024 (2 ^ 40) "r" Hr)
    as (_ & Hlen & _ & Hbulk & _ & Hlast & _).
  split_and!; [exact (proj1 Hr)|exact (proj2 Hr)|exact Hlen| |exact Hlast].
  apply (Hbulk 767). split; [discriminate|reflexivity].
Defined.

Lemma long_root_path_witness :
  let g := {| prng := Z; srand := fun seed => seed;
              rand := fun s =>
                let s' := (s * 1103515245 + 12345) mod 2 ^ 32 in
                ((s' / 65536) mod 32768, s') |} in
  let w := {| w_os := fun _ => Normal; w_fs := ∅; w_fdtab := ∅;
              w_trace := [] |} in
  let r := main 4 g 5 "abcdef" w in
  4 - 1 <= Z.of_nat (String.length "abcdef") /\ 0 < 5 < 2 ^ 63 /\
  (forall data, w_fs w !! snprintf 4 "abcdef" <> Some (Reg data)) /\
  main 4 g 5 "abcdef" w = (fst r, snd r) /\
  file_path 4 (main_config 4 5 "abcdef") 0 0 = "abc" /\
  fst r = Returned EXIT_FAILURE.
Proof.
  intros g w r.
  assert (H1 : 4 - 1 <= Z.of_nat (String.length "abcdef")) by discriminate.
  assert (H2 : 0 < 5 < 2 ^ 63) by (split; reflexivity).
  assert (H3 : forall data, w_fs w !! snprintf 4 "abcdef" <> Some (Reg data))
    by (intros data; discriminate).
  assert (Hrun : main 4 g 5 "abcdef" w = (fst r, snd r))
    by apply surjective_pairing.
  destruct (long_root_path 4 g 5 "abcdef" w (fst r) (snd r) H1 H2 H3 Hrun)
    as (Hpaths & Hs & _).
  split_and!; [exact H1|exact (proj1 H2)|exact (proj2 H2)|exact H3|exact Hrun
              |exact (proj2 (Hpaths 0 0))|exact Hs].
Defined.

Lemma command_line_to_tree_witness :
  let g := {| prng := Z; srand := fun seed => seed;
              rand := fun s =>
                let s' := (s * 1103515245 + 12345) mod 2 ^ 32 in
                ((s' / 65536) mod 32768, s') |} in
  let w := {| w_os := fun _ => Short 4096; w_fs := ∅; w_fdtab := ∅;
              w_trace := [] |} in
  (3, "g") ∈ size_suffixes /\ 0 < 5 /\ 5 * 1024 ^ 3 < 2 ^ 54 /\
  Z.of_nat (String.length "r") + 30 <= 1024 /\
  w_fs w = ∅ /\ benign (w_os w) /\
  exists w',
    main_argv 1024 g ["fspopulate"; decimal 5 +:+ "g"; "r"] w
    = (Returned EXIT_SUCCESS, w') /\
    total ((fun c => size_at (w_fs w')
                       (task_path 1024 (main_config 1024 (5 * 1024 ^ 3) "r") c))
             <$> plan (main_config 1024 (5 * 1024 ^ 3) "r"))
    = 5 * 1024 ^ 3.
Proof.
  intros g w.
  assert (H1 : (3, "g") ∈ size_suffixes)
    by (unfold size_suffixes; repeat constructor).
  assert (H2 : 0 < 5) by reflexivity.
  assert (H3 : 5 * 1024 ^ 3 < 2 ^ 54) by reflexivity.
  assert (H4 : Z.of_nat (String.length "r") + 30 <= 1024) by discriminate.
  assert (H5 : benign (w_os w)) by (intros k; split; discriminate).
  destruct (command_line_to_tree 1024 g "fspopulate" "r" [] w 5 3 "g"
              H1 H2 H3 H4 eq_refl H5) as (w' & Hmain & _ & _ & _ & Hsum).
  split_and!; [exact H1|exact H2|exact H3|exact H4|reflexivity|exact H5|].
  exists w'. split; [exact Hmain|exact Hsum].
Defined.

Lemma directories_first_witness :
  let fsp := {| fsp_path := "r"; fsp_totsize := 8; fsp_nbulk := 2;
                fsp_bulksize := 3; fsp_nsubdirs := 2; fsp_dryrun := false |} in
  let w := {| w_os := fun _ => Normal; w_fs := ∅; w_fdtab := ∅;
              w_trace := [] |} in
  let r := fspopulate 1024 (fun i => i) fsp w in
  valid_config 1024 fsp /\ fsp_dryrun fsp = false /\
  fspopulate 1024 (fun i => i) fsp w = (fst r, snd r) /\
  exists ret errno evs,
    w_trace (snd r) = rev (EvMkdirp "r" ret errno :: evs) ++ w_trace w /\
    dirs_first [] (EvMkdirp "r" ret errno :: evs).
Proof.
  intros fsp w r.
  assert (Hv : valid_config 1024 fsp) by (vm_compute; intuition discriminate).
  assert (Hrun : fspopulate 1024 (fun i => i) fsp w = (fst r, snd r))
    by apply surjective_pairing.
  split_and!; [exact Hv|reflexivity|exact Hrun|].
  exact (directories_first 1024 (fun i => i) fsp w (fst r) (snd r) Hv eq_refl
           Hrun).
Defined.

Lemma files_completed_in_order_witness :
  let fsp := {| fsp_path := "r"; fsp_totsize := 8; fsp_nbulk := 2;
                fsp_bulksize := 3; fsp_nsubdirs := 2; fsp_dryrun := false |} in
  let w := {| w_os := fun k => match k with 7%nat => Error | _ => Normal end;
              w_fs := ∅; w_fdtab := ∅; w_trace := [] |} in
  let r := fspopulate 1024 (fun i => i) fsp w in
  valid_config 1024 fsp /\ fsp_dryrun fsp = false /\ fits 1024 fsp (w_fs w) /\
  fspopulate 1024 (fun i => i) fsp w = (fst r, snd r) /\
  exists finished pending,
    plan fsp = finished ++ pending /\
    (fst r = Returned 0 -> pending = []) /\
    (forall c, c ∈ finished ->
       size_at (w_fs (snd r)) (task_path 1024 fsp c) = expected_size fsp c) /\
    (forall c, c ∈ drop 1 pending ->
       content (w_fs (snd r)) (task_path 1024 fsp c)
       = content (w_fs w) (task_path 1024 fsp c)).
Proof.
  intros fsp w r.
  assert (Hv : valid_config 1024 fsp) by (vm_compute; intuition discriminate).
  assert (Hfits : fits 1024 fsp (w_fs w))
    by (intros c Hc; by apply empty_tree_fresh).
  assert (Hrun : fspopulate 1024 (fun i => i) fsp w = (fst r, snd r))
    by apply surjective_pairing.
  split_and!; [exact Hv|reflexivity|exact Hfits|exact Hrun|].
  exact (files_completed_in_order 1024 (fun i => i) fsp w (fst r) (snd r)
           Hv eq_refl Hfits Hrun).
Defined.
